(** * EdLight-Academy: exam-catalog normalisation scripts

    A shallow embedding of [scripts/fix_all_exams.py] (answer inference,
    MCQ key correction, subject-aware markup cleanup) and of
    [scripts/fix_exam_structure.py] (deterministic section repair, plan
    applier, question-count check), with the properties the specification
    states about them.

    Conventions of the embedding.
    - A Python [str] is a [string]; the source text is UTF-8, so a
      character outside ASCII is the sequence of its bytes.
    - [str.lower], [str.strip] and the class [\d] of [re] depend on the
      Unicode tables of the interpreter.  They are the members of the class
      [Unicode]: every definition that calls them, and every property of
      such a definition, is stated for any tables that have the facts the
      class records, so for those of the interpreter too.  On ASCII text
      the tables are known, and [ascii_unicode] is what the examples are
      evaluated with.
    - [d.get(k)] on a JSON object is an [option]: [None] is both a missing
      key and a JSON null.  Where the source distinguishes them
      ([d.get(k, default)]) the field has type [field].
    - A Python dict that is iterated is an association list in insertion
      order.
    - A Python exception is [Raise]; code that cannot raise is a plain
      function.
    - The members of a question, a section, an exam and a plan have the
      JSON types the records below give them, those of the catalog the
      specification describes; a member of another JSON type is in the
      model where a record says so ([option_value], [hint],
      [analysis_val]).
    - The module-level [stats] counters of fix_all_exams.py are written and
      never read by the functions below; they are left out. *)

From Stdlib Require Import List Bool Arith ZArith Lia.
From Stdlib Require Import Strings.String Strings.Ascii.
From Stdlib Require Import Numbers.DecimalString.
From Stdlib Require Import Sorting.Permutation.
Import ListNotations.

Local Open Scope string_scope.
Local Open Scope list_scope.

(** ** Python values and exceptions *)

Inductive pyexc : Type :=
| TypeError
| IndexError
| AttributeError.

Inductive pyresult (A : Type) : Type :=
| Ok (a : A)
| Raise (e : pyexc).

Arguments Ok {A} a.
Arguments Raise {A} e.

Definition bind {A B : Type} (m : pyresult A) (k : A -> pyresult B) : pyresult B :=
  match m with
  | Ok a => k a
  | Raise e => Raise e
  end.

Notation "x <- m ;; k" := (bind m (fun x => k))
  (at level 61, m at next level, right associativity).

(** A JSON object member as [d.get(k, default)] sees it. *)
Inductive field (A : Type) : Type :=
| Absent
| Null
| Present (a : A).

Arguments Absent {A}.
Arguments Null {A}.
Arguments Present {A} a.

(** [d.get(k)] *)
Definition get {A : Type} (f : field A) : option A :=
  match f with
  | Present a => Some a
  | _ => None
  end.

(** [d.get(k, default)]: the default replaces a missing key only. *)
Definition get_default {A : Type} (default : A) (f : field A) : option A :=
  match f with
  | Absent => Some default
  | Null => None
  | Present a => Some a
  end.

(** A JSON scalar that is not a string. *)
Inductive other_json : Type :=
| JNull
| JBool (b : bool)
| JNum (z : Z).

(** ** Strings *)

Module PyStr.

Definition nl : string := String "010"%char EmptyString.

(** The separator ["\n\n"]. *)
Definition blank_line : string := nl ++ nl.

(** Truthiness of [str]. *)
Definition truthy (s : string) : bool :=
  match s with
  | EmptyString => false
  | String _ _ => true
  end.

(** Truthiness of [Optional[str]]. *)
Definition otruthy (o : option string) : bool :=
  match o with
  | Some s => truthy s
  | None => false
  end.

(** [o or ''] *)
Definition or_empty (o : option string) : string :=
  match o with
  | Some s => if truthy s then s else EmptyString
  | None => EmptyString
  end.

Definition is_upper (c : ascii) : bool :=
  let n := nat_of_ascii c in (65 <=? n)%nat && (n <=? 90)%nat.

Definition is_lower (c : ascii) : bool :=
  let n := nat_of_ascii c in (97 <=? n)%nat && (n <=? 122)%nat.

Definition is_alpha (c : ascii) : bool := is_upper c || is_lower c.

Definition is_digit (c : ascii) : bool :=
  let n := nat_of_ascii c in (48 <=? n)%nat && (n <=? 57)%nat.

(** [str.isspace] on the ASCII range: TAB, LF, VT, FF, CR, FS, GS, RS, US
    and the space. *)
Definition is_space (c : ascii) : bool :=
  let n := nat_of_ascii c in
  ((9 <=? n)%nat && (n <=? 13)%nat) || ((28 <=? n)%nat && (n <=? 32)%nat).

Definition lower_char (c : ascii) : ascii :=
  if is_upper c then ascii_of_nat (nat_of_ascii c + 32) else c.

(** [s.lower()] on ASCII text. *)
Fixpoint ascii_lower (s : string) : string :=
  match s with
  | EmptyString => EmptyString
  | String c s' => String (lower_char c) (ascii_lower s')
  end.

Fixpoint ascii_lstrip (s : string) : string :=
  match s with
  | EmptyString => EmptyString
  | String c s' => if is_space c then ascii_lstrip s' else s
  end.

Fixpoint ascii_rstrip (s : string) : string :=
  match s with
  | EmptyString => EmptyString
  | String c s' =>
      match ascii_rstrip s' with
      | EmptyString => if is_space c then EmptyString else String c EmptyString
      | r => String c r
      end
  end.

(** [s.strip()] on ASCII text. *)
Definition ascii_strip (s : string) : string := ascii_rstrip (ascii_lstrip s).

(** A character of the ASCII range. *)
Definition is_ascii_char (c : ascii) : bool := (nat_of_ascii c <? 128)%nat.

(** Text of the ASCII range. *)
Fixpoint is_ascii (s : string) : bool :=
  match s with
  | EmptyString => true
  | String c s' => is_ascii_char c && is_ascii s'
  end.

(** [s.startswith(p)] *)
Fixpoint startswith (p s : string) : bool :=
  match p, s with
  | EmptyString, _ => true
  | String a p', String b s' => Ascii.eqb a b && startswith p' s'
  | String _ _, EmptyString => false
  end.

(** [needle in hay] *)
Fixpoint contains (needle hay : string) : bool :=
  startswith needle hay ||
  match hay with
  | EmptyString => false
  | String _ hay' => contains needle hay'
  end.

(** [c in chars] for a one-character [c]. *)
Fixpoint char_in (c : ascii) (chars : string) : bool :=
  match chars with
  | EmptyString => false
  | String d chars' => Ascii.eqb c d || char_in c chars'
  end.

(** [s in (s1, s2, ...)] and [s in {s1, s2, ...}] *)
Fixpoint mem (s : string) (l : list string) : bool :=
  match l with
  | [] => false
  | x :: l' => String.eqb s x || mem s l'
  end.

(** Left-to-right scan shared by [str.replace] and [re.sub]: [skip] counts
    the characters of the current match that remain to be consumed. *)
Fixpoint replace_from (old new : string) (skip : nat) (s : string) : string :=
  match s with
  | EmptyString => EmptyString
  | String c s' =>
      match skip with
      | S k => replace_from old new k s'
      | O =>
          if startswith old s
          then new ++ replace_from old new (String.length old - 1) s'
          else String c (replace_from old new 0 s')
      end
  end.

(** [s.replace(old, new)] for a non-empty [old] (the only use in the
    source). *)
Definition replace (old new s : string) : string := replace_from old new 0 s.

(** [sep.join(l)] *)
Fixpoint join (sep : string) (l : list string) : string :=
  match l with
  | [] => EmptyString
  | [x] => x
  | x :: l' => x ++ sep ++ join sep l'
  end.

(** [str(n)] for a non-negative [int]. *)
Definition of_nat (n : nat) : string := NilEmpty.string_of_uint (Nat.to_uint n).

(** The longest prefix of [s] whose characters satisfy [p], and what follows:
    a greedy [p+] or [p*] of a regular expression. *)
Fixpoint span (p : ascii -> bool) (s : string) : string * string :=
  match s with
  | EmptyString => (EmptyString, EmptyString)
  | String c s' =>
      if p c then let '(a, b) := span p s' in (String c a, b)
      else (EmptyString, s)
  end.

(** [re.sub(pattern, repl, s)] for a pattern given by its matcher: [m s]
    is the match of the pattern anchored at the start of [s], as the
    replacement text and the number of characters matched (at least one in
    every use below). *)
Fixpoint re_sub_from (m : string -> option (string * nat)) (skip : nat) (s : string) : string :=
  match s with
  | EmptyString => EmptyString
  | String c s' =>
      match skip with
      | S k => re_sub_from m k s'
      | O =>
          match m s with
          | Some (repl, n) => repl ++ re_sub_from m (n - 1) s'
          | None => String c (re_sub_from m 0 s')
          end
      end
  end.

Definition re_sub (m : string -> option (string * nat)) (s : string) : string :=
  re_sub_from m 0 s.

(** Every character of [s] satisfies [p]. *)
Fixpoint all_chars (p : ascii -> bool) (s : string) : bool :=
  match s with
  | EmptyString => true
  | String c s' => p c && all_chars p s'
  end.

(** What the scripts take from the Unicode tables of the interpreter:
    - [lower s] is [s.lower()];
    - [strip s] is [s.strip()];
    - [span_decimal s] is the longest prefix of [s] made of decimal digits,
      the greedy [\d*] of [re], and what follows it.
    The tables themselves are not part of the scripts.  What is recorded of
    them: on ASCII text [lower] and [strip] are [ascii_lower] and
    [ascii_strip]; [strip] only takes characters away, and finds nothing
    to take from its own result; [span_decimal] splits its argument, and a
    run of ASCII digits that an ASCII character other than a digit follows
    is the whole of the prefix. *)
Class Unicode : Type := {
  lower : string -> string;
  strip : string -> string;
  span_decimal : string -> string * string;
  lower_ascii : forall s, is_ascii s = true -> lower s = ascii_lower s;
  strip_ascii : forall s, is_ascii s = true -> strip s = ascii_strip s;
  strip_shorter : forall s, String.length (strip s) <= String.length s;
  strip_stripped : forall s, strip (strip s) = strip s;
  span_decimal_split : forall s, s = (fst (span_decimal s) ++ snd (span_decimal s))%string;
  span_decimal_ascii :
    forall digits c rest,
      all_chars is_digit digits = true ->
      is_ascii_char c = true -> is_digit c = false ->
      span_decimal (digits ++ String c rest) = (digits, String c rest)
}.

End PyStr.

(** ** scripts/fix_all_exams.py *)

Module FixAllExams.

Import PyStr.

(** *** Document model: the members of a question the script reads *)

(** A value of the [options] object: a string, or anything else
    ([isinstance(val, str)] is false). *)
Inductive option_value : Type :=
| OVStr (s : string)
| OVOther (j : other_json).

(** [options]: a JSON object, or an array ([isinstance(options, dict)] is
    false). *)
Inductive options_val : Type :=
| OptionsDict (d : list (string * option_value))
| OptionsList (l : list option_value).

(** [correct]: an answer string, or the label-to-answer object of a
    matching question. *)
Inductive correct_val : Type :=
| CorrectStr (s : string)
| CorrectMap (m : list (string * string)).

Record answer_part : Type := {
  ap_label : option string;
  ap_answer : option string
}.

Inductive hint : Type :=
| HintStr (s : string)
| HintOther (j : other_json).

Record Question : Type := {
  q_type : option string;
  q_question : option string;
  q_options : option options_val;
  q_correct : option correct_val;
  q_final_answer : option string;
  q_answer_parts : option (list answer_part);
  q_model_answer : option string;
  q_scaffold_text : option string;
  q_explanation : option string;
  q_hints : option (list hint)
}.

(** [question['type'] = t] *)
Definition set_type (t : string) (q : Question) : Question :=
  {| q_type := Some t; q_question := q_question q; q_options := q_options q;
     q_correct := q_correct q; q_final_answer := q_final_answer q;
     q_answer_parts := q_answer_parts q; q_model_answer := q_model_answer q;
     q_scaffold_text := q_scaffold_text q; q_explanation := q_explanation q;
     q_hints := q_hints q |}.

(** [question['correct'] = s] *)
Definition set_correct (s : string) (q : Question) : Question :=
  {| q_type := q_type q; q_question := q_question q; q_options := q_options q;
     q_correct := Some (CorrectStr s); q_final_answer := q_final_answer q;
     q_answer_parts := q_answer_parts q; q_model_answer := q_model_answer q;
     q_scaffold_text := q_scaffold_text q; q_explanation := q_explanation q;
     q_hints := q_hints q |}.

(** The writes of Fix 5: the four text members and [hints]. *)
Definition set_texts (qu ma sc ex : option string) (hs : option (list hint))
    (q : Question) : Question :=
  {| q_type := q_type q; q_question := qu; q_options := q_options q;
     q_correct := q_correct q; q_final_answer := q_final_answer q;
     q_answer_parts := q_answer_parts q; q_model_answer := ma;
     q_scaffold_text := sc; q_explanation := ex; q_hints := hs |}.

(** Truthiness of [correct]. *)
Definition correct_truthy (c : option correct_val) : bool :=
  match c with
  | Some (CorrectStr s) => truthy s
  | Some (CorrectMap m) => match m with [] => false | _ :: _ => true end
  | None => false
  end.

(** Truthiness of [options]. *)
Definition options_truthy (o : option options_val) : bool :=
  match o with
  | Some (OptionsDict d) => match d with [] => false | _ :: _ => true end
  | Some (OptionsList l) => match l with [] => false | _ :: _ => true end
  | None => false
  end.

(** [options and isinstance(options, dict)], as the items of the dict. *)
Definition options_dict (o : option options_val) : option (list (string * option_value)) :=
  match o with
  | Some (OptionsDict (kv :: d)) => Some (kv :: d)
  | _ => None
  end.

(** *** Subject sets *)

Definition LANGUAGE_SUBJECTS : list string :=
  [ "anglais"; "english"; "espagnol"; "spanish"; "español";
    "français"; "francais"; "french"; "kreyol"; "kreyòl";
    "philosophie"; "philosophy"; "philo";
    "histoire-géographie"; "histoire"; "géographie";
    "histoire et géographie"; "histoire-geographie";
    "art et musique"; "arts et musique";
    "éducation esthétique et artistique";
    "kominikasyon kreyòl"; "culture générale";
    "connaissances générales"; "éthique"; "art_musique" ].

Definition MATH_SUBJECTS : list string :=
  [ "mathématiques"; "mathematiques"; "maths"; "math";
    "physique"; "physics"; "chimie"; "chemistry";
    "svt"; "biologie"; "géologie"; "anatomie";
    "économie"; "economie";
    "informatique";
    "sciences infirmières";
    "mathématiques topographie";
    "zoologie" ].

(** *** clean_latex_for_language *)

(** [s] without its prefix [p], when it starts with [p]. *)
Fixpoint after_prefix (p s : string) : option string :=
  match p, s with
  | EmptyString, _ => Some s
  | String a p', String b s' => if Ascii.eqb a b then after_prefix p' s' else None
  | String _ _, EmptyString => None
  end.

(** The pattern [\$(\d+)\^{(th|st|nd|rd)}\$] anchored at the start of [s],
    with the value of [replace_ordinal] on the match. *)
Definition match_ordinal {U : Unicode} (s : string) : option (string * nat) :=
  match after_prefix "$" s with
  | Some s1 =>
      let '(digits, s2) := span_decimal s1 in
      if truthy digits then
        match after_prefix "^{" s2 with
        | Some (String a (String b s3)) =>
            let suffix := String a (String b EmptyString) in
            if mem suffix ["th"; "st"; "nd"; "rd"] then
              match after_prefix "}$" s3 with
              | Some _ => Some ((digits ++ suffix)%string, String.length digits + 7)
              | None => None
              end
            else None
        | _ => None
        end
      else None
  | None => None
  end.

(** The pattern [\\[a-zA-Z]+] anchored at the start of [s], replaced by
    the empty string. *)
Definition match_command (s : string) : option (string * nat) :=
  match after_prefix "\" s with
  | Some s1 =>
      let '(letters, _) := span is_alpha s1 in
      if truthy letters then Some (EmptyString, 1 + String.length letters) else None
  | None => None
  end.

Definition replace_underline {U : Unicode} (inner : string) : string :=
  let inner := replace "\;" " " (replace "\," " " (replace "\:" " " inner)) in
  let inner := replace "}" EmptyString (replace "\text{" EmptyString inner) in
  let inner := re_sub match_command inner in
  strip inner.

(** The pattern [\$\\underline\{([^}]+)\}\$] anchored at the start of [s],
    with the value of [replace_underline] on the match. *)
Definition match_underline {U : Unicode} (s : string) : option (string * nat) :=
  match after_prefix "$\underline{" s with
  | Some s1 =>
      let '(inner, s2) := span (fun c => negb (Ascii.eqb c "}"%char)) s1 in
      if truthy inner then
        match after_prefix "}$" s2 with
        | Some _ => Some (replace_underline inner, 12 + String.length inner + 2)
        | None => None
        end
      else None
  | None => None
  end.

Definition clean_latex_for_language {U : Unicode} (text subject_lower : string) : string :=
  if negb (truthy text) || negb (mem subject_lower LANGUAGE_SUBJECTS) then text
  else
    let text := re_sub match_ordinal text in
    let text := re_sub match_underline text in
    let text := replace "$\ldots$" "..." text in
    let text := replace "\ldots" "..." text in
    text.

(** *** extract_correct_from_answer_parts *)

Definition correct_option_labels : list string :=
  [ "correct option"; "option"; "correct"; "réponse correcte";
    "option correcte"; "opción correcta"; "respuesta correcta" ].

Fixpoint extract_correct_from_answer_parts_loop {U : Unicode} (l : list answer_part) : option string :=
  match l with
  | [] => None
  | ap :: l' =>
      let label := lower (or_empty (ap_label ap)) in
      let answer := strip (or_empty (ap_answer ap)) in
      if mem label correct_option_labels then Some answer
      else extract_correct_from_answer_parts_loop l'
  end.

Definition extract_correct_from_answer_parts {U : Unicode} (answer_parts : option (list answer_part))
    : option string :=
  match answer_parts with
  | None => None
  | Some l => extract_correct_from_answer_parts_loop l
  end.

(** *** fix_mcq_correct_key *)

(** [for key, val in options.items(): if isinstance(val, str) and p(val):
    ... key ...; return/break]: the key of the first item whose value is a
    string that satisfies [p]. *)
Fixpoint first_key (p : string -> bool) (items : list (string * option_value)) : option string :=
  match items with
  | [] => None
  | (key, OVStr val) :: items' => if p val then Some key else first_key p items'
  | (_, OVOther _) :: items' => first_key p items'
  end.

(** [correct.lower()]: a dict has no such method. *)
Definition correct_lower {U : Unicode} (c : correct_val) : pyresult string :=
  match c with
  | CorrectStr s => Ok (lower s)
  | CorrectMap _ => Raise AttributeError
  end.

(** The value test of the first loop. *)
Definition value_equals {U : Unicode} (c_lower : string) (val : string) : bool :=
  String.eqb (strip (lower val)) (strip c_lower).

(** The value test of the second loop. *)
Definition value_contains {U : Unicode} (c_lower : string) (val : string) : bool :=
  contains (strip c_lower) (strip (lower val)).

(** Returns the function's result with the question as it has been
    left. *)
Definition fix_mcq_correct_key {U : Unicode} (question : Question) : pyresult (bool * Question) :=
  match q_correct question, options_dict (q_options question) with
  | Some correct, Some items =>
      if negb (correct_truthy (Some correct)) then Ok (false, question)
      else
        c_lower <- correct_lower correct ;;
        if mem c_lower (map (fun kv => lower (fst kv)) items) then Ok (false, question)
        else
          match first_key (value_equals c_lower) items with
          | Some key => Ok (true, set_correct key question)
          | None =>
              match first_key (value_contains c_lower) items with
              | Some key => Ok (true, set_correct key question)
              | None => Ok (false, question)
              end
          end
  | _, _ => Ok (false, question)
  end.

(** *** fix_question *)

Definition type_is (qtype t : string) : bool := String.eqb qtype t.

(** Fix 0: a question without a type gets one; the result is the
    question and the local [qtype]. *)
Definition fix_type {U : Unicode} (question : Question) : Question * string :=
  match q_type question with
  | Some t => (question, t)
  | None =>
      let qtext := lower (or_empty (q_question question)) in
      let t :=
        if options_truthy (q_options question) then "multiple_choice"
        else if contains "dissertation" qtext || contains "rédiger" qtext
                || contains "write" qtext then "essay"
        else "short_answer" in
      (set_type t question, t)
  end.

Definition option_keys : list string := ["a"; "b"; "c"; "d"; "e"; "f"].

(** [len(fa_lower) >= 1 and fa_lower[0] in 'abcdef' and
    (len(fa_lower) == 1 or fa_lower[1] in '.):, ')] *)
Definition starts_with_key (fa_lower : string) : bool :=
  match fa_lower with
  | EmptyString => false
  | String c0 rest =>
      char_in c0 "abcdef" &&
      match rest with
      | EmptyString => true
      | String c1 _ => char_in c1 ".):, "
      end
  end.

(** [fa_lower[0]] *)
Definition first_char (s : string) : string :=
  match s with
  | EmptyString => EmptyString
  | String c _ => String c EmptyString
  end.

(** The value test of the loop over the options in Fix 1. *)
Definition value_is_final {U : Unicode} (fa_lower : string) (val : string) : bool :=
  String.eqb (strip (lower val)) fa_lower || String.eqb fa_lower (strip (lower val)).

(** Fix 1, first half: [correct] from [final_answer]. *)
Definition mcq_from_final_answer {U : Unicode} (final_answer : string) (question : Question) : Question :=
  if truthy final_answer then
    let fa_lower := strip (lower final_answer) in
    if mem fa_lower option_keys then set_correct fa_lower question
    else if starts_with_key fa_lower then set_correct (first_char fa_lower) question
    else
      match options_dict (q_options question) with
      | Some items =>
          match first_key (value_is_final fa_lower) items with
          | Some key => set_correct key question
          | None => question
          end
      | None => question
      end
  else question.

(** Fix 1, second half: [correct] from [answer_parts]. *)
Definition mcq_from_answer_parts {U : Unicode} (answer_parts : option (list answer_part))
    (question : Question) : Question :=
  if negb (correct_truthy (q_correct question)) then
    match extract_correct_from_answer_parts answer_parts with
    | Some extracted =>
        if truthy extracted then
          let ext_lower := strip (lower extracted) in
          if mem ext_lower option_keys then set_correct ext_lower question
          else
            match options_dict (q_options question) with
            | Some items =>
                match first_key (fun val => String.eqb (strip (lower val)) ext_lower) items with
                | Some key => set_correct key question
                | None => question
                end
            | None => question
            end
        else question
    | None => question
    end
  else question.

(** Fix 1: MCQ missing [correct].  [qtype], [correct], [final_answer] and
    [answer_parts] are the locals of [fix_question]. *)
Definition fix_mcq_missing_correct {U : Unicode} (qtype : string) (correct : option correct_val)
    (final_answer : string) (answer_parts : option (list answer_part))
    (question : Question) : Question :=
  if type_is qtype "multiple_choice" && negb (correct_truthy correct)
  then mcq_from_answer_parts answer_parts (mcq_from_final_answer final_answer question)
  else question.

(** Fix 2: MCQ whose [correct] is the answer text, not the key. *)
Definition fix_mcq_text_as_key {U : Unicode} (qtype : string) (question : Question) : pyresult Question :=
  if type_is qtype "multiple_choice" && correct_truthy (q_correct question)
  then r <- fix_mcq_correct_key question ;; Ok (snd r)
  else Ok question.

Definition skip_values : list string :=
  [ "cannot be determined"; "incomplete question"; "n/a"; EmptyString;
    "no model answer available"; "cannot be determined from provided text" ].

(** The loop of Fix 3 over [answer_parts]. *)
Fixpoint first_answer {U : Unicode} (l : list answer_part) : option string :=
  match l with
  | [] => None
  | ap :: l' =>
      let ans := strip (or_empty (ap_answer ap)) in
      if truthy ans && negb (mem (lower ans) skip_values) then Some ans
      else first_answer l'
  end.

(** Fix 3: fill-blank missing [correct]. *)
Definition fix_fill_blank_missing_correct {U : Unicode} (qtype : string) (correct : option correct_val)
    (final_answer : string) (answer_parts : option (list answer_part))
    (question : Question) : Question :=
  if type_is qtype "fill_blank" && negb (correct_truthy correct) then
    if truthy final_answer && negb (mem (strip (lower final_answer)) skip_values)
    then set_correct final_answer question
    else
      match answer_parts with
      | Some l =>
          match first_answer l with
          | Some ans => set_correct ans question
          | None => question
          end
      | None => question
      end
  else question.

(** Fix 4: true/false missing [correct]. *)
Definition fix_true_false_missing_correct {U : Unicode} (qtype : string) (correct : option correct_val)
    (final_answer : string) (question : Question) : Question :=
  if type_is qtype "true_false" && negb (correct_truthy correct) then
    if truthy final_answer then
      let fa_lower := strip (lower final_answer) in
      if mem fa_lower ["vrai"; "faux"; "true"; "false"; "v"; "f"]
      then set_correct fa_lower question
      else if contains "vrai" fa_lower then set_correct "vrai" question
      else if contains "faux" fa_lower then set_correct "faux" question
      else question
    else question
  else question.

(** One text member under Fix 5. *)
Definition clean_member {U : Unicode} (subject_lower : string) (val : option string) : option string :=
  match val with
  | Some v => if truthy v then Some (clean_latex_for_language v subject_lower) else val
  | None => None
  end.

Definition clean_hint {U : Unicode} (subject_lower : string) (h : hint) : hint :=
  match h with
  | HintStr s => HintStr (clean_latex_for_language s subject_lower)
  | HintOther j => HintOther j
  end.

Definition clean_hints {U : Unicode} (subject_lower : string) (hints : option (list hint))
    : option (list hint) :=
  match hints with
  | Some (h :: l) => Some (map (clean_hint subject_lower) (h :: l))
  | _ => hints
  end.

(** Fix 5: markup cleanup in language exams. *)
Definition fix_latex {U : Unicode} (subject_lower : string) (question : Question) : Question :=
  if mem subject_lower LANGUAGE_SUBJECTS then
    set_texts (clean_member subject_lower (q_question question))
              (clean_member subject_lower (q_model_answer question))
              (clean_member subject_lower (q_scaffold_text question))
              (clean_member subject_lower (q_explanation question))
              (clean_hints subject_lower (q_hints question))
              question
  else question.

(** [fix_question(question, subject_lower)].  Fix 6 of the source changes
    nothing. *)
Definition fix_question {U : Unicode} (question : Question) (subject_lower : string) : pyresult Question :=
  let correct := q_correct question in
  let final_answer := strip (or_empty (q_final_answer question)) in
  let answer_parts := q_answer_parts question in
  let '(question, qtype) := fix_type question in
  let question := fix_mcq_missing_correct qtype correct final_answer answer_parts question in
  question <- fix_mcq_text_as_key qtype question ;;
  let question := fix_fill_blank_missing_correct qtype correct final_answer answer_parts question in
  let question := fix_true_false_missing_correct qtype correct final_answer question in
  Ok (fix_latex subject_lower question).

(** [main], line 295: the subject handed to [fix_question] for every
    question of an exam, [(exam.get('subject') or '').lower().strip()]. *)
Definition exam_subject {U : Unicode} (subject : option string) : string :=
  strip (lower (or_empty subject)).

End FixAllExams.

(** ** scripts/fix_exam_structure.py *)

Module FixExamStructure.

Import PyStr.

Definition Question : Type := FixAllExams.Question.

(** *** Document model: the members of a section and of an exam the script
    reads *)

Record Section : Type := {
  section_title : option string;
  instructions : option string;
  questions : option (list Question)
}.

Record Exam : Type := {
  exam_title : option string;
  level : option string;
  subject : option string;
  year : option string;
  sections : field (list Section)
}.

(** [sec["section_title"] = t] *)
Definition set_section_title (t : option string) (sec : Section) : Section :=
  {| section_title := t; instructions := instructions sec; questions := questions sec |}.

(** [sec["instructions"] = s] *)
Definition set_instructions (s : string) (sec : Section) : Section :=
  {| section_title := section_title sec; instructions := Some s; questions := questions sec |}.

(** [exam["sections"] = l] *)
Definition set_sections (l : list Section) (exam : Exam) : Exam :=
  {| exam_title := exam_title exam; level := level exam; subject := subject exam;
     year := year exam; sections := Present l |}.

(** [sec.get("questions") or []] *)
Definition questions_or_empty (sec : Section) : list Question :=
  match questions sec with
  | Some qs => qs
  | None => []
  end.

(** [exam.get("sections") or []] *)
Definition sections_or_empty (exam : Exam) : list Section :=
  match get (sections exam) with
  | Some l => l
  | None => []
  end.

(** *** The restructuring plan *)

Record plan_entry : Type := {
  original_indices : field (list Z);
  new_title : field string;
  new_instructions : option string;
  merge_strategy : field string
}.

(** The [analysis] member of a plan: the text the prompt asks for, or
    whatever other JSON value the reply holds there. *)
Inductive analysis_val : Type :=
| AnalysisStr (s : string)
| AnalysisArray
| AnalysisNumber
| AnalysisBool (b : bool)
| AnalysisObject.

Record Plan : Type := {
  analysis : field analysis_val;
  split_recommended : option bool;
  section_plan : option (list plan_entry)
}.

(** *** count_questions *)

Definition count_sections (l : list Section) : nat :=
  fold_left (fun total sec => total + List.length (questions_or_empty sec)) l 0.

Definition count_questions (exam : Exam) : nat :=
  count_sections (sections_or_empty exam).

(** *** simple_fix *)

(** Lines 83-92: the empty section [sec] hands its instructions, and its
    title if the next section has none, to [next_sec]. *)
Definition merge_into_next (sec next_sec : Section) : Section :=
  let title := section_title sec in
  let existing := or_empty (instructions next_sec) in
  let preamble := or_empty (instructions sec) in
  let next_sec :=
    if truthy existing
    then set_instructions (preamble ++ blank_line ++ existing) next_sec
    else set_instructions preamble next_sec in
  if negb (otruthy (section_title next_sec)) && otruthy title
  then set_section_title title next_sec
  else next_sec.

(** [f"Section {idx + 1}"] *)
Definition placeholder_title (idx : nat) : string := "Section " ++ of_nat (idx + 1).

(** The loop of [simple_fix] from position [idx] on: [sec] is
    [sections[idx]] as the iteration finds it, that is after the update the
    previous iteration may have made to it in place, and [rest] is
    [sections[idx+1:]].  The result is what the loop appends to [fixed]. *)
Fixpoint simple_fix_loop (idx : nat) (sec : Section) (rest : list Section) : list Section :=
  let title := section_title sec in
  match questions_or_empty sec with
  | [] =>
      match rest with
      | [] => []
      | next_sec :: rest' =>
          let next_sec :=
            if otruthy (instructions sec) then merge_into_next sec next_sec else next_sec in
          simple_fix_loop (S idx) next_sec rest'
      end
  | _ :: _ =>
      let sec :=
        match title with
        | None => set_section_title (Some (placeholder_title idx)) sec
        | Some _ => sec
        end in
      sec :: match rest with
             | [] => []
             | next_sec :: rest' => simple_fix_loop (S idx) next_sec rest'
             end
  end.

Definition simple_fix_sections (l : list Section) : list Section :=
  match l with
  | [] => []
  | sec :: rest => simple_fix_loop 0 sec rest
  end.

Definition simple_fix (exam : Exam) : Exam :=
  set_sections (simple_fix_sections (sections_or_empty exam)) exam.

(** *** apply_gemini_plan *)

(** [l[idx]], with Python's negative indices. *)
Definition getitem {A : Type} (l : list A) (idx : Z) : pyresult A :=
  let n := Z.of_nat (List.length l) in
  let i := if (idx <? 0)%Z then (idx + n)%Z else idx in
  if (i <? 0)%Z then Raise IndexError
  else
    match nth_error l (Z.to_nat i) with
    | Some a => Ok a
    | None => Raise IndexError
    end.

(** [idx < len(original_sections)]: [len(None)] raises. *)
Definition index_below_len (original_sections : option (list Section)) (idx : Z)
    : pyresult bool :=
  match original_sections with
  | Some l => Ok (idx <? Z.of_nat (List.length l))%Z
  | None => Raise TypeError
  end.

(** [original_sections[idx]] under the guard [idx < len(original_sections)]:
    [None] when the guard is false. *)
Definition guarded_section (original_sections : option (list Section)) (idx : Z)
    : pyresult (option Section) :=
  below <- index_below_len original_sections idx ;;
  if below
  then
    match original_sections with
    | Some l => orig <- getitem l idx ;; Ok (Some orig)
    | None => Raise TypeError
    end
  else Ok None.

(** One iteration of the loop of lines 239-250 on the last new section. *)
Definition merge_one (orig target : Section) : Section :=
  let qs := questions_or_empty orig in
  let target :=
    {| section_title := section_title target;
       instructions := instructions target;
       questions := Some (questions_or_empty target ++ qs) |} in
  if otruthy (instructions orig) then
    let existing := or_empty (instructions target) in
    if truthy existing
    then set_instructions (existing ++ blank_line ++ or_empty (instructions orig)) target
    else set_instructions (or_empty (instructions orig)) target
  else target.

(** Lines 239-250: [target] is [new_sections[-1]]. *)
Fixpoint merge_indices (original_sections : option (list Section)) (indices : list Z)
    (target : Section) : pyresult Section :=
  match indices with
  | [] => Ok target
  | idx :: indices' =>
      o <- guarded_section original_sections idx ;;
      match o with
      | Some orig => merge_indices original_sections indices' (merge_one orig target)
      | None => merge_indices original_sections indices' target
      end
  end.

(** Lines 257-263: the state is [(all_questions, combined_instructions)]. *)
Fixpoint collect_indices (original_sections : option (list Section)) (indices : list Z)
    (acc : list Question * list string) : pyresult (list Question * list string) :=
  match indices with
  | [] => Ok acc
  | idx :: indices' =>
      o <- guarded_section original_sections idx ;;
      match o with
      | Some orig =>
          let all_questions := fst acc ++ questions_or_empty orig in
          let combined_instructions :=
            if otruthy (instructions orig)
            then snd acc ++ [or_empty (instructions orig)]
            else snd acc in
          collect_indices original_sections indices' (all_questions, combined_instructions)
      | None => collect_indices original_sections indices' acc
      end
  end.

(** Lines 266-278. *)
Definition build_section (new_title : option string) (new_instructions : option string)
    (all_questions : list Question) (combined_instructions : list string) : Section :=
  let final_instructions :=
    match combined_instructions with
    | [] => new_instructions
    | _ :: _ =>
        let orig_inst := join blank_line combined_instructions in
        if otruthy new_instructions
        then Some (or_empty new_instructions ++ blank_line ++ orig_inst)%string
        else Some orig_inst
    end in
  {| section_title := new_title;
     instructions := final_instructions;
     questions := Some all_questions |}.

(** [for idx in indices]: a null [original_indices] cannot be iterated. *)
Definition entry_indices (entry : plan_entry) : pyresult (list Z) :=
  match get_default [] (original_indices entry) with
  | Some l => Ok l
  | None => Raise TypeError
  end.

(** [strategy == "merge_into_previous"] *)
Definition is_merge (entry : plan_entry) : bool :=
  match get_default "keep" (merge_strategy entry) with
  | Some strategy => String.eqb strategy "merge_into_previous"
  | None => false
  end.

(** The body of the loop over [section_plan]: [new_sections] before and
    after the entry. *)
Definition apply_entry (original_sections : option (list Section)) (entry : plan_entry)
    (new_sections : list Section) : pyresult (list Section) :=
  indices <- entry_indices entry ;;
  let new_title := get_default "Section" (new_title entry) in
  match is_merge entry, rev new_sections with
  | true, target :: before =>
      target <- merge_indices original_sections indices target ;;
      Ok (rev before ++ [target])
  | _, _ =>
      acc <- collect_indices original_sections indices ([], []) ;;
      Ok (new_sections ++ [build_section new_title (new_instructions entry) (fst acc) (snd acc)])
  end.

Fixpoint apply_entries (original_sections : option (list Section)) (entries : list plan_entry)
    (new_sections : list Section) : pyresult (list Section) :=
  match entries with
  | [] => Ok new_sections
  | entry :: entries' =>
      new_sections <- apply_entry original_sections entry new_sections ;;
      apply_entries original_sections entries' new_sections
  end.

Definition apply_gemini_plan (exam : Exam) (plan : Plan) : pyresult Exam :=
  let original_sections := get_default [] (sections exam) in
  match section_plan plan with
  | None | Some [] => Ok exam
  | Some entries =>
      new_sections <- apply_entries original_sections entries [] ;;
      Ok (set_sections new_sections exam)
  end.

(** *** main, phase 2: one exam *)

(** What the oracle round trip of lines 348-370 produced. *)
Inductive oracle_outcome : Type :=
| EmptyResponse
| Unparseable
| Parsed (plan : Plan)
| Failed (e : pyexc).

(** [len(restructured.get("sections", []))] *)
Definition len_sections (exam : Exam) : pyresult nat :=
  match get_default [] (sections exam) with
  | Some l => Ok (List.length l)
  | None => Raise TypeError
  end.

(** [analysis[:100]], line 375: a string and an array can be sliced; null,
    a number and a boolean cannot, nor can an object (for which the
    exception is KeyError from Python 3.12 on; [main] catches every
    exception alike). *)
Definition analysis_preview (analysis : option analysis_val) : pyresult unit :=
  match analysis with
  | Some (AnalysisStr _) | Some AnalysisArray => Ok tt
  | _ => Raise TypeError
  end.

(** Lines 372-390, inside the [try]. *)
Definition accept_plan (exam : Exam) (n_questions : nat) (plan : Plan) : pyresult Exam :=
  let analysis := get_default (AnalysisStr "No analysis") (analysis plan) in
  printed <- analysis_preview analysis ;;
  restructured <- apply_gemini_plan exam plan ;;
  let new_q := count_questions restructured in
  new_secs <- len_sections restructured ;;
  if negb (new_q =? n_questions)%nat then Ok (simple_fix exam)
  else Ok restructured.

(** The value stored in [exams[i]] by one iteration of the phase-2 loop.
    [Parsed plan] is a reply that parses to a JSON object; any other reply
    that parses makes [plan.get] raise inside the [try], which is
    [Failed]. *)
Definition restructure_exam (exam : Exam) (outcome : oracle_outcome) : Exam :=
  let n_questions := count_questions exam in
  match outcome with
  | EmptyResponse => simple_fix exam
  | Unparseable => simple_fix exam
  | Failed _ => simple_fix exam
  | Parsed plan =>
      match accept_plan exam n_questions plan with
      | Ok stored => stored
      | Raise _ => simple_fix exam
      end
  end.

End FixExamStructure.

(** ** Vocabulary of the specification *)

Module Spec.

Import PyStr FixExamStructure.

(** A section holds at least one question. *)
Definition has_questions (sec : Section) : bool :=
  match questions_or_empty sec with
  | [] => false
  | _ :: _ => true
  end.

(** A section the deterministic repairer has nothing to do on. *)
Definition repaired (sec : Section) : Prop :=
  has_questions sec = true /\ section_title sec <> None.

(** The sections of an exam as the deterministic repairer finds them when
    it reaches them, one after the other: a section without questions and
    with non-empty instructions has handed them, and its title if need be,
    to the section that follows it.  [sec] is the first section as it is
    found, [rest] the sections after it as they are in the exam. *)
Fixpoint carried_from (sec : Section) (rest : list Section) : list Section :=
  sec :: match rest with
         | [] => []
         | next_sec :: rest' =>
             carried_from
               (if negb (has_questions sec) && otruthy (instructions sec)
                then merge_into_next sec next_sec else next_sec)
               rest'
         end.

Definition carried (l : list Section) : list Section :=
  match l with
  | [] => []
  | sec :: rest => carried_from sec rest
  end.

(** The section at the 0-based position [idx] with its title, or with
    the placeholder of that position when its title is null. *)
Definition titled (idx : nat) (sec : Section) : Section :=
  match section_title sec with
  | Some _ => sec
  | None =>
      {| section_title := Some ("Section " ++ of_nat (idx + 1))%string;
         instructions := instructions sec;
         questions := questions sec |}
  end.

(** The sections of [l] that hold a question, each titled by its
    position, [idx] being the position of the first section of [l]. *)
Fixpoint placed (idx : nat) (l : list Section) : list Section :=
  match l with
  | [] => []
  | sec :: l' =>
      if has_questions sec then titled idx sec :: placed (S idx) l'
      else placed (S idx) l'
  end.

(** How many of the first [k] sections of [l] hold a question. *)
Definition survivors_before (k : nat) (l : list Section) : nat :=
  List.length (filter has_questions (firstn k l)).

(** [main] can print the analysis note of the plan. *)
Definition analysis_printable (plan : Plan) : bool :=
  match analysis_preview (get_default (AnalysisStr "No analysis") (analysis plan)) with
  | Ok _ => true
  | Raise _ => false
  end.

(** A plan entry without the indices that are not below [n]. *)
Definition drop_out_of_range (n : nat) (entry : plan_entry) : plan_entry :=
  {| original_indices :=
       match original_indices entry with
       | Present l => Present (filter (fun idx => (idx <? Z.of_nat n)%Z) l)
       | f => f
       end;
     new_title := new_title entry;
     new_instructions := new_instructions entry;
     merge_strategy := merge_strategy entry |}.

Definition prune_plan (n : nat) (plan : Plan) : Plan :=
  {| analysis := analysis plan;
     split_recommended := split_recommended plan;
     section_plan := option_map (map (drop_out_of_range n)) (section_plan plan) |}.

(** The indices an entry lists; a null [original_indices] lists none. *)
Definition indices_of (entry : plan_entry) : list Z :=
  match get_default [] (original_indices entry) with
  | Some l => l
  | None => []
  end.

(** Every [original_indices] of the plan is a list. *)
Definition indices_iterable (plan : Plan) : bool :=
  match section_plan plan with
  | Some entries =>
      forallb (fun entry => match get_default [] (original_indices entry) with
                            | Some _ => true
                            | None => false
                            end) entries
  | None => true
  end.

(** All the indices of the plan, entry after entry. *)
Definition plan_indices (plan : Plan) : list Z :=
  match section_plan plan with
  | Some entries => flat_map indices_of entries
  | None => []
  end.

(** The condition of the specification on a plan for an exam of
    [section_count] sections: every index of [0, section_count) appears in
    exactly one entry (and once there), and no other index appears. *)
Definition plan_partitions (section_count : nat) (plan : Plan) : bool :=
  indices_iterable plan
  && forallb (fun i => (count_occ Z.eq_dec (plan_indices plan) (Z.of_nat i) =? 1)%nat)
       (seq 0 section_count)
  && forallb (fun idx => (0 <=? idx)%Z && (idx <? Z.of_nat section_count)%Z)
       (plan_indices plan).

(** The number of questions of the section at position [idx] (zero when
    there is none). *)
Definition questions_at (secs : list Section) (idx : Z) : nat :=
  match nth_error secs (Z.to_nat idx) with
  | Some sec => List.length (questions_or_empty sec)
  | None => 0
  end.

(** [idx] is a position of a list of [n] sections. *)
Definition in_range (n : nat) (idx : Z) : Prop := (0 <= idx < Z.of_nat n)%Z.

(** A character that opens neither a math delimiter nor a command. *)
Definition plain_char (c : ascii) : bool :=
  negb (Ascii.eqb c "$"%char) && negb (Ascii.eqb c "\"%char).

(** Text without markup. *)
Definition plain (s : string) : bool := all_chars plain_char s.

(** A non-empty run of decimal digits. *)
Definition numeral (s : string) : bool := truthy s && all_chars is_digit s.

Definition ordinal_suffixes : list string := ["th"; "st"; "nd"; "rd"].

(** The ordinal markup [$N^{suffix}$]. *)
Definition ordinal_markup (digits suffix : string) : string :=
  "$" ++ digits ++ "^{" ++ suffix ++ "}$".

(** The value [val] of an option is the text [correct], letter case and
    surrounding blanks aside. *)
Definition exact_match {U : Unicode} (correct val : string) : bool :=
  String.eqb (strip (lower val)) (strip (lower correct)).

(** The text [correct] occurs in the value [val] of an option, letter case
    and surrounding blanks aside. *)
Definition substring_match {U : Unicode} (correct val : string) : bool :=
  contains (strip (lower correct)) (strip (lower val)).

(** No string value among [items] satisfies [p]. *)
Definition no_value (p : string -> bool) (items : list (string * FixAllExams.option_value))
    : Prop :=
  forall key val, In (key, FixAllExams.OVStr val) items -> p val = false.

(** [key] is the first key of [items], in iteration order, whose value is
    a string that satisfies [p]. *)
Definition first_match (p : string -> bool) (items : list (string * FixAllExams.option_value))
    (key : string) : Prop :=
  exists before val after,
    items = before ++ (key, FixAllExams.OVStr val) :: after
    /\ p val = true
    /\ no_value p before.

(** [correct] is, letter case aside, a key of [items]. *)
Definition is_key {U : Unicode} (correct : string) (items : list (string * FixAllExams.option_value))
    : bool :=
  mem (lower correct) (map (fun kv => lower (fst kv)) items).

(** The text starts with a letter of a..f followed by one of the
    separators. *)
Definition key_then_separator (s : string) : bool :=
  match s with
  | String c0 (String c1 _) => char_in c0 "abcdef" && char_in c1 ".):, "
  | _ => false
  end.

(** The types for which [fix_question] infers a missing [correct]. *)
Definition inferred_types : list string :=
  ["multiple_choice"; "fill_blank"; "true_false"].

End Spec.

(** ** Sample documents *)

Module Samples.

Import FixAllExams FixExamStructure.

Definition question_with (t : option string) (opts : option options_val)
    (c : option correct_val) (fa : option string) : FixAllExams.Question :=
  {| q_type := t; q_question := None; q_options := opts; q_correct := c;
     q_final_answer := fa; q_answer_parts := None; q_model_answer := None;
     q_scaffold_text := None; q_explanation := None; q_hints := None |}.

Definition colour_options : options_val :=
  OptionsDict [("a", OVStr "Colour"); ("b", OVStr "Colour");
               ("c", OVStr "Color"); ("d", OVStr "Colours")].

(** The MCQ of the specification's scenario. *)
Definition colour_question : FixAllExams.Question :=
  question_with (Some "multiple_choice") (Some colour_options) None (Some "Color").

Definition section_with (t i : option string) (qs : list FixAllExams.Question) : Section :=
  {| section_title := t; instructions := i; questions := Some qs |}.

Definition exam_with (l : list Section) : Exam :=
  {| exam_title := Some "Examen"; level := None; subject := Some "Français";
     year := None; sections := Present l |}.

(** The specification's scenario for the deterministic repairer, followed
    by a section without a title. *)
Definition consignes_exam : Exam :=
  exam_with
    [ section_with (Some "Consignes") (Some "Consignes générales") [];
      section_with (Some "I. Texte") (Some "Lisez le texte.") [colour_question];
      section_with None None [colour_question] ].

(** Sections without a title around a section without questions. *)
Definition untitled_exam : Exam :=
  exam_with
    [ section_with None None [colour_question];
      section_with None (Some "Lisez le texte.") [colour_question];
      section_with None None [];
      section_with None None [colour_question];
      section_with (Some "V") None [colour_question] ].

(** An exam whose second section is empty, and three plans for it: one
    that leaves index 1 out, one that lists index 1 twice and an index out
    of range, one that covers both indices once. *)
Definition two_section_exam : Exam :=
  exam_with
    [ section_with (Some "I") None [colour_question];
      section_with (Some "II") None [] ].

Definition entry_with (l : list Z) (t : string) (strategy : string) : plan_entry :=
  {| original_indices := Present l; new_title := Present t;
     new_instructions := None; merge_strategy := Present strategy |}.

Definition plan_with (entries : list plan_entry) : Plan :=
  {| analysis := Present (AnalysisStr "Titres"); split_recommended := Some false;
     section_plan := Some entries |}.

Definition plan_missing_index : Plan :=
  plan_with [entry_with [0%Z] "Partie A" "keep"].

Definition plan_repeated_index : Plan :=
  plan_with [entry_with [0%Z; 1%Z] "Partie A" "keep";
             entry_with [1%Z; 7%Z] "Partie B" "merge_into_previous"].

Definition plan_covering : Plan :=
  plan_with [entry_with [0%Z] "Partie A" "rename_only";
             entry_with [1%Z] "Partie B" "merge_into_previous"].

(** What the applier makes of [two_section_exam] under each of the three
    plans. *)
Definition two_section_exam_restructured : Exam :=
  exam_with [ section_with (Some "Partie A") None [colour_question] ].

(** Options in which a substring match comes before the exact ones. *)
Definition plural_first_options : options_val :=
  OptionsDict [("a", OVStr "Colours"); ("b", OVStr "Colour"); ("c", OVStr " colour ")].

(** An MCQ whose [correct] holds the text of options b and c. *)
Definition text_as_key_question : FixAllExams.Question :=
  question_with (Some "multiple_choice") (Some plural_first_options)
    (Some (CorrectStr "COLOUR")) None.

(** An MCQ whose [correct] is part of the text of options a, b and c and
    the whole text of none. *)
Definition part_of_text_question : FixAllExams.Question :=
  question_with (Some "multiple_choice") (Some plural_first_options)
    (Some (CorrectStr "Lou")) None.

(** An MCQ whose [final_answer] is part of the text of option a and the
    whole text of none. *)
Definition partial_answer_question : FixAllExams.Question :=
  question_with (Some "multiple_choice") (Some colour_options) None (Some "Colou").

(** A matching question with its label-to-answer object and a
    [final_answer]. *)
Definition matching_question : FixAllExams.Question :=
  {| q_type := Some "matching"; q_question := Some "Associez $\ldots$";
     q_options := None; q_correct := Some (CorrectMap [("1", "b"); ("2", "a")]);
     q_final_answer := Some "a";
     q_answer_parts := Some [ {| ap_label := Some "correct"; ap_answer := Some "b" |} ];
     q_model_answer := None; q_scaffold_text := None; q_explanation := None;
     q_hints := None |}.

(** The specification's scenario for the plan applier: three sections
    of one title, merged by a plan of one entry. *)
Definition duplicate_titles_exam : Exam :=
  exam_with
    [ section_with (Some "II. Compétence linguistique") (Some "A.") [colour_question];
      section_with (Some "II. Compétence linguistique") None
        [partial_answer_question; colour_question];
      section_with (Some "II. Compétence linguistique") (Some "C.") [matching_question] ].

Definition merge_all_plan : Plan :=
  plan_with
    [ {| original_indices := Present [0%Z; 1%Z; 2%Z];
         new_title := Present "II. Compétence linguistique";
         new_instructions := Some "Parties A, B, C.";
         merge_strategy := Absent |} ].

End Samples.

(** ** scripts/fix_exam_structure.py: classifier, main loop, oracle call *)

Module Classifier.

Import PyStr FixExamStructure.

(** [len(s)]: the number of characters, a character of the UTF-8 text
    being one byte that is not a continuation byte (128 to 191). *)
Fixpoint len (s : string) : nat :=
  match s with
  | EmptyString => 0
  | String c s' =>
      let n := nat_of_ascii c in
      if (128 <=? n)%nat && (n <=? 191)%nat then len s' else S (len s')
  end.

Inductive issue : Type :=
| too_many
| null_titles
| long_titles
| duplicate_titles
| bare_labels
| empty_sections.

Definition issue_eqb (a b : issue) : bool :=
  match a, b with
  | too_many, too_many
  | null_titles, null_titles
  | long_titles, long_titles
  | duplicate_titles, duplicate_titles
  | bare_labels, bare_labels
  | empty_sections, empty_sections => true
  | _, _ => false
  end.

(** [if cond: issues.add(tag)] on the set as a list in insertion order. *)
Definition add_if (cond : bool) (tag : issue) (issues : list issue) : list issue :=
  if cond then issues ++ [tag] else issues.

Definition bare_label_list : list string :=
  [ "I"; "II"; "III"; "IV"; "V"; "VI"; "A"; "B"; "C"; "D"; "E"; "F";
    "1"; "2"; "3"; "4"; "5"; "6"; "7"; "8"; "9"; "10" ].

(** [s.get("section_title") is None] *)
Definition title_is_none (sec : Section) : bool :=
  match section_title sec with
  | None => true
  | Some _ => false
  end.

(** [s.get("section_title") and len(s["section_title"]) > 80] *)
Definition title_is_long (sec : Section) : bool :=
  match section_title sec with
  | Some t => truthy t && (80 <? len t)%nat
  | None => false
  end.

(** [[s.get("section_title") for s in sections if s.get("section_title")]] *)
Fixpoint titles_of (sections : list Section) : list string :=
  match sections with
  | [] => []
  | sec :: sections' =>
      match section_title sec with
      | Some t => if truthy t then t :: titles_of sections' else titles_of sections'
      | None => titles_of sections'
      end
  end.

(** [len(titles) != len(set(titles))] *)
Definition has_duplicates (titles : list string) : bool :=
  negb (List.length titles =? List.length (nodup string_dec titles))%nat.

(** [t and t.strip() in [...]] *)
Definition is_bare {U : Unicode} (t : string) : bool := truthy t && mem (strip t) bare_label_list.

(** [not (s.get("questions") or [])] *)
Definition no_questions (sec : Section) : bool :=
  match questions_or_empty sec with
  | [] => true
  | _ :: _ => false
  end.

(** [classify_exam(i, exam)]; the index [i] is not used by the source
    either. *)
Definition classify_exam {U : Unicode} (i : nat) (exam : Exam) : list issue :=
  let sections := sections_or_empty exam in
  let issues := [] in
  let issues := add_if (10 <? List.length sections)%nat too_many issues in
  let issues := add_if (existsb title_is_none sections) null_titles issues in
  let issues := add_if (existsb title_is_long sections) long_titles issues in
  let titles := titles_of sections in
  let issues := add_if (has_duplicates titles) duplicate_titles issues in
  let bare := filter is_bare titles in
  let issues := add_if (match bare with [] => false | _ :: _ => true end) bare_labels issues in
  let issues := add_if (existsb no_questions sections) empty_sections issues in
  issues.

(** *** main: classification into ok, simple and oracle-backed *)

Inductive route : Type :=
| RouteOk
| RouteGemini
| RouteSimple.

Definition gemini_issues : list issue :=
  [too_many; duplicate_titles; bare_labels; long_titles].

(** Lines 309-314. *)
Definition route_of (issues : list issue) : route :=
  match issues with
  | [] => RouteOk
  | _ :: _ =>
      if existsb (fun tag => existsb (issue_eqb tag) gemini_issues) issues
      then RouteGemini
      else RouteSimple
  end.

(** What phases 1 and 2 leave in [exams[i]]; [outcome] is the oracle
    round trip for this exam, made only on the oracle-backed route. *)
Definition main_exam {U : Unicode} (i : nat) (exam : Exam) (outcome : oracle_outcome) : Exam :=
  match route_of (classify_exam i exam) with
  | RouteOk => exam
  | RouteSimple => simple_fix exam
  | RouteGemini => restructure_exam exam outcome
  end.

Fixpoint main_exams_from {U : Unicode} (i : nat) (exams : list Exam) (oracle : nat -> oracle_outcome)
    : list Exam :=
  match exams with
  | [] => []
  | exam :: exams' => main_exam i exam (oracle i) :: main_exams_from (S i) exams' oracle
  end.

(** The list [exams] as [main] saves it. *)
Definition main_exams {U : Unicode} (exams : list Exam) (oracle : nat -> oracle_outcome) : list Exam :=
  main_exams_from 0 exams oracle.

(** Phase 3: [total_orig], [null_titles_remaining] and
    [empty_sections_remaining]. *)
Definition total_questions (exams : list Exam) : nat :=
  list_sum (map count_questions exams).

Definition null_titles_remaining (exams : list Exam) : nat :=
  list_sum (map (fun e => List.length (filter title_is_none (sections_or_empty e))) exams).

Definition empty_sections_remaining (exams : list Exam) : nat :=
  list_sum (map (fun e => List.length (filter no_questions (sections_or_empty e))) exams).

End Classifier.

Module Oracle.

(** What one POST of [call_gemini] meets: status 429; an exception
    (raised by the request, by [raise_for_status] or while the text is
    taken out of the reply); or the text of the first candidate. *)
Inductive http_outcome : Type :=
| RateLimited
| Failure (e : string)
| Reply (text : string).

Inductive call_result : Type :=
| Returned (text : option string)
| Raised (e : string).

Inductive event : Type :=
| Posted
| Slept (seconds : nat).

(** The loop [for attempt in range(max_retries)] from [attempt] on, with
    [remaining] iterations left; [responses k] is what the POST of
    iteration [k] meets.  The result comes with the requests made and the
    waits taken, in order. *)
Fixpoint call_gemini_from (responses : nat -> http_outcome) (max_retries attempt remaining : nat)
    : list event * call_result :=
  match remaining with
  | O => ([], Returned None)
  | S remaining' =>
      match responses attempt with
      | RateLimited =>
          let wait := Nat.min 60 (2 ^ (attempt + 2)) in
          let '(trace, result) :=
            call_gemini_from responses max_retries (S attempt) remaining' in
          (Posted :: Slept wait :: trace, result)
      | Reply text => ([Posted], Returned (Some text))
      | Failure e =>
          if (attempt <? max_retries - 1)%nat then
            let wait := 2 ^ (attempt + 1) in
            let '(trace, result) :=
              call_gemini_from responses max_retries (S attempt) remaining' in
            (Posted :: Slept wait :: trace, result)
          else ([Posted], Raised e)
      end
  end.

(** [call_gemini(prompt, max_retries)]: the prompt goes into the payload
    and has no part in the control flow. *)
Definition call_gemini (responses : nat -> http_outcome) (max_retries : nat)
    : list event * call_result :=
  call_gemini_from responses max_retries 0 max_retries.

Definition requests (trace : list event) : nat :=
  List.length (filter (fun ev => match ev with Posted => true | Slept _ => false end) trace).

Definition seconds_slept (trace : list event) : nat :=
  list_sum (map (fun ev => match ev with Posted => 0 | Slept n => n end) trace).

(** The POST of an iteration ended in a reply. *)
Definition is_reply (o : http_outcome) : bool :=
  match o with
  | Reply _ => true
  | _ => false
  end.

(** No POST of the iterations [from], ..., [from + count - 1] ends in a
    reply. *)
Fixpoint no_reply (responses : nat -> http_outcome) (from count : nat) : bool :=
  match count with
  | O => true
  | S count' => negb (is_reply (responses from)) && no_reply responses (S from) count'
  end.

(** Some sample replies: rate limit, server error, then a plan. *)
Definition third_time_lucky (attempt : nat) : http_outcome :=
  match attempt with
  | 0 => RateLimited
  | 1 => Failure "500 Server Error"
  | _ => Reply "{}"
  end.

End Oracle.

(** ** Further vocabulary *)

Module Vocabulary.

Import PyStr FixAllExams FixExamStructure.

(** All the questions of a list of sections, in order. *)
Definition all_questions (secs : list Section) : list FixExamStructure.Question :=
  flat_map questions_or_empty secs.

(** The section an index of a plan stands for, as Python reads it: none
    from [len] on, counted from the end when negative. *)
Definition section_at (secs : list Section) (idx : Z) : option Section :=
  if (Z.of_nat (List.length secs) <=? idx)%Z then None
  else if (0 <=? idx)%Z then nth_error secs (Z.to_nat idx)
  else nth_error secs (Z.to_nat (idx + Z.of_nat (List.length secs))).

Definition questions_of_index (secs : list Section) (idx : Z)
    : list FixExamStructure.Question :=
  match section_at secs idx with
  | Some sec => questions_or_empty sec
  | None => []
  end.

(** The non-empty instruction texts of a list of sections, in order. *)
Fixpoint instruction_texts (secs : list Section) : list string :=
  match secs with
  | [] => []
  | sec :: secs' =>
      if otruthy (instructions sec)
      then or_empty (instructions sec) :: instruction_texts secs'
      else instruction_texts secs'
  end.

(** The last section, if any, holds a question. *)
Fixpoint ends_with_questions (secs : list Section) : bool :=
  match secs with
  | [] => true
  | [sec] => Spec.has_questions sec
  | _ :: secs' => ends_with_questions secs'
  end.

Definition true_false_tokens : list string :=
  ["vrai"; "faux"; "true"; "false"; "v"; "f"].

(** [question'] is [question] but for [correct]. *)
Definition same_except_correct (question question' : FixAllExams.Question) : Prop :=
  q_type question' = q_type question
  /\ q_question question' = q_question question
  /\ q_options question' = q_options question
  /\ q_final_answer question' = q_final_answer question
  /\ q_answer_parts question' = q_answer_parts question
  /\ q_model_answer question' = q_model_answer question
  /\ q_scaffold_text question' = q_scaffold_text question
  /\ q_explanation question' = q_explanation question
  /\ q_hints question' = q_hints question.

(** [correct] is a string of the list [l]. *)
Definition correct_among (l : list string) (c : option correct_val) : Prop :=
  exists s, c = Some (CorrectStr s) /\ In s l.

(** The keys of [options] when it is an object. *)
Definition keys_of (o : option options_val) : list string :=
  match o with
  | Some (OptionsDict d) => map fst d
  | _ => []
  end.

(** [question'] is [question] but for [correct], which is as it was or
    a string of [allowed]. *)
Definition writes_correct (allowed : list string)
    (question question' : FixAllExams.Question) : Prop :=
  same_except_correct question question'
  /\ (q_correct question' = q_correct question
      \/ correct_among allowed (q_correct question')).

(** A string that does not start with a blank. *)
Definition starts_clean (s : string) : bool :=
  match s with
  | EmptyString => true
  | String c _ => negb (is_space c)
  end.

End Vocabulary.

(** * Properties *)

(** ** Deterministic repair and the question-count check *)

Section StructureRepair.

Import PyStr FixExamStructure.

Lemma fold_count_shift (l : list Section) (a : nat) :
  fold_left (fun total sec => total + List.length (questions_or_empty sec)) l a
  = a + count_sections l.
Proof.
  unfold count_sections.
  revert a; induction l as [|s l IH]; intros a; simpl.
  - lia.
  - rewrite IH, (IH (List.length _)). lia.
Qed.

Lemma count_sections_cons (s : Section) (l : list Section) :
  count_sections (s :: l) = List.length (questions_or_empty s) + count_sections l.
Proof.
  unfold count_sections at 1; simpl. apply fold_count_shift.
Qed.

Lemma count_sections_app (l1 l2 : list Section) :
  count_sections (l1 ++ l2) = count_sections l1 + count_sections l2.
Proof.
  induction l1 as [|s l1 IH]; simpl.
  - reflexivity.
  - rewrite !count_sections_cons, IH. lia.
Qed.

Lemma questions_merge_into_next (sec next_sec : Section) :
  questions (merge_into_next sec next_sec) = questions next_sec.
Proof.
  unfold merge_into_next.
  destruct (truthy (or_empty (instructions next_sec))); simpl;
    destruct (negb (otruthy (section_title next_sec)) && otruthy (section_title sec));
    reflexivity.
Qed.

Lemma questions_or_empty_merge_into_next (sec next_sec : Section) :
  questions_or_empty (merge_into_next sec next_sec) = questions_or_empty next_sec.
Proof.
  unfold questions_or_empty. now rewrite questions_merge_into_next.
Qed.

Lemma simple_fix_loop_count (rest : list Section) :
  forall idx sec,
    count_sections (simple_fix_loop idx sec rest) = count_sections (sec :: rest).
Proof.
  induction rest as [|next_sec rest IH]; intros idx sec; simpl.
  - destruct (questions_or_empty sec) eqn:Hq.
    + rewrite count_sections_cons, Hq. reflexivity.
    + rewrite !count_sections_cons. unfold questions_or_empty in *.
      destruct (section_title sec); simpl; rewrite Hq; reflexivity.
  - destruct (questions_or_empty sec) eqn:Hq.
    + rewrite IH, (count_sections_cons sec), Hq, !count_sections_cons.
      destruct (otruthy (instructions sec)).
      * now rewrite questions_or_empty_merge_into_next.
      * reflexivity.
    + rewrite count_sections_cons, IH, (count_sections_cons sec).
      unfold questions_or_empty in *.
      destruct (section_title sec); simpl; rewrite Hq; reflexivity.
Qed.

Lemma simple_fix_sections_count (l : list Section) :
  count_sections (simple_fix_sections l) = count_sections l.
Proof.
  destruct l as [|sec rest]; simpl.
  - reflexivity.
  - apply simple_fix_loop_count.
Qed.

Lemma sections_or_empty_set (l : list Section) (exam : Exam) :
  sections_or_empty (set_sections l exam) = l.
Proof. reflexivity. Qed.

Lemma simple_fix_count (exam : Exam) :
  count_questions (simple_fix exam) = count_questions exam.
Proof.
  unfold count_questions, simple_fix.
  rewrite sections_or_empty_set. apply simple_fix_sections_count.
Qed.

Lemma accept_plan_count (exam : Exam) (plan : Plan) (stored : Exam) :
  accept_plan exam (count_questions exam) plan = Ok stored ->
  count_questions stored = count_questions exam.
Proof.
  unfold accept_plan. cbv zeta.
  destruct (analysis_preview _); simpl; [|discriminate].
  destruct (apply_gemini_plan exam plan) as [restructured|]; simpl; [|discriminate].
  destruct (len_sections restructured); simpl; [|discriminate].
  destruct (count_questions restructured =? count_questions exam)%nat eqn:E; simpl;
    intros [= <-].
  - now apply Nat.eqb_eq.
  - apply simple_fix_count.
Qed.

(** C1.  Whatever the oracle returned and whatever plan it proposed, the
    exam stored by the repair step has as many questions as the exam it
    replaces: the applier's output is kept only when its count equals the
    count taken before the plan, and otherwise [simple_fix] of the original
    exam is stored, which keeps the count. *)
Theorem restructure_exam_conserves_count (exam : Exam) (outcome : oracle_outcome) :
  count_questions (restructure_exam exam outcome) = count_questions exam
  /\ count_questions (simple_fix exam) = count_questions exam
  /\ (restructure_exam exam outcome = simple_fix exam
      \/ exists plan restructured,
           outcome = Parsed plan
           /\ apply_gemini_plan exam plan = Ok restructured
           /\ count_questions restructured = count_questions exam
           /\ restructure_exam exam outcome = restructured).
Proof.
  split; [|split].
  - destruct outcome as [| |plan|e]; simpl; try apply simple_fix_count.
    destruct (accept_plan exam (count_questions exam) plan) eqn:E.
    + eapply accept_plan_count; eassumption.
    + apply simple_fix_count.
  - apply simple_fix_count.
  - destruct outcome as [| |plan|e]; simpl; try (now left).
    unfold accept_plan. cbv zeta.
    destruct (analysis_preview _); simpl; [|now left].
    destruct (apply_gemini_plan exam plan) as [restructured|] eqn:Happ; simpl; [|now left].
    destruct (len_sections restructured); simpl; [|now left].
    destruct (count_questions restructured =? count_questions exam)%nat eqn:E; simpl.
    + right. exists plan, restructured. apply Nat.eqb_eq in E. now repeat split.
    + now left.
Qed.

(** *** Idempotence *)

Lemma simple_fix_loop_repaired (rest : list Section) :
  forall idx sec, Forall Spec.repaired (simple_fix_loop idx sec rest).
Proof.
  induction rest as [|next_sec rest IH]; intros idx sec; simpl.
  - destruct (questions_or_empty sec) eqn:Hq; [constructor|].
    constructor; [|constructor].
    unfold Spec.repaired, Spec.has_questions, questions_or_empty in *.
    destruct (section_title sec) eqn:Ht; simpl; rewrite Hq; split; congruence.
  - destruct (questions_or_empty sec) eqn:Hq; [apply IH|].
    constructor; [|apply IH].
    unfold Spec.repaired, Spec.has_questions, questions_or_empty in *.
    destruct (section_title sec) eqn:Ht; simpl; rewrite Hq; split; congruence.
Qed.

Lemma simple_fix_loop_fixpoint (rest : list Section) :
  forall idx sec,
    Forall Spec.repaired (sec :: rest) -> simple_fix_loop idx sec rest = sec :: rest.
Proof.
  induction rest as [|next_sec rest IH]; intros idx sec H;
    inversion H as [|? ? [Hq Ht] Hrest]; subst; simpl;
    unfold Spec.has_questions in Hq;
    destruct (questions_or_empty sec); try discriminate;
    destruct (section_title sec); try congruence.
  now rewrite IH.
Qed.

Lemma simple_fix_sections_idempotent (l : list Section) :
  simple_fix_sections (simple_fix_sections l) = simple_fix_sections l.
Proof.
  destruct l as [|sec rest]; [reflexivity|]. simpl.
  pose proof (simple_fix_loop_repaired rest 0 sec) as H.
  destruct (simple_fix_loop 0 sec rest) as [|sec' rest']; [reflexivity|].
  simpl. now apply simple_fix_loop_fixpoint.
Qed.

(** C3.  The deterministic repairer is idempotent: a second run finds
    neither an empty section nor a null title and returns its input. *)
Theorem simple_fix_idempotent (exam : Exam) :
  simple_fix (simple_fix exam) = simple_fix exam.
Proof.
  unfold simple_fix.
  rewrite sections_or_empty_set, simple_fix_sections_idempotent.
  reflexivity.
Qed.

(** *** What the repairer does to each section *)

Lemma has_questions_merge_into_next (sec next_sec : Section) :
  Spec.has_questions (merge_into_next sec next_sec) = Spec.has_questions next_sec.
Proof.
  unfold Spec.has_questions. now rewrite questions_or_empty_merge_into_next.
Qed.

Lemma questions_or_empty_titled (sec : Section) (idx : nat) :
  questions_or_empty
    match section_title sec with
    | Some _ => sec
    | None => set_section_title (Some (placeholder_title idx)) sec
    end
  = questions_or_empty sec.
Proof. now destruct (section_title sec). Qed.

Lemma simple_fix_loop_survivors (rest : list Section) :
  forall idx sec,
    map questions_or_empty (simple_fix_loop idx sec rest)
    = map questions_or_empty (filter Spec.has_questions (sec :: rest)).
Proof.
  induction rest as [|next_sec rest IH]; intros idx sec.
  - simpl. unfold Spec.has_questions.
    destruct (questions_or_empty sec) eqn:Hq; [reflexivity|].
    simpl. now rewrite questions_or_empty_titled.
  - change (filter Spec.has_questions (sec :: next_sec :: rest))
      with (if Spec.has_questions sec
            then sec :: filter Spec.has_questions (next_sec :: rest)
            else filter Spec.has_questions (next_sec :: rest)).
    cbn [simple_fix_loop]. unfold Spec.has_questions at 1.
    destruct (questions_or_empty sec) eqn:Hq.
    + rewrite IH.
      destruct (otruthy (instructions sec)); [|reflexivity].
      cbn [filter]. rewrite has_questions_merge_into_next.
      destruct (Spec.has_questions next_sec); cbn [map]; [|reflexivity].
      now rewrite questions_or_empty_merge_into_next.
    + cbn [map]. now rewrite IH, questions_or_empty_titled.
Qed.

Lemma simple_fix_loop_placed (rest : list Section) :
  forall idx sec,
    simple_fix_loop idx sec rest = Spec.placed idx (Spec.carried_from sec rest).
Proof.
  induction rest as [|next_sec rest IH]; intros idx sec;
    cbn [simple_fix_loop Spec.carried_from Spec.placed];
    unfold Spec.titled, placeholder_title.
  - unfold Spec.has_questions.
    destruct (questions_or_empty sec); [reflexivity|].
    now destruct (section_title sec).
  - rewrite <- !IH. unfold Spec.has_questions.
    destruct (questions_or_empty sec); cbn [negb andb]; [reflexivity|].
    now destruct (section_title sec).
Qed.

Lemma simple_fix_sections_placed (l : list Section) :
  simple_fix_sections l = Spec.placed 0 (Spec.carried l).
Proof. destruct l as [|sec rest]; [reflexivity|]. apply simple_fix_loop_placed. Qed.

Lemma placed_nth_error (l : list Section) :
  forall idx k sec,
    nth_error l k = Some sec -> Spec.has_questions sec = true ->
    nth_error (Spec.placed idx l) (Spec.survivors_before k l)
    = Some (Spec.titled (idx + k) sec).
Proof.
  unfold Spec.survivors_before.
  induction l as [|a l IH]; intros idx k sec Hnth Hq; [now destruct k|].
  destruct k as [|k]; cbn [nth_error firstn filter Spec.placed] in *.
  - injection Hnth as ->. rewrite Hq, Nat.add_0_r. reflexivity.
  - rewrite Nat.add_succ_r.
    destruct (Spec.has_questions a); cbn [List.length nth_error];
      now apply (IH (S idx)).
Qed.

Lemma carried_from_has_questions (rest : list Section) :
  forall sec,
    map Spec.has_questions (Spec.carried_from sec rest)
    = map Spec.has_questions (sec :: rest).
Proof.
  induction rest as [|next_sec rest IH]; intros sec; [reflexivity|].
  cbn [Spec.carried_from map]. f_equal. rewrite IH. cbn [map]. f_equal.
  destruct (negb (Spec.has_questions sec) && otruthy (instructions sec));
    [apply has_questions_merge_into_next|reflexivity].
Qed.

Lemma carried_has_questions (l : list Section) :
  map Spec.has_questions (Spec.carried l) = map Spec.has_questions l.
Proof. destruct l as [|sec rest]; [reflexivity|]. apply carried_from_has_questions. Qed.

Lemma survivors_before_ext (l1 l2 : list Section) :
  map Spec.has_questions l1 = map Spec.has_questions l2 ->
  forall k, Spec.survivors_before k l1 = Spec.survivors_before k l2.
Proof.
  unfold Spec.survivors_before. revert l2.
  induction l1 as [|a l1 IH]; intros [|b l2] H k; try discriminate H;
    [reflexivity|].
  cbn [map] in H. injection H as Hab H.
  destruct k as [|k]; [reflexivity|]. cbn [firstn filter]. rewrite Hab.
  destruct (Spec.has_questions b); cbn [List.length]; now rewrite (IH l2 H k).
Qed.

Lemma carried_from_all_kept (rest : list Section) :
  forall sec,
    Forall (fun s => Spec.has_questions s = true) (sec :: rest) ->
    Spec.carried_from sec rest = sec :: rest.
Proof.
  induction rest as [|next_sec rest IH]; intros sec H; [reflexivity|].
  inversion H as [|? ? Hq Hrest]; subst.
  cbn [Spec.carried_from]. rewrite Hq. cbn [negb andb]. now rewrite (IH _ Hrest).
Qed.

Lemma survivors_before_all_kept (l : list Section) :
  Forall (fun s => Spec.has_questions s = true) l ->
  forall k, k <= List.length l -> Spec.survivors_before k l = k.
Proof.
  unfold Spec.survivors_before.
  induction 1 as [|a l Hq _ IH]; intros k Hk.
  - destruct k; [reflexivity|cbn in Hk; lia].
  - destruct k as [|k]; [reflexivity|]. cbn [firstn filter]. rewrite Hq.
    cbn [List.length] in *. rewrite IH; [reflexivity|lia].
Qed.

(** C8.  [simple_fix] keeps exactly the sections that hold a question, in
    their order and with their questions.  A dropped section with non-empty
    instructions hands them to the next section, in front of that section's
    own instructions and separated from them by a blank line; its title
    goes to the next section only when that one has none.  A dropped
    section without instructions leaves the next section as it is.  A kept
    section whose title is null, when the loop reaches it at the 0-based
    position idx, is titled "Section idx+1", and the loop goes on at
    position idx+1; a kept section with a title is not changed.  So the
    result is, for every exam, the sections as the hand-over leaves them,
    those without questions left out, each with its own title or the
    placeholder of its own position in the input: the section at position k
    is found in the result behind the kept sections that come before it,
    with the title "Section k+1" if it has none. *)
Theorem simple_fix_repairs_sections :
  (forall exam,
     Forall (fun sec => Spec.has_questions sec = true) (sections_or_empty (simple_fix exam))
     /\ map questions_or_empty (sections_or_empty (simple_fix exam))
        = map questions_or_empty (filter Spec.has_questions (sections_or_empty exam)))
  /\ (forall idx sec next_sec rest preamble,
        Spec.has_questions sec = false ->
        instructions sec = Some preamble -> truthy preamble = true ->
        exists next_sec',
          simple_fix_loop idx sec (next_sec :: rest) = simple_fix_loop (S idx) next_sec' rest
          /\ questions next_sec' = questions next_sec
          /\ instructions next_sec'
             = Some (match instructions next_sec with
                     | Some existing =>
                         if truthy existing
                         then (preamble ++ blank_line ++ existing)%string
                         else preamble
                     | None => preamble
                     end)
          /\ section_title next_sec'
             = if otruthy (section_title next_sec) then section_title next_sec
               else if otruthy (section_title sec) then section_title sec
               else section_title next_sec)
  /\ (forall idx sec next_sec rest,
        Spec.has_questions sec = false -> otruthy (instructions sec) = false ->
        simple_fix_loop idx sec (next_sec :: rest) = simple_fix_loop (S idx) next_sec rest)
  /\ (forall idx sec rest,
        Spec.has_questions sec = true -> section_title sec = None ->
        simple_fix_loop idx sec rest
        = {| section_title := Some ("Section " ++ of_nat (idx + 1))%string;
             instructions := instructions sec;
             questions := questions sec |}
          :: match rest with
             | [] => []
             | next_sec :: rest' => simple_fix_loop (S idx) next_sec rest'
             end)
  /\ (forall idx sec rest title,
        Spec.has_questions sec = true -> section_title sec = Some title ->
        simple_fix_loop idx sec rest
        = sec :: match rest with
                 | [] => []
                 | next_sec :: rest' => simple_fix_loop (S idx) next_sec rest'
                 end)
  /\ (forall exam,
        sections_or_empty (simple_fix exam)
        = Spec.placed 0 (Spec.carried (sections_or_empty exam)))
  /\ (forall exam k sec,
        nth_error (Spec.carried (sections_or_empty exam)) k = Some sec ->
        Spec.has_questions sec = true ->
        nth_error (sections_or_empty (simple_fix exam))
          (Spec.survivors_before k (sections_or_empty exam))
        = Some (Spec.titled k sec))
  /\ (forall exam k sec,
        Forall (fun s => Spec.has_questions s = true) (sections_or_empty exam) ->
        nth_error (sections_or_empty exam) k = Some sec ->
        nth_error (sections_or_empty (simple_fix exam)) k = Some (Spec.titled k sec))
  /\ sections (simple_fix Samples.consignes_exam)
     = Present
         [ Samples.section_with (Some "I. Texte")
             (Some ("Consignes générales" ++ nl ++ nl ++ "Lisez le texte.")%string)
             [Samples.colour_question];
           Samples.section_with (Some "Section 3") None [Samples.colour_question] ]
  /\ sections (simple_fix Samples.untitled_exam)
     = Present
         [ Samples.section_with (Some "Section 1") None [Samples.colour_question];
           Samples.section_with (Some "Section 2") (Some "Lisez le texte.")
             [Samples.colour_question];
           Samples.section_with (Some "Section 4") None [Samples.colour_question];
           Samples.section_with (Some "V") None [Samples.colour_question] ].
Proof.
  assert (Hpos : forall exam k sec,
            nth_error (Spec.carried (sections_or_empty exam)) k = Some sec ->
            Spec.has_questions sec = true ->
            nth_error (sections_or_empty (simple_fix exam))
              (Spec.survivors_before k (sections_or_empty exam))
            = Some (Spec.titled k sec)).
  { intros exam k sec Hnth Hq. unfold simple_fix.
    rewrite sections_or_empty_set, simple_fix_sections_placed.
    rewrite <- (survivors_before_ext _ _ (carried_has_questions (sections_or_empty exam))).
    exact (placed_nth_error _ 0 k sec Hnth Hq). }
  split; [|split; [|split; [|split; [|split; [|split; [|split; [|split; [|split]]]]]]]].
  - intros exam. unfold simple_fix. rewrite sections_or_empty_set. split.
    + destruct (sections_or_empty exam) as [|sec rest]; [constructor|]. simpl.
      eapply Forall_impl; [|apply simple_fix_loop_repaired].
      now intros a [Ha _].
    + destruct (sections_or_empty exam) as [|sec rest]; [reflexivity|].
      apply simple_fix_loop_survivors.
  - intros idx sec next_sec rest preamble Hq Hi Hp.
    exists (merge_into_next sec next_sec).
    unfold Spec.has_questions in Hq. simpl.
    destruct (questions_or_empty sec); [|discriminate].
    rewrite Hi; simpl; rewrite Hp.
    split; [reflexivity|]. split; [apply questions_merge_into_next|].
    unfold merge_into_next. rewrite Hi. simpl. rewrite Hp.
    destruct (instructions next_sec) as [existing|]; simpl.
    + destruct (truthy existing) eqn:He; simpl; rewrite ?He; simpl;
        destruct (otruthy (section_title next_sec)); simpl;
        destruct (otruthy (section_title sec)); simpl; split; reflexivity.
    + destruct (otruthy (section_title next_sec)); simpl;
        destruct (otruthy (section_title sec)); simpl; split; reflexivity.
  - intros idx sec next_sec rest Hq Hi. unfold Spec.has_questions in Hq. simpl.
    destruct (questions_or_empty sec); [|discriminate]. now rewrite Hi.
  - intros idx sec rest Hq Ht. unfold Spec.has_questions in Hq.
    destruct rest as [|next_sec rest]; simpl;
      destruct (questions_or_empty sec); try discriminate; rewrite Ht;
      reflexivity.
  - intros idx sec rest title Hq Ht. unfold Spec.has_questions in Hq.
    destruct rest as [|next_sec rest]; simpl;
      destruct (questions_or_empty sec); try discriminate; rewrite Ht;
      reflexivity.
  - intros exam. unfold simple_fix. rewrite sections_or_empty_set.
    apply simple_fix_sections_placed.
  - exact Hpos.
  - intros exam k sec Hall Hnth.
    assert (Hk : k <= List.length (sections_or_empty exam)).
    { apply Nat.lt_le_incl, nth_error_Some. congruence. }
    rewrite <- (survivors_before_all_kept _ Hall k Hk) at 1.
    apply Hpos.
    + destruct (sections_or_empty exam) as [|s0 rest]; [now destruct k|].
      cbn [Spec.carried]. now rewrite (carried_from_all_kept rest s0 Hall).
    + rewrite Forall_forall in Hall. apply Hall. eapply nth_error_In; eassumption.
  - reflexivity.
  - reflexivity.
Qed.

(** The repairer on the specification's scenario and on
    [Samples.untitled_exam]: what survives, what the dropped section hands
    on, and the placeholders: the fourth section, third of the result, is
    "Section 4". *)
Lemma simple_fix_repairs_sections_witness :
  map questions_or_empty (sections_or_empty (simple_fix Samples.consignes_exam))
  = [[Samples.colour_question]; [Samples.colour_question]]
  /\ (exists next_sec',
        simple_fix_loop 0
          (Samples.section_with (Some "Consignes") (Some "Consignes générales") [])
          [Samples.section_with None (Some "Lisez le texte.") [Samples.colour_question]]
        = simple_fix_loop 1 next_sec' []
        /\ instructions next_sec'
           = Some ("Consignes générales" ++ blank_line ++ "Lisez le texte.")%string
        /\ section_title next_sec' = Some "Consignes")
  /\ simple_fix_loop 2 (Samples.section_with None None [Samples.colour_question])
       [Samples.section_with None None [Samples.colour_question]]
     = [ Samples.section_with (Some "Section 3") None [Samples.colour_question];
         Samples.section_with (Some "Section 4") None [Samples.colour_question] ]
  /\ nth_error (sections_or_empty (simple_fix Samples.untitled_exam)) 2
     = Some (Samples.section_with (Some "Section 4") None [Samples.colour_question]).
Proof.
  destruct simple_fix_repairs_sections as (Hdrop & Hcarry & _ & Hnull & _ & _ & Hpos & _).
  split; [|split; [|split]].
  - destruct (Hdrop Samples.consignes_exam) as [_ ->]. reflexivity.
  - destruct (Hcarry 0
               (Samples.section_with (Some "Consignes") (Some "Consignes générales") [])
               (Samples.section_with None (Some "Lisez le texte.") [Samples.colour_question])
               [] "Consignes générales" eq_refl eq_refl eq_refl)
      as (next_sec' & Hloop & _ & Hi & Ht).
    exists next_sec'. repeat split; assumption.
  - exact (eq_trans
             (Hnull 2 (Samples.section_with None None [Samples.colour_question])
                [Samples.section_with None None [Samples.colour_question]]
                eq_refl eq_refl)
             (f_equal
                (cons (Samples.section_with (Some "Section 3") None
                         [Samples.colour_question]))
                (Hnull 3 (Samples.section_with None None [Samples.colour_question]) []
                   eq_refl eq_refl))).
  - exact (Hpos Samples.untitled_exam 3
             (Samples.section_with None None [Samples.colour_question])
             eq_refl eq_refl).
Defined.

(** *** The plan applier on indices that are out of range *)

Lemma guarded_section_out_of_range (secs : list Section) (idx : Z) :
  (idx <? Z.of_nat (List.length secs))%Z = false ->
  guarded_section (Some secs) idx = Ok None.
Proof. intros H. unfold guarded_section; simpl. now rewrite H. Qed.

Lemma merge_indices_filter (secs : list Section) (indices : list Z) :
  forall target,
    merge_indices (Some secs)
      (filter (fun idx => (idx <? Z.of_nat (List.length secs))%Z) indices) target
    = merge_indices (Some secs) indices target.
Proof.
  induction indices as [|idx indices IH]; intros target; [reflexivity|].
  cbn [filter]. destruct (idx <? Z.of_nat (List.length secs))%Z eqn:E.
  - cbn [merge_indices].
    destruct (guarded_section (Some secs) idx) as [[orig|]|]; simpl;
      [apply IH|apply IH|reflexivity].
  - cbn [merge_indices]. rewrite (guarded_section_out_of_range _ _ E). simpl. apply IH.
Qed.

Lemma collect_indices_filter (secs : list Section) (indices : list Z) :
  forall acc,
    collect_indices (Some secs)
      (filter (fun idx => (idx <? Z.of_nat (List.length secs))%Z) indices) acc
    = collect_indices (Some secs) indices acc.
Proof.
  induction indices as [|idx indices IH]; intros acc; [reflexivity|].
  cbn [filter]. destruct (idx <? Z.of_nat (List.length secs))%Z eqn:E.
  - cbn [collect_indices].
    destruct (guarded_section (Some secs) idx) as [[orig|]|]; simpl;
      [apply IH|apply IH|reflexivity].
  - cbn [collect_indices]. rewrite (guarded_section_out_of_range _ _ E). simpl. apply IH.
Qed.

Lemma apply_entry_pruned (secs : list Section) (entry : plan_entry) (new_sections : list Section) :
  apply_entry (Some secs) (Spec.drop_out_of_range (List.length secs) entry) new_sections
  = apply_entry (Some secs) entry new_sections.
Proof.
  unfold apply_entry, entry_indices, is_merge, Spec.drop_out_of_range; simpl.
  destruct (original_indices entry) as [| |l]; simpl; try reflexivity.
  destruct (match get_default "keep" (merge_strategy entry) with
            | Some strategy => (strategy =? "merge_into_previous")%string
            | None => false
            end).
  - destruct (rev new_sections) as [|target before].
    + now rewrite collect_indices_filter.
    + now rewrite merge_indices_filter.
  - now rewrite collect_indices_filter.
Qed.

Lemma apply_entries_pruned (secs : list Section) (entries : list plan_entry) :
  forall new_sections,
    apply_entries (Some secs) (map (Spec.drop_out_of_range (List.length secs)) entries)
      new_sections
    = apply_entries (Some secs) entries new_sections.
Proof.
  induction entries as [|entry entries IH]; intros new_sections; [reflexivity|].
  cbn [map apply_entries]. rewrite apply_entry_pruned.
  destruct (apply_entry (Some secs) entry new_sections); simpl; [apply IH|reflexivity].
Qed.

Lemma guarded_section_total (secs : list Section) (idx : Z) :
  (- Z.of_nat (List.length secs) <= idx)%Z ->
  exists o, guarded_section (Some secs) idx = Ok o.
Proof.
  intros Hlo. unfold guarded_section, index_below_len. cbn [bind].
  destruct (idx <? Z.of_nat (List.length secs))%Z eqn:Hbelow; [|eauto].
  apply Z.ltb_lt in Hbelow.
  assert (Hget : exists orig, getitem secs idx = Ok orig).
  { unfold getitem. cbv zeta.
    set (i := if (idx <? 0)%Z then (idx + Z.of_nat (List.length secs))%Z else idx).
    assert (Hi : (0 <= i < Z.of_nat (List.length secs))%Z).
    { subst i. destruct (idx <? 0)%Z eqn:Hneg.
      - apply Z.ltb_lt in Hneg. lia.
      - apply Z.ltb_ge in Hneg. lia. }
    replace (i <? 0)%Z with false by (symmetry; apply Z.ltb_ge; lia).
    destruct (nth_error secs (Z.to_nat i)) eqn:E; [eauto|].
    apply nth_error_None in E. lia. }
  destruct Hget as (orig & ->). cbn [bind]. eauto.
Qed.

Lemma collect_indices_total (secs : list Section) (indices : list Z) :
  Forall (fun idx => (- Z.of_nat (List.length secs) <= idx)%Z) indices ->
  forall acc, exists acc', collect_indices (Some secs) indices acc = Ok acc'.
Proof.
  induction 1 as [|idx indices Hidx _ IH]; intros acc; [eexists; reflexivity|].
  cbn [collect_indices].
  destruct (guarded_section_total secs idx Hidx) as ([orig|] & ->); cbn [bind]; apply IH.
Qed.

Lemma merge_indices_total (secs : list Section) (indices : list Z) :
  Forall (fun idx => (- Z.of_nat (List.length secs) <= idx)%Z) indices ->
  forall target, exists target', merge_indices (Some secs) indices target = Ok target'.
Proof.
  induction 1 as [|idx indices Hidx _ IH]; intros target; [eexists; reflexivity|].
  cbn [merge_indices].
  destruct (guarded_section_total secs idx Hidx) as ([orig|] & ->); cbn [bind]; apply IH.
Qed.

Lemma apply_entries_total (secs : list Section) (entries : list plan_entry) :
  forallb (fun entry => match get_default [] (original_indices entry) with
                        | Some _ => true
                        | None => false
                        end) entries = true ->
  Forall (fun idx => (- Z.of_nat (List.length secs) <= idx)%Z)
    (flat_map Spec.indices_of entries) ->
  forall new_sections, exists new_sections',
    apply_entries (Some secs) entries new_sections = Ok new_sections'.
Proof.
  induction entries as [|entry entries IH]; intros Hit Hr new_sections;
    [eexists; reflexivity|].
  cbn [forallb] in Hit. apply andb_true_iff in Hit as [He Hit].
  cbn [flat_map] in Hr. apply Forall_app in Hr as [Hre Hr].
  unfold Spec.indices_of in Hre.
  cbn [apply_entries]. unfold apply_entry, entry_indices.
  destruct (get_default [] (original_indices entry)) as [indices|]; [|discriminate].
  cbn [bind].
  destruct (collect_indices_total secs indices Hre ([], [])) as (acc & Hacc).
  destruct (is_merge entry).
  - destruct (rev new_sections) as [|target before].
    + rewrite Hacc. cbn [bind]. apply (IH Hit Hr).
    + destruct (merge_indices_total secs indices Hre target) as (target' & ->).
      cbn [bind]. apply (IH Hit Hr).
  - rewrite Hacc. cbn [bind]. apply (IH Hit Hr).
Qed.

(** C9.  On an exam whose sections are a list, an index that is not below
    the number of sections raises nothing and adds nothing: each inner loop
    steps over it, on the keep/rename_only path and on the
    merge_into_previous path alike, and the applier returns what it returns
    on the plan without such indices.  The applier returns an exam for
    every plan whose index lists are lists and hold no index below
    [-len(sections)]. *)
Theorem apply_gemini_plan_skips_out_of_range (exam : Exam) (plan : Plan)
    (secs : list Section) (Hsecs : get_default [] (sections exam) = Some secs) :
  apply_gemini_plan exam plan
  = apply_gemini_plan exam (Spec.prune_plan (List.length secs) plan)
  /\ (forall idx indices acc,
        (Z.of_nat (List.length secs) <= idx)%Z ->
        collect_indices (Some secs) (idx :: indices) acc
        = collect_indices (Some secs) indices acc)
  /\ (forall idx indices target,
        (Z.of_nat (List.length secs) <= idx)%Z ->
        merge_indices (Some secs) (idx :: indices) target
        = merge_indices (Some secs) indices target)
  /\ (forall indices acc,
        Forall (fun idx => (Z.of_nat (List.length secs) <= idx)%Z) indices ->
        collect_indices (Some secs) indices acc = Ok acc)
  /\ (forall indices target,
        Forall (fun idx => (Z.of_nat (List.length secs) <= idx)%Z) indices ->
        merge_indices (Some secs) indices target = Ok target)
  /\ (Spec.indices_iterable plan = true ->
      Forall (fun idx => (- Z.of_nat (List.length secs) <= idx)%Z)
        (Spec.plan_indices plan) ->
      exists restructured, apply_gemini_plan exam plan = Ok restructured).
Proof.
  assert (Hskip : forall idx, (Z.of_nat (List.length secs) <= idx)%Z ->
                    guarded_section (Some secs) idx = Ok None).
  { intros idx H. apply guarded_section_out_of_range. now apply Z.ltb_ge. }
  split; [|split; [|split; [|split; [|split]]]]; cycle 5.
  { intros Hit Hr. unfold apply_gemini_plan. rewrite Hsecs.
    unfold Spec.indices_iterable, Spec.plan_indices in *.
    destruct (section_plan plan) as [[|entry entries]|]; [eauto| |eauto].
    destruct (apply_entries_total secs (entry :: entries) Hit Hr []) as (l & ->).
    cbn [bind]. eauto. }
  - unfold apply_gemini_plan, Spec.prune_plan; simpl. rewrite Hsecs.
    destruct (section_plan plan) as [[|entry entries]|]; try reflexivity.
    cbn [option_map]. change (Spec.drop_out_of_range (List.length secs) entry
                               :: map (Spec.drop_out_of_range (List.length secs)) entries)
      with (map (Spec.drop_out_of_range (List.length secs)) (entry :: entries)).
    rewrite apply_entries_pruned.
    reflexivity.
  - intros idx indices acc H. cbn [collect_indices]. now rewrite (Hskip _ H).
  - intros idx indices target H. cbn [merge_indices]. now rewrite (Hskip _ H).
  - intros indices acc H. induction H as [|idx indices H _ IH]; [reflexivity|].
    cbn [collect_indices]. now rewrite (Hskip _ H).
  - intros indices target H. induction H as [|idx indices H _ IH]; [reflexivity|].
    cbn [merge_indices]. now rewrite (Hskip _ H).
Qed.

(** The applier on [Samples.two_section_exam]: index 7 of the second
    entry of [Samples.plan_repeated_index] is stepped over. *)
Lemma apply_gemini_plan_skips_out_of_range_witness :
  apply_gemini_plan Samples.two_section_exam Samples.plan_repeated_index
  = apply_gemini_plan Samples.two_section_exam
      (Spec.prune_plan 2 Samples.plan_repeated_index)
  /\ apply_gemini_plan Samples.two_section_exam Samples.plan_repeated_index
     = Ok Samples.two_section_exam_restructured.
Proof.
  split.
  - exact (proj1 (apply_gemini_plan_skips_out_of_range Samples.two_section_exam
                    Samples.plan_repeated_index
                    [ Samples.section_with (Some "I") None [Samples.colour_question];
                      Samples.section_with (Some "II") None [] ]
                    eq_refl)).
  - reflexivity.
Defined.

(** The applier on the scenario of three sections of one title: one
    section comes out, with the four questions in order and the
    instructions joined by blank lines, and it is what the repair step
    stores. *)
Example apply_gemini_plan_merges_duplicates :
  apply_gemini_plan Samples.duplicate_titles_exam Samples.merge_all_plan
  = Ok (Samples.exam_with
          [ Samples.section_with (Some "II. Compétence linguistique")
              (Some ("Parties A, B, C." ++ blank_line ++ "A." ++ blank_line ++ "C.")%string)
              [ Samples.colour_question; Samples.partial_answer_question;
                Samples.colour_question; Samples.matching_question ] ])
  /\ count_questions Samples.duplicate_titles_exam = 4
  /\ (exists stored,
        restructure_exam Samples.duplicate_titles_exam (Parsed Samples.merge_all_plan)
        = stored
        /\ apply_gemini_plan Samples.duplicate_titles_exam Samples.merge_all_plan
           = Ok stored).
Proof.
  split; [reflexivity|]. split; [reflexivity|]. eexists. split; reflexivity.
Qed.

(** Python's negative indices reach the sections from the end, and an
    index below [-len] raises. *)
Example apply_gemini_plan_negative_index :
  apply_gemini_plan Samples.two_section_exam
    (Samples.plan_with [Samples.entry_with [(-2)%Z] "Partie A" "keep"])
  = Ok Samples.two_section_exam_restructured
  /\ apply_gemini_plan Samples.two_section_exam
       (Samples.plan_with [Samples.entry_with [(-3)%Z] "Partie A" "keep"])
     = Raise IndexError
  /\ restructure_exam Samples.two_section_exam
       (Parsed (Samples.plan_with [Samples.entry_with [(-3)%Z] "Partie A" "keep"]))
     = simple_fix Samples.two_section_exam.
Proof. repeat split. Qed.

(** *** What decides on a plan: the count, not the coverage of indices *)

Lemma guarded_section_in_range (secs : list Section) (idx : Z) :
  Spec.in_range (List.length secs) idx ->
  exists orig,
    nth_error secs (Z.to_nat idx) = Some orig
    /\ guarded_section (Some secs) idx = Ok (Some orig).
Proof.
  intros [Hlo Hhi].
  assert (Hbelow : (idx <? Z.of_nat (List.length secs))%Z = true) by now apply Z.ltb_lt.
  assert (Hneg : (idx <? 0)%Z = false) by (apply Z.ltb_ge; lia).
  destruct (nth_error secs (Z.to_nat idx)) as [orig|] eqn:E.
  - exists orig. split; [reflexivity|].
    unfold guarded_section, index_below_len, getitem.
    cbn [bind]. rewrite Hbelow, Hneg, Hneg, E. reflexivity.
  - apply nth_error_None in E. lia.
Qed.

Lemma questions_or_empty_merge_one (orig target : Section) :
  questions_or_empty (merge_one orig target)
  = questions_or_empty target ++ questions_or_empty orig.
Proof.
  unfold merge_one.
  destruct (otruthy (instructions orig)); [|reflexivity].
  cbn [instructions]. destruct (truthy (or_empty (instructions target))); reflexivity.
Qed.

Lemma collect_indices_count (secs : list Section) (indices : list Z) :
  Forall (Spec.in_range (List.length secs)) indices ->
  forall acc, exists acc',
    collect_indices (Some secs) indices acc = Ok acc'
    /\ List.length (fst acc')
       = List.length (fst acc) + list_sum (map (Spec.questions_at secs) indices).
Proof.
  induction 1 as [|idx indices Hidx _ IH]; intros acc.
  - exists acc. split; [reflexivity|]. simpl. lia.
  - destruct (guarded_section_in_range _ _ Hidx) as (orig & Hnth & Hg).
    cbn [collect_indices]. rewrite Hg. simpl bind.
    destruct (IH (fst acc ++ questions_or_empty orig,
                  if otruthy (instructions orig)
                  then snd acc ++ [or_empty (instructions orig)]
                  else snd acc)) as (acc' & Hc & Hlen).
    assert (Hq : Spec.questions_at secs idx = List.length (questions_or_empty orig))
      by (unfold Spec.questions_at; now rewrite Hnth).
    exists acc'. split; [exact Hc|]. rewrite Hlen. cbn [fst map]. simpl list_sum.
    rewrite Hq, length_app. lia.
Qed.

Lemma merge_indices_count (secs : list Section) (indices : list Z) :
  Forall (Spec.in_range (List.length secs)) indices ->
  forall target, exists target',
    merge_indices (Some secs) indices target = Ok target'
    /\ List.length (questions_or_empty target')
       = List.length (questions_or_empty target)
         + list_sum (map (Spec.questions_at secs) indices).
Proof.
  induction 1 as [|idx indices Hidx _ IH]; intros target.
  - exists target. split; [reflexivity|]. simpl. lia.
  - destruct (guarded_section_in_range _ _ Hidx) as (orig & Hnth & Hg).
    cbn [merge_indices]. rewrite Hg. simpl bind.
    destruct (IH (merge_one orig target)) as (target' & Hm & Hlen).
    assert (Hq : Spec.questions_at secs idx = List.length (questions_or_empty orig))
      by (unfold Spec.questions_at; now rewrite Hnth).
    exists target'. split; [exact Hm|]. rewrite Hlen, questions_or_empty_merge_one.
    cbn [map]. simpl list_sum. rewrite Hq, length_app. lia.
Qed.

Lemma count_sections_snoc (l : list Section) (sec : Section) :
  count_sections (l ++ [sec]) = count_sections l + List.length (questions_or_empty sec).
Proof.
  rewrite count_sections_app, count_sections_cons. unfold count_sections at 2; simpl. lia.
Qed.

Lemma apply_entry_count (secs : list Section) (entry : plan_entry) (indices : list Z)
    (new_sections : list Section) :
  get_default [] (original_indices entry) = Some indices ->
  Forall (Spec.in_range (List.length secs)) indices ->
  exists new_sections',
    apply_entry (Some secs) entry new_sections = Ok new_sections'
    /\ count_sections new_sections'
       = count_sections new_sections + list_sum (map (Spec.questions_at secs) indices).
Proof.
  intros Hi Hr. unfold apply_entry, entry_indices. rewrite Hi. simpl bind.
  assert (Hkeep : exists new_sections',
            (acc <- collect_indices (Some secs) indices ([], []) ;;
             Ok (new_sections
                 ++ [build_section (get_default "Section" (new_title entry))
                       (new_instructions entry) (fst acc) (snd acc)]))
            = Ok new_sections'
            /\ count_sections new_sections'
               = count_sections new_sections
                 + list_sum (map (Spec.questions_at secs) indices)).
  { destruct (collect_indices_count secs indices Hr ([], [])) as (acc' & Hc & Hlen).
    rewrite Hc. simpl bind. eexists. split; [reflexivity|].
    rewrite count_sections_snoc. unfold build_section, questions_or_empty; simpl.
    rewrite Hlen. reflexivity. }
  destruct (is_merge entry); [|exact Hkeep].
  destruct (rev new_sections) as [|target before] eqn:Hrev; [exact Hkeep|].
  destruct (merge_indices_count secs indices Hr target) as (target' & Hm & Hlen).
  rewrite Hm. simpl bind. eexists. split; [reflexivity|].
  assert (Hns : new_sections = rev before ++ [target]).
  { rewrite <- (rev_involutive new_sections), Hrev. reflexivity. }
  rewrite Hns, !count_sections_snoc, Hlen. lia.
Qed.

Lemma apply_entries_count (secs : list Section) (entries : list plan_entry) :
  forallb (fun entry => match get_default [] (original_indices entry) with
                        | Some _ => true
                        | None => false
                        end) entries = true ->
  Forall (Spec.in_range (List.length secs)) (flat_map Spec.indices_of entries) ->
  forall new_sections, exists new_sections',
    apply_entries (Some secs) entries new_sections = Ok new_sections'
    /\ count_sections new_sections'
       = count_sections new_sections
         + list_sum (map (Spec.questions_at secs) (flat_map Spec.indices_of entries)).
Proof.
  induction entries as [|entry entries IH]; intros Hit Hr new_sections.
  - exists new_sections. split; [reflexivity|]. simpl. lia.
  - cbn [forallb] in Hit. apply andb_true_iff in Hit as [He Hit].
    cbn [flat_map] in *. apply Forall_app in Hr as [Hre Hr].
    unfold Spec.indices_of at 1 in Hre. unfold Spec.indices_of at 1.
    destruct (get_default [] (original_indices entry)) as [indices|] eqn:Hi;
      [|discriminate].
    destruct (apply_entry_count secs entry indices new_sections Hi Hre)
      as (ns1 & H1 & Hc1).
    destruct (IH Hit Hr ns1) as (ns2 & H2 & Hc2).
    exists ns2. cbn [apply_entries]. rewrite H1. simpl bind.
    split; [exact H2|]. rewrite Hc2, Hc1, map_app, list_sum_app. lia.
Qed.

Lemma nth_error_all {A : Type} (l : list A) :
  map (nth_error l) (seq 0 (List.length l)) = map Some l.
Proof.
  induction l as [|a l IH]; [reflexivity|].
  cbn [List.length seq map nth_error]. f_equal.
  rewrite <- seq_shift, map_map. exact IH.
Qed.

Lemma count_sections_sum (secs : list Section) :
  count_sections secs
  = list_sum (map (fun sec => List.length (questions_or_empty sec)) secs).
Proof.
  induction secs as [|sec secs IH]; [reflexivity|].
  rewrite count_sections_cons, IH. reflexivity.
Qed.

Lemma questions_at_all (secs : list Section) :
  list_sum (map (fun i => Spec.questions_at secs (Z.of_nat i)) (seq 0 (List.length secs)))
  = count_sections secs.
Proof.
  rewrite count_sections_sum.
  rewrite (map_ext (fun i => Spec.questions_at secs (Z.of_nat i))
             (fun i => match nth_error secs i with
                       | Some sec => List.length (questions_or_empty sec)
                       | None => 0
                       end))
    by (intros i; unfold Spec.questions_at; now rewrite Nat2Z.id).
  rewrite <- (map_map (nth_error secs)
                (fun o => match o with
                          | Some sec => List.length (questions_or_empty sec)
                          | None => 0
                          end)).
  rewrite nth_error_all, map_map. reflexivity.
Qed.

Lemma partition_permutation (n : nat) (l : list Z) :
  forallb (fun i => (count_occ Z.eq_dec l (Z.of_nat i) =? 1)%nat) (seq 0 n) = true ->
  Forall (Spec.in_range n) l ->
  Permutation l (map Z.of_nat (seq 0 n)).
Proof.
  intros Hocc Hr.
  rewrite forallb_forall in Hocc. rewrite Forall_forall in Hr.
  assert (Hin : forall x, In x l <-> In x (map Z.of_nat (seq 0 n))).
  { intros x. rewrite in_map_iff. split.
    - intros H. destruct (Hr x H) as [Hlo Hhi]. exists (Z.to_nat x).
      split; [lia|]. apply in_seq. lia.
    - intros (i & <- & Hi). apply (count_occ_In Z.eq_dec).
      specialize (Hocc i Hi). apply Nat.eqb_eq in Hocc. lia. }
  apply NoDup_Permutation; [| |exact Hin].
  - apply (NoDup_count_occ' Z.eq_dec). intros x Hx.
    apply Hin in Hx. apply in_map_iff in Hx as (i & <- & Hi).
    specialize (Hocc i Hi). now apply Nat.eqb_eq in Hocc.
  - apply Finite.Injective_map_NoDup; [|apply seq_NoDup].
    intros a b. apply Nat2Z.inj.
Qed.

Lemma partition_count (secs : list Section) (l : list Z) :
  Permutation l (map Z.of_nat (seq 0 (List.length secs))) ->
  list_sum (map (Spec.questions_at secs) l) = count_sections secs.
Proof.
  intros Hp. rewrite <- questions_at_all.
  rewrite (Permutation_list_sum (Permutation_map (Spec.questions_at secs) Hp)).
  now rewrite map_map.
Qed.

Lemma apply_gemini_plan_sections (exam : Exam) (plan : Plan) (secs : list Section)
    (restructured : Exam) :
  get_default [] (sections exam) = Some secs ->
  apply_gemini_plan exam plan = Ok restructured ->
  exists l, len_sections restructured = Ok l.
Proof.
  intros Hsecs. unfold apply_gemini_plan. rewrite Hsecs.
  destruct (section_plan plan) as [[|entry entries]|].
  - intros [= <-]. unfold len_sections. rewrite Hsecs. eauto.
  - destruct (apply_entries (Some secs) (entry :: entries) []) as [l|]; simpl;
      [|discriminate].
    intros [= <-]. unfold len_sections; simpl. eauto.
  - intros [= <-]. unfold len_sections. rewrite Hsecs. eauto.
Qed.

Lemma partition_accepted (exam : Exam) (plan : Plan) (secs : list Section) :
  get_default [] (sections exam) = Some secs ->
  Spec.plan_partitions (List.length secs) plan = true ->
  exists restructured,
    apply_gemini_plan exam plan = Ok restructured
    /\ count_questions restructured = count_questions exam.
Proof.
  intros Hsecs Hpart. unfold Spec.plan_partitions in Hpart.
  apply andb_true_iff in Hpart as [Hpart Hrange].
  apply andb_true_iff in Hpart as [Hit Hocc].
  assert (Hr : Forall (Spec.in_range (List.length secs)) (Spec.plan_indices plan)).
  { apply Forall_forall. intros idx Hin.
    rewrite forallb_forall in Hrange. specialize (Hrange idx Hin).
    apply andb_true_iff in Hrange as [Hlo Hhi].
    apply Z.leb_le in Hlo. apply Z.ltb_lt in Hhi. now split. }
  pose proof (partition_count secs _ (partition_permutation _ _ Hocc Hr)) as Hsum.
  assert (Hcount : count_questions exam = count_sections secs).
  { unfold count_questions, sections_or_empty.
    destruct (sections exam); simpl in *; congruence. }
  unfold apply_gemini_plan. rewrite Hsecs.
  unfold Spec.indices_iterable, Spec.plan_indices in *.
  destruct (section_plan plan) as [[|entry entries]|].
  - exists exam. now split.
  - destruct (apply_entries_count secs (entry :: entries) Hit Hr []) as (l & Hl & Hc).
    rewrite Hl. simpl bind. eexists. split; [reflexivity|].
    unfold count_questions at 1. rewrite sections_or_empty_set, Hc, Hsum, Hcount.
    reflexivity.
  - exists exam. now split.
Qed.

Lemma restructure_exam_unprintable (exam : Exam) (plan : Plan) :
  Spec.analysis_printable plan = false ->
  restructure_exam exam (Parsed plan) = simple_fix exam.
Proof.
  unfold Spec.analysis_printable, restructure_exam, accept_plan. cbv zeta.
  now destruct (analysis_preview _).
Qed.

Lemma restructure_exam_printable (exam : Exam) (plan : Plan) :
  Spec.analysis_printable plan = true ->
  restructure_exam exam (Parsed plan)
  = match apply_gemini_plan exam plan with
    | Ok restructured =>
        match len_sections restructured with
        | Ok _ =>
            if (count_questions restructured =? count_questions exam)%nat
            then restructured else simple_fix exam
        | Raise _ => simple_fix exam
        end
    | Raise _ => simple_fix exam
    end.
Proof.
  unfold Spec.analysis_printable, restructure_exam, accept_plan. cbv zeta.
  destruct (analysis_preview _); [intros _|discriminate]. cbn [bind].
  destruct (apply_gemini_plan exam plan) as [restructured|]; cbn [bind]; [|reflexivity].
  destruct (len_sections restructured); cbn [bind]; [|reflexivity].
  now destruct (count_questions restructured =? count_questions exam)%nat.
Qed.

(** C2, as the code has it.  No check of the indices precedes the
    applier.  [main] first prints the start of the plan's analysis note;
    when the note cannot be sliced, [simple_fix] of the original exam is
    stored.  When it can, the applier is run on the plan and what decides is
    the count taken afterwards: when the applier returns, its output is
    stored if it has the question count of the original exam and
    [simple_fix] of the original is stored if not; when the applier raises,
    [simple_fix] of the original is stored.  A plan with such a note that
    lists every index of [0, sectionCount) exactly once, and no other index,
    always passes. *)
Theorem plan_accepted_by_question_count (exam : Exam) (plan : Plan) :
  (Spec.analysis_printable plan = false ->
   restructure_exam exam (Parsed plan) = simple_fix exam)
  /\ (forall e,
        apply_gemini_plan exam plan = Raise e ->
        restructure_exam exam (Parsed plan) = simple_fix exam)
  /\ (forall secs restructured,
        Spec.analysis_printable plan = true ->
        get_default [] (sections exam) = Some secs ->
        apply_gemini_plan exam plan = Ok restructured ->
        restructure_exam exam (Parsed plan)
        = if (count_questions restructured =? count_questions exam)%nat
          then restructured else simple_fix exam)
  /\ (forall secs,
        Spec.analysis_printable plan = true ->
        get_default [] (sections exam) = Some secs ->
        Spec.plan_partitions (List.length secs) plan = true ->
        exists restructured,
          apply_gemini_plan exam plan = Ok restructured
          /\ count_questions restructured = count_questions exam
          /\ restructure_exam exam (Parsed plan) = restructured)
  /\ (Spec.analysis_printable plan = true
      <-> analysis plan = Absent
          \/ (exists note, analysis plan = Present (AnalysisStr note))
          \/ analysis plan = Present AnalysisArray).
Proof.
  assert (Hstored : forall secs restructured,
            Spec.analysis_printable plan = true ->
            get_default [] (sections exam) = Some secs ->
            apply_gemini_plan exam plan = Ok restructured ->
            restructure_exam exam (Parsed plan)
            = if (count_questions restructured =? count_questions exam)%nat
              then restructured else simple_fix exam).
  { intros secs restructured Hprint Hsecs Happ.
    rewrite (restructure_exam_printable _ _ Hprint), Happ.
    now destruct (apply_gemini_plan_sections _ _ _ _ Hsecs Happ) as (l & ->). }
  split; [apply restructure_exam_unprintable|].
  split; [|split; [exact Hstored|split]].
  - intros e Happ.
    destruct (Spec.analysis_printable plan) eqn:Hprint;
      [|now apply restructure_exam_unprintable].
    now rewrite (restructure_exam_printable _ _ Hprint), Happ.
  - intros secs Hprint Hsecs Hpart.
    destruct (partition_accepted exam plan secs Hsecs Hpart) as (restructured & Happ & Hc).
    exists restructured. split; [exact Happ|]. split; [exact Hc|].
    rewrite (Hstored _ _ Hprint Hsecs Happ), Hc, Nat.eqb_refl. reflexivity.
  - unfold Spec.analysis_printable.
    destruct (analysis plan) as [| |[note| | |b|]]; cbn; split;
      try discriminate; try (intros _; now eauto);
      intros [H|[(note' & H)|H]]; discriminate.
Qed.

(** A plan that covers both sections of [Samples.two_section_exam] once is
    applied and its output stored; with a null analysis note the same plan
    ends in the deterministic repair. *)
Lemma plan_accepted_by_question_count_witness :
  (exists restructured,
     apply_gemini_plan Samples.two_section_exam Samples.plan_covering = Ok restructured
     /\ count_questions restructured = count_questions Samples.two_section_exam
     /\ restructure_exam Samples.two_section_exam (Parsed Samples.plan_covering)
        = restructured)
  /\ restructure_exam Samples.two_section_exam
       (Parsed {| analysis := Null;
                  split_recommended := split_recommended Samples.plan_covering;
                  section_plan := section_plan Samples.plan_covering |})
     = simple_fix Samples.two_section_exam.
Proof.
  split.
  - exact (proj1 (proj2 (proj2 (proj2 (plan_accepted_by_question_count
                                          Samples.two_section_exam Samples.plan_covering))))
             [ Samples.section_with (Some "I") None [Samples.colour_question];
               Samples.section_with (Some "II") None [] ]
             eq_refl eq_refl eq_refl).
  - exact (proj1 (plan_accepted_by_question_count Samples.two_section_exam
                    {| analysis := Null;
                       split_recommended := split_recommended Samples.plan_covering;
                       section_plan := section_plan Samples.plan_covering |})
             eq_refl).
Defined.

(** C2 as stated fails: two plans that do not partition the indices of
    [Samples.two_section_exam] (index 1 missing; index 1 listed twice and
    index 7 out of range) are applied, and what the applier returns is
    stored in place of the deterministic repair. *)
Lemma plan_not_prevalidated :
  Spec.plan_partitions 2 Samples.plan_missing_index = false
  /\ apply_gemini_plan Samples.two_section_exam Samples.plan_missing_index
     = Ok Samples.two_section_exam_restructured
  /\ restructure_exam Samples.two_section_exam (Parsed Samples.plan_missing_index)
     = Samples.two_section_exam_restructured
  /\ Spec.plan_partitions 2 Samples.plan_repeated_index = false
  /\ apply_gemini_plan Samples.two_section_exam Samples.plan_repeated_index
     = Ok Samples.two_section_exam_restructured
  /\ restructure_exam Samples.two_section_exam (Parsed Samples.plan_repeated_index)
     = Samples.two_section_exam_restructured
  /\ Samples.two_section_exam_restructured <> simple_fix Samples.two_section_exam.
Proof.
  repeat split; try reflexivity. discriminate.
Qed.

End StructureRepair.

(** ** The Unicode tables on ASCII text *)

Section AsciiTables.

Import PyStr Vocabulary.

Lemma ascii_rstrip_idempotent (s : string) : ascii_rstrip (ascii_rstrip s) = ascii_rstrip s.
Proof.
  induction s as [|c s IH]; [reflexivity|]. cbn [ascii_rstrip].
  destruct (ascii_rstrip s) as [|a r] eqn:E.
  - destruct (is_space c) eqn:Ec; [reflexivity|]. cbn [ascii_rstrip]. now rewrite Ec.
  - cbn [ascii_rstrip]. cbn [ascii_rstrip] in IH. now rewrite IH.
Qed.

Lemma ascii_lstrip_starts_clean (s : string) : starts_clean (ascii_lstrip s) = true.
Proof.
  induction s as [|c s IH]; [reflexivity|]. cbn [ascii_lstrip].
  destruct (is_space c) eqn:E; [exact IH|]. cbn. now rewrite E.
Qed.

Lemma ascii_rstrip_starts_clean (s : string) :
  starts_clean s = true -> starts_clean (ascii_rstrip s) = true.
Proof.
  destruct s as [|c s]; [reflexivity|]. cbn [starts_clean ascii_rstrip]. intros H.
  destruct (ascii_rstrip s); [|exact H].
  destruct (is_space c) eqn:E; [reflexivity|]. cbn [starts_clean]. now rewrite E.
Qed.

Lemma ascii_lstrip_clean (s : string) : starts_clean s = true -> ascii_lstrip s = s.
Proof.
  destruct s as [|c s]; [reflexivity|]. cbn [starts_clean ascii_lstrip].
  now destruct (is_space c).
Qed.

Lemma ascii_strip_idempotent (s : string) : ascii_strip (ascii_strip s) = ascii_strip s.
Proof.
  unfold ascii_strip.
  rewrite (ascii_lstrip_clean _ (ascii_rstrip_starts_clean _ (ascii_lstrip_starts_clean s))).
  apply ascii_rstrip_idempotent.
Qed.

Lemma ascii_lstrip_length (s : string) :
  String.length (ascii_lstrip s) <= String.length s.
Proof.
  induction s as [|c s IH]; [apply Nat.le_refl|]. cbn [ascii_lstrip].
  destruct (is_space c); cbn [String.length]; lia.
Qed.

Lemma ascii_rstrip_length (s : string) :
  String.length (ascii_rstrip s) <= String.length s.
Proof.
  induction s as [|c s IH]; [apply Nat.le_refl|]. cbn [ascii_rstrip].
  destruct (ascii_rstrip s); [destruct (is_space c)|]; cbn [String.length] in *; lia.
Qed.

Lemma ascii_strip_length (s : string) :
  String.length (ascii_strip s) <= String.length s.
Proof.
  unfold ascii_strip.
  pose proof (ascii_rstrip_length (ascii_lstrip s)). pose proof (ascii_lstrip_length s). lia.
Qed.

Lemma span_split (p : ascii -> bool) (s : string) :
  s = (fst (span p s) ++ snd (span p s))%string.
Proof.
  induction s as [|c s IH]; [reflexivity|]. cbn [span].
  destruct (p c); [|reflexivity].
  destruct (span p s) as [a b]. cbn [fst snd append] in *. now rewrite <- IH.
Qed.

Lemma span_digits (digits rest : string) (c : ascii) :
  all_chars is_digit digits = true -> is_digit c = false ->
  span is_digit (digits ++ String c rest) = (digits, String c rest).
Proof.
  intros Hd Hc. induction digits as [|d digits IH]; cbn [append span].
  - now rewrite Hc.
  - cbn in Hd. apply andb_true_iff in Hd as [H1 H2]. now rewrite H1, (IH H2).
Qed.

Lemma lower_char_is_ascii (c : ascii) : is_ascii_char (lower_char c) = is_ascii_char c.
Proof. destruct c as [[] [] [] [] [] [] [] []]; reflexivity. Qed.

Lemma ascii_lower_is_ascii (s : string) : is_ascii (ascii_lower s) = is_ascii s.
Proof.
  induction s as [|c s IH]; [reflexivity|]. cbn [ascii_lower is_ascii].
  now rewrite lower_char_is_ascii, IH.
Qed.

End AsciiTables.

(** The tables of every interpreter on ASCII text: A to Z have a lower
    case, the blanks are TAB, LF, VT, FF, CR, FS, GS, RS, US and the space,
    the digits are 0 to 9. *)
#[export] Instance ascii_unicode : PyStr.Unicode :=
  {| PyStr.lower := PyStr.ascii_lower;
     PyStr.strip := PyStr.ascii_strip;
     PyStr.span_decimal := PyStr.span PyStr.is_digit;
     PyStr.lower_ascii := fun s _ => eq_refl;
     PyStr.strip_ascii := fun s _ => eq_refl;
     PyStr.strip_shorter := ascii_strip_length;
     PyStr.strip_stripped := ascii_strip_idempotent;
     PyStr.span_decimal_split := span_split PyStr.is_digit;
     PyStr.span_decimal_ascii :=
       fun digits c rest Hd _ Hc => span_digits digits rest c Hd Hc |}.

(** On ASCII text in the goal, [lower] and [strip] are replaced by their
    values. *)
Ltac ascii_tables :=
  repeat match goal with
         | |- context [PyStr.lower ?s] =>
             rewrite (PyStr.lower_ascii s) by reflexivity;
             let v := eval vm_compute in (PyStr.ascii_lower s) in
             change (PyStr.ascii_lower s) with v
         | |- context [PyStr.strip ?s] =>
             rewrite (PyStr.strip_ascii s) by reflexivity;
             let v := eval vm_compute in (PyStr.ascii_strip s) in
             change (PyStr.ascii_strip s) with v
         end.

(** [fix_question] on a question of ASCII text, up to the markup
    cleanup. *)
Ltac run_fix_question :=
  unfold FixAllExams.fix_question;
  repeat (progress (cbn -[FixAllExams.fix_latex];
                    unfold FixAllExams.value_is_final, FixAllExams.value_equals,
                      FixAllExams.value_contains, FixAllExams.fix_mcq_text_as_key,
                      FixAllExams.fix_mcq_correct_key, FixAllExams.correct_lower,
                      FixAllExams.mcq_from_answer_parts;
                    ascii_tables)).

(** ** The text normaliser *)

Section TextNormalizer.

Import PyStr FixAllExams.

Lemma append_assoc (a b c : string) : ((a ++ b) ++ c = a ++ (b ++ c))%string.
Proof. induction a as [|x a IH]; simpl; [reflexivity|now rewrite IH]. Qed.

Lemma append_empty_r (a : string) : (a ++ EmptyString)%string = a.
Proof. induction a as [|x a IH]; simpl; [reflexivity|now rewrite IH]. Qed.

Lemma all_chars_app (p : ascii -> bool) (a b : string) :
  all_chars p (a ++ b) = all_chars p a && all_chars p b.
Proof.
  induction a as [|x a IH]; simpl; [reflexivity|]. now rewrite IH, andb_assoc.
Qed.

(** A matcher that fails wherever the text starts with a plain character
    leaves plain text alone. *)
Lemma re_sub_from_plain_prefix (m : string -> option (string * nat)) :
  (forall c s, Spec.plain_char c = true -> m (String c s) = None) ->
  forall pre rest,
    Spec.plain pre = true ->
    re_sub_from m 0 (pre ++ rest) = (pre ++ re_sub_from m 0 rest)%string.
Proof.
  intros Hm pre rest. induction pre as [|c pre IH]; intros Hp; [reflexivity|].
  cbn in Hp. apply andb_true_iff in Hp as [Hc Hp].
  cbn [append re_sub_from]. rewrite (Hm _ _ Hc), (IH Hp). reflexivity.
Qed.

Lemma re_sub_plain (m : string -> option (string * nat)) :
  (forall c s, Spec.plain_char c = true -> m (String c s) = None) ->
  forall s, Spec.plain s = true -> re_sub m s = s.
Proof.
  intros Hm s Hp. unfold re_sub.
  rewrite <- (append_empty_r s) at 1.
  rewrite (re_sub_from_plain_prefix m Hm s EmptyString Hp). apply append_empty_r.
Qed.

Lemma re_sub_from_skip (m : string -> option (string * nat)) (a b : string) :
  re_sub_from m (String.length a) (a ++ b) = re_sub_from m 0 b.
Proof. induction a as [|x a IH]; [reflexivity|exact IH]. Qed.

Lemma replace_plain (old new : string) (c0 : ascii) (old' : string) :
  old = String c0 old' -> Spec.plain_char c0 = false ->
  forall s, Spec.plain s = true -> replace old new s = s.
Proof.
  intros -> Hc0 s. unfold replace. induction s as [|c s IH]; intros Hp; [reflexivity|].
  cbn in Hp. apply andb_true_iff in Hp as [Hc Hp].
  cbn [replace_from startswith].
  destruct (Ascii.eqb c0 c) eqn:E.
  - apply Ascii.eqb_eq in E. subst. congruence.
  - cbn [andb]. now rewrite (IH Hp).
Qed.

Lemma match_ordinal_plain {U : Unicode} (c : ascii) (s : string) :
  Spec.plain_char c = true -> match_ordinal (String c s) = None.
Proof.
  intros H. unfold match_ordinal. cbn [after_prefix].
  unfold Spec.plain_char in H. apply andb_true_iff in H as [H _].
  rewrite Ascii.eqb_sym. now destruct (Ascii.eqb c "$").
Qed.

Lemma match_underline_plain {U : Unicode} (c : ascii) (s : string) :
  Spec.plain_char c = true -> match_underline (String c s) = None.
Proof.
  intros H. unfold match_underline. cbn [after_prefix].
  unfold Spec.plain_char in H. apply andb_true_iff in H as [H _].
  rewrite Ascii.eqb_sym. now destruct (Ascii.eqb c "$").
Qed.

Lemma digits_plain (digits : string) :
  all_chars is_digit digits = true -> Spec.plain digits = true.
Proof.
  unfold Spec.plain.
  induction digits as [|d digits IH]; [reflexivity|]. cbn [all_chars]. intros H.
  apply andb_true_iff in H as [H1 H2]. rewrite (IH H2), andb_true_r.
  unfold Spec.plain_char.
  destruct (Ascii.eqb d "$") eqn:E1; [apply Ascii.eqb_eq in E1; now subst|].
  destruct (Ascii.eqb d "\") eqn:E2; [apply Ascii.eqb_eq in E2; now subst|].
  reflexivity.
Qed.

Lemma ordinal_suffix_cases (suffix : string) :
  mem suffix Spec.ordinal_suffixes = true ->
  suffix = "th" \/ suffix = "st" \/ suffix = "nd" \/ suffix = "rd".
Proof.
  unfold Spec.ordinal_suffixes. cbn [mem]. rewrite !orb_true_iff, !String.eqb_eq.
  intuition discriminate.
Qed.

Lemma match_ordinal_markup {U : Unicode} (digits suffix post : string) :
  Spec.numeral digits = true -> mem suffix Spec.ordinal_suffixes = true ->
  match_ordinal (Spec.ordinal_markup digits suffix ++ post)
  = Some ((digits ++ suffix)%string, String.length digits + 7).
Proof.
  intros Hn Hs. unfold Spec.numeral in Hn. apply andb_true_iff in Hn as [Hne Hd].
  unfold match_ordinal, Spec.ordinal_markup.
  cbn [append after_prefix Ascii.eqb Bool.eqb].
  rewrite append_assoc. cbn [append].
  rewrite (span_decimal_ascii digits "^" _ Hd eq_refl eq_refl), Hne.
  destruct (ordinal_suffix_cases suffix Hs) as [-> | [-> | [-> | ->]]]; reflexivity.
Qed.

Lemma length_append (a b : string) :
  String.length (a ++ b) = String.length a + String.length b.
Proof. induction a as [|x a IH]; simpl; [reflexivity|now rewrite IH]. Qed.

(** Step 1 on one ordinal: the markup is replaced and the scan goes on
    behind it. *)
Lemma re_sub_ordinal_markup {U : Unicode} (pre digits suffix post : string) :
  Spec.plain pre = true ->
  Spec.numeral digits = true -> mem suffix Spec.ordinal_suffixes = true ->
  re_sub match_ordinal (pre ++ Spec.ordinal_markup digits suffix ++ post)
  = (pre ++ digits ++ suffix ++ re_sub match_ordinal post)%string.
Proof.
  intros Hpre Hn Hs. unfold re_sub.
  rewrite (re_sub_from_plain_prefix _ match_ordinal_plain _ _ Hpre). f_equal.
  pose proof (match_ordinal_markup digits suffix post Hn Hs) as Hm.
  assert (Hshape : (Spec.ordinal_markup digits suffix ++ post)%string
                   = String "$" ((digits ++ "^{" ++ suffix ++ "}$") ++ post)).
  { reflexivity. }
  rewrite Hshape in Hm |- *. cbn [re_sub_from]. rewrite Hm.
  rewrite append_assoc. do 2 f_equal.
  replace (String.length digits + 7 - 1)
    with (String.length (digits ++ "^{" ++ suffix ++ "}$")).
  - apply re_sub_from_skip.
  - rewrite !length_append.
    destruct (ordinal_suffix_cases suffix Hs) as [-> | [-> | [-> | ->]]]; simpl; lia.
Qed.

Lemma suffix_plain (suffix : string) :
  mem suffix Spec.ordinal_suffixes = true -> Spec.plain suffix = true.
Proof.
  intros Hs. destruct (ordinal_suffix_cases suffix Hs) as [-> | [-> | [-> | ->]]];
    reflexivity.
Qed.

Lemma mem_truthy_text {U : Unicode} (subject_lower text : string) :
  mem subject_lower LANGUAGE_SUBJECTS = true -> truthy text = true ->
  clean_latex_for_language text subject_lower
  = replace "\ldots" "..."
      (replace "$\ldots$" "..."
         (re_sub match_underline (re_sub match_ordinal text))).
Proof.
  intros Hm Ht. unfold clean_latex_for_language. now rewrite Hm, Ht.
Qed.

Lemma truthy_app_markup (pre digits suffix post : string) :
  truthy (pre ++ Spec.ordinal_markup digits suffix ++ post) = true.
Proof. destruct pre; reflexivity. Qed.

Lemma exam_subject_ascii {U : Unicode} (subject : option string) :
  is_ascii (or_empty subject) = true ->
  exam_subject subject = ascii_strip (ascii_lower (or_empty subject)).
Proof.
  intros H. unfold exam_subject. rewrite (lower_ascii _ H).
  apply strip_ascii. now rewrite ascii_lower_is_ascii.
Qed.

(** The other two steps of the cleanup, on text of a language exam. *)
Example clean_latex_underline_and_ellipsis :
  clean_latex_for_language "x $\underline{a\:b \foo c}$ y" "english" = "x a b  c y"
  /\ clean_latex_for_language "$\ldots$ et \ldots" "français" = "... et ..."
  /\ clean_latex_for_language "$\underline{}$ $12^{e}$ $^{th}$" "english"
     = "$\underline{}$ $12^{e}$ $^{th}$".
Proof. repeat split. Qed.

(** C7.  The cleanup rewrites nothing for a subject that is not (as it
    is spelt, lower case) in [LANGUAGE_SUBJECTS], whatever the text; the
    quantitative subjects are all outside that set, and so is a subject
    of neither set.  For a subject of the set, ordinal markup
    [$N^{th|st|nd|rd}$] within text that has no other markup becomes the
    plain ordinal, [$9^{th}$] becoming [9th].  The subject [main] passes
    is the exam's subject in lower case, trimmed. *)
Theorem clean_latex_for_language_scope {U : Unicode} :
  (forall text subject_lower,
     mem subject_lower LANGUAGE_SUBJECTS = false ->
     clean_latex_for_language text subject_lower = text)
  /\ (forall subject_lower pre digits suffix post,
        mem subject_lower LANGUAGE_SUBJECTS = true ->
        Spec.plain pre = true -> Spec.plain post = true ->
        Spec.numeral digits = true -> mem suffix Spec.ordinal_suffixes = true ->
        clean_latex_for_language
          (pre ++ Spec.ordinal_markup digits suffix ++ post) subject_lower
        = (pre ++ digits ++ suffix ++ post)%string)
  /\ (forall subject_lower,
        mem subject_lower LANGUAGE_SUBJECTS = true ->
        clean_latex_for_language "$9^{th}$" subject_lower = "9th")
  /\ forallb (fun subject => negb (mem subject LANGUAGE_SUBJECTS)) MATH_SUBJECTS = true
  /\ clean_latex_for_language "$9^{th}$" "English" = "$9^{th}$"
  /\ clean_latex_for_language "$9^{th}$" "latin" = "$9^{th}$"
  /\ clean_latex_for_language "$9^{th}$" (exam_subject (Some " English ")) = "9th"
  /\ clean_latex_for_language "$9^{th}$" (exam_subject (Some "Physique")) = "$9^{th}$"
  /\ clean_latex_for_language "$9^{th}$" (exam_subject None) = "$9^{th}$".
Proof.
  assert (Hout : forall text subject_lower,
            mem subject_lower LANGUAGE_SUBJECTS = false ->
            clean_latex_for_language text subject_lower = text).
  { intros text subject_lower H. unfold clean_latex_for_language.
    now rewrite H, orb_true_r. }
  assert (Hin : forall subject_lower pre digits suffix post,
            mem subject_lower LANGUAGE_SUBJECTS = true ->
            Spec.plain pre = true -> Spec.plain post = true ->
            Spec.numeral digits = true -> mem suffix Spec.ordinal_suffixes = true ->
            clean_latex_for_language
              (pre ++ Spec.ordinal_markup digits suffix ++ post) subject_lower
            = (pre ++ digits ++ suffix ++ post)%string).
  { intros subject_lower pre digits suffix post Hm Hpre Hpost Hn Hs.
    rewrite (mem_truthy_text _ _ Hm (truthy_app_markup pre digits suffix post)).
    rewrite (re_sub_ordinal_markup pre digits suffix post Hpre Hn Hs).
    rewrite (re_sub_plain _ match_ordinal_plain post Hpost).
    assert (Hplain : Spec.plain (pre ++ digits ++ suffix ++ post) = true).
    { unfold Spec.plain in *. rewrite !all_chars_app, Hpre, Hpost.
      unfold Spec.numeral in Hn. apply andb_true_iff in Hn as [_ Hd].
      pose proof (digits_plain digits Hd) as Hdp.
      pose proof (suffix_plain suffix Hs) as Hsp.
      unfold Spec.plain in *. now rewrite Hdp, Hsp. }
    rewrite (re_sub_plain _ match_underline_plain _ Hplain).
    rewrite (replace_plain "$\ldots$" "..." "$" "\ldots$" eq_refl eq_refl _ Hplain).
    apply (replace_plain "\ldots" "..." "\" "ldots" eq_refl eq_refl _ Hplain). }
  assert (Hnine : forall subject_lower,
            mem subject_lower LANGUAGE_SUBJECTS = true ->
            clean_latex_for_language "$9^{th}$" subject_lower = "9th").
  { intros subject_lower Hm.
    exact (Hin subject_lower EmptyString "9" "th" EmptyString Hm
             eq_refl eq_refl eq_refl eq_refl). }
  split; [exact Hout|]. split; [exact Hin|]. split; [exact Hnine|].
  split; [reflexivity|].
  split; [exact (Hout _ "English" eq_refl)|].
  split; [exact (Hout _ "latin" eq_refl)|].
  rewrite !exam_subject_ascii by reflexivity.
  split; [apply Hnine; reflexivity|].
  split; apply Hout; reflexivity.
Qed.

(** The cleanup on [$9^{th}$] and on a sentence around [$21^{st}$], for
    a quantitative subject and for a language subject. *)
Lemma clean_latex_for_language_scope_witness :
  clean_latex_for_language "$9^{th}$" "mathématiques" = "$9^{th}$"
  /\ clean_latex_for_language "$9^{th}$" "english" = "9th"
  /\ clean_latex_for_language "Le $21^{st}$ jour" "français" = "Le 21st jour".
Proof.
  destruct clean_latex_for_language_scope as (Hout & Hin & Hnine & _).
  split; [|split].
  - exact (Hout "$9^{th}$" "mathématiques" eq_refl).
  - exact (Hnine "english" eq_refl).
  - exact (Hin "français" "Le " "21" "st" " jour" eq_refl eq_refl eq_refl eq_refl eq_refl).
Defined.

End TextNormalizer.

(** ** Answer inference and key correction *)

Section AnswerInference.

Import PyStr FixAllExams.

Lemma first_key_first_match (p : string -> bool) (items : list (string * option_value))
    (key : string) :
  Spec.first_match p items key -> first_key p items = Some key.
Proof.
  intros (before & val & after & -> & Hp & Hno).
  induction before as [|[k v] before IH]; cbn [app first_key].
  - now rewrite Hp.
  - destruct v as [v|j].
    + rewrite (Hno k v (or_introl eq_refl)).
      apply IH. intros k' v' Hin. apply (Hno k' v'). now right.
    + apply IH. intros k' v' Hin. apply (Hno k' v'). now right.
Qed.

Lemma first_key_no_value (p : string -> bool) (items : list (string * option_value)) :
  Spec.no_value p items -> first_key p items = None.
Proof.
  induction items as [|[k v] items IH]; intros Hno; [reflexivity|].
  cbn [first_key]. destruct v as [v|j].
  - rewrite (Hno k v (or_introl eq_refl)).
    apply IH. intros k' v' Hin. apply (Hno k' v'). now right.
  - apply IH. intros k' v' Hin. apply (Hno k' v'). now right.
Qed.

Lemma first_key_some (p : string -> bool) (items : list (string * option_value)) :
  forall key val, In (key, OVStr val) items -> p val = true ->
  exists key', first_key p items = Some key' /\ In key' (map fst items).
Proof.
  induction items as [|[k v] items IH]; intros key val Hin Hp; [contradiction|].
  cbn [first_key map fst]. destruct Hin as [[= -> ->]|Hin].
  - rewrite Hp. exists key. split; [reflexivity|now left].
  - destruct v as [v|j].
    + destruct (p v).
      * exists k. split; [reflexivity|now left].
      * destruct (IH key val Hin Hp) as (key' & H1 & H2). exists key'. split; [exact H1|now right].
    + destruct (IH key val Hin Hp) as (key' & H1 & H2). exists key'. split; [exact H1|now right].
Qed.

(** *** The key-correction pass *)

Lemma fix_mcq_correct_key_unfold {U : Unicode} (question : Question) (correct : string)
    (items : list (string * option_value)) :
  q_correct question = Some (CorrectStr correct) -> truthy correct = true ->
  options_dict (q_options question) = Some items ->
  Spec.is_key correct items = false ->
  fix_mcq_correct_key question
  = match first_key (Spec.exact_match correct) items with
    | Some key => Ok (true, set_correct key question)
    | None =>
        match first_key (Spec.substring_match correct) items with
        | Some key => Ok (true, set_correct key question)
        | None => Ok (false, question)
        end
    end.
Proof.
  intros Hc Ht Ho Hk. unfold fix_mcq_correct_key. rewrite Hc, Ho.
  cbn [correct_truthy correct_lower bind]. rewrite Ht. cbn [negb].
  unfold Spec.is_key in Hk. rewrite Hk. reflexivity.
Qed.

(** C5.  On an MCQ whose [correct] is a non-empty text that is not, letter
    case aside, one of the option keys, the key-correction pass writes the
    key of the first option, in iteration order, whose value is that text;
    an option whose value merely contains the text is chosen only when no
    value is the text, and then again the first such.  So when [correct]
    is, letter case aside, the value of some option, [correct] is a key of
    [options] after the pass. *)
Theorem fix_mcq_correct_key_prefers_exact {U : Unicode} (question : Question) (correct : string)
    (items : list (string * option_value))
    (Hc : q_correct question = Some (CorrectStr correct))
    (Ht : truthy correct = true)
    (Ho : options_dict (q_options question) = Some items)
    (Hk : Spec.is_key correct items = false) :
  (forall key,
     Spec.first_match (Spec.exact_match correct) items key ->
     fix_mcq_correct_key question = Ok (true, set_correct key question))
  /\ (forall key,
        Spec.no_value (Spec.exact_match correct) items ->
        Spec.first_match (Spec.substring_match correct) items key ->
        fix_mcq_correct_key question = Ok (true, set_correct key question))
  /\ (Spec.no_value (Spec.exact_match correct) items ->
      Spec.no_value (Spec.substring_match correct) items ->
      fix_mcq_correct_key question = Ok (false, question))
  /\ (forall k val,
        In (k, OVStr val) items -> lower val = lower correct ->
        exists key question',
          fix_mcq_correct_key question = Ok (true, question')
          /\ q_correct question' = Some (CorrectStr key)
          /\ In key (map fst items)).
Proof.
  rewrite (fix_mcq_correct_key_unfold question correct items Hc Ht Ho Hk).
  split; [|split; [|split]].
  - intros key Hfirst. now rewrite (first_key_first_match _ _ _ Hfirst).
  - intros key Hno Hfirst.
    now rewrite (first_key_no_value _ _ Hno), (first_key_first_match _ _ _ Hfirst).
  - intros Hno1 Hno2.
    now rewrite (first_key_no_value _ _ Hno1), (first_key_no_value _ _ Hno2).
  - intros k val Hin Hlow.
    assert (Hex : Spec.exact_match correct val = true).
    { unfold Spec.exact_match. rewrite Hlow. apply String.eqb_refl. }
    destruct (first_key_some _ items k val Hin Hex) as (key & Hfk & Hkey).
    exists key, (set_correct key question). rewrite Hfk. now repeat split.
Qed.

(** The pass on [Samples.text_as_key_question]: option a contains the text,
    options b and c are the text; b is written.  On
    [Samples.part_of_text_question] no option is the text and all three
    contain it; a is written. *)
Lemma fix_mcq_correct_key_prefers_exact_witness :
  fix_mcq_correct_key Samples.text_as_key_question
  = Ok (true, set_correct "b" Samples.text_as_key_question)
  /\ fix_mcq_correct_key Samples.part_of_text_question
     = Ok (true, set_correct "a" Samples.part_of_text_question).
Proof.
  split.
  - refine (proj1 (fix_mcq_correct_key_prefers_exact (U := ascii_unicode)
                     Samples.text_as_key_question "COLOUR"
                     [("a", OVStr "Colours"); ("b", OVStr "Colour"); ("c", OVStr " colour ")]
                     eq_refl eq_refl eq_refl eq_refl) "b" _).
    exists [("a", OVStr "Colours")], "Colour", [("c", OVStr " colour ")].
    split; [reflexivity|]. split; [reflexivity|].
    intros key val [[= <- <-]|[]]. reflexivity.
  - refine (proj1 (proj2 (fix_mcq_correct_key_prefers_exact (U := ascii_unicode)
                            Samples.part_of_text_question "Lou"
                            [("a", OVStr "Colours"); ("b", OVStr "Colour");
                             ("c", OVStr " colour ")]
                            eq_refl eq_refl eq_refl eq_refl)) "a" _ _).
    + intros key val [[= <- <-]|[[= <- <-]|[[= <- <-]|[]]]]; reflexivity.
    + exists [], "Colours", [("b", OVStr "Colour"); ("c", OVStr " colour ")].
      split; [reflexivity|]. split; [reflexivity|]. intros key val [].
Defined.

(** *** Inference of a missing [correct] *)

Lemma first_key_ext (p q : string -> bool) (items : list (string * option_value)) :
  (forall val, p val = q val) -> first_key p items = first_key q items.
Proof.
  intros H. induction items as [|[k [v|j]] items IH]; cbn [first_key];
    [reflexivity| |exact IH].
  now rewrite H, IH.
Qed.

Lemma value_is_final_exact {U : Unicode} (final_answer val : string) :
  value_is_final (strip (lower final_answer)) val = Spec.exact_match final_answer val.
Proof.
  unfold value_is_final, Spec.exact_match.
  rewrite (String.eqb_sym (strip (lower final_answer))). apply orb_diag.
Qed.

Lemma option_keys_truthy (s : string) : mem s option_keys = true -> truthy s = true.
Proof. destruct s; [discriminate|reflexivity]. Qed.

Lemma starts_with_key_separator (s : string) :
  mem s option_keys = false -> starts_with_key s = Spec.key_then_separator s.
Proof.
  destruct s as [|c0 [|c1 rest]]; [reflexivity| |reflexivity].
  unfold starts_with_key, Spec.key_then_separator.
  intros H. rewrite andb_true_r.
  destruct (char_in c0 "abcdef") eqn:E; [|reflexivity].
  cbn [char_in] in E. cbn [mem option_keys String.eqb] in H.
  repeat match type of E with
         | (Ascii.eqb c0 ?x || _)%bool = true =>
             destruct (Ascii.eqb c0 x); [discriminate H|cbn [orb] in E, H]
         end.
  discriminate.
Qed.

Lemma q_correct_fix_latex {U : Unicode} (subject_lower : string) (question : Question) :
  q_correct (fix_latex subject_lower question) = q_correct question.
Proof. unfold fix_latex. now destruct (mem subject_lower LANGUAGE_SUBJECTS). Qed.

Lemma q_correct_fix_type {U : Unicode} (question : Question) :
  q_correct (fst (fix_type question)) = q_correct question.
Proof. unfold fix_type. now destruct (q_type question). Qed.

(** C4, as the code has it.  For an MCQ without [correct] and with a
    non-empty [final_answer], Fix 1 writes: the lower-cased answer when it
    is a bare letter of a..f; else its first letter when that is a letter of
    a..f followed by a separator; else the key of the first option whose
    value is the answer, letter case and surrounding blanks aside.  When no
    value is the answer, nothing is taken from [final_answer], whether or
    not some value contains it, and [answer_parts] is tried.  On the
    options a: Colour, b: Colour, c: Color, d: Colours with the answer
    Color, [correct] becomes c. *)
Theorem mcq_correct_from_final_answer {U : Unicode} (question : Question) (final_answer : string)
    (answer_parts : option (list answer_part))
    (Hc : correct_truthy (q_correct question) = false)
    (Hne : truthy final_answer = true) :
  let fa_lower := strip (lower final_answer) in
  let inferred :=
    fix_mcq_missing_correct "multiple_choice" (q_correct question) final_answer
      answer_parts question in
  (mem fa_lower option_keys = true -> inferred = set_correct fa_lower question)
  /\ (mem fa_lower option_keys = false -> Spec.key_then_separator fa_lower = true ->
      inferred = set_correct (first_char fa_lower) question)
  /\ (forall items key,
        mem fa_lower option_keys = false -> Spec.key_then_separator fa_lower = false ->
        options_dict (q_options question) = Some items ->
        Spec.first_match (Spec.exact_match final_answer) items key ->
        truthy key = true ->
        inferred = set_correct key question)
  /\ (forall items,
        mem fa_lower option_keys = false -> Spec.key_then_separator fa_lower = false ->
        options_dict (q_options question) = Some items ->
        Spec.no_value (Spec.exact_match final_answer) items ->
        inferred = mcq_from_answer_parts answer_parts question)
  /\ (forall subject_lower,
        exists question',
          fix_question Samples.colour_question subject_lower = Ok question'
          /\ q_correct question' = Some (CorrectStr "c")).
Proof.
  intros fa_lower inferred. subst inferred.
  unfold fix_mcq_missing_correct. cbn [type_is String.eqb Ascii.eqb Bool.eqb andb].
  rewrite Hc. cbn [negb]. unfold mcq_from_final_answer. rewrite Hne. fold fa_lower.
  assert (Hset : forall key, truthy key = true ->
            mcq_from_answer_parts answer_parts (set_correct key question)
            = set_correct key question).
  { intros key Hk. unfold mcq_from_answer_parts. cbn [q_correct set_correct correct_truthy].
    now rewrite Hk. }
  split; [|split; [|split; [|split]]].
  - intros Hm. rewrite Hm. apply Hset. now apply option_keys_truthy.
  - intros Hm Hs. rewrite Hm, (starts_with_key_separator _ Hm), Hs. apply Hset.
    destruct fa_lower as [|c0 rest]; [discriminate Hs|reflexivity].
  - intros items key Hm Hs Ho Hfirst Hk.
    rewrite Hm, (starts_with_key_separator _ Hm), Hs, Ho.
    unfold fa_lower.
    rewrite (first_key_ext _ _ items (value_is_final_exact final_answer)).
    rewrite (first_key_first_match _ _ _ Hfirst). now apply Hset.
  - intros items Hm Hs Ho Hno.
    rewrite Hm, (starts_with_key_separator _ Hm), Hs, Ho.
    unfold fa_lower.
    rewrite (first_key_ext _ _ items (value_is_final_exact final_answer)).
    now rewrite (first_key_no_value _ _ Hno).
  - intros subject_lower.
    exists (fix_latex subject_lower (set_correct "c" Samples.colour_question)).
    split; [|now rewrite q_correct_fix_latex].
    run_fix_question. reflexivity.
Qed.

(** Fix 1 on an answer that is the letter b followed by a parenthesis. *)
Lemma mcq_correct_from_final_answer_witness :
  fix_mcq_missing_correct "multiple_choice" None "B) Colour" None
    (Samples.question_with (Some "multiple_choice") (Some Samples.colour_options)
       None (Some "B) Colour"))
  = set_correct "b"
      (Samples.question_with (Some "multiple_choice") (Some Samples.colour_options)
         None (Some "B) Colour")).
Proof.
  exact (proj1 (proj2 (mcq_correct_from_final_answer
                         (Samples.question_with (Some "multiple_choice")
                            (Some Samples.colour_options) None (Some "B) Colour"))
                         "B) Colour" None eq_refl eq_refl))
           eq_refl eq_refl).
Defined.

(** C4 as stated fails: the answer Colou is contained in the value of
    option a and is the value of no option; Fix 1 and the whole of
    [fix_question] leave [correct] unset. *)
Lemma final_answer_substring_not_matched :
  q_correct Samples.partial_answer_question = None
  /\ mem (strip (lower "Colou")) option_keys = false
  /\ Spec.key_then_separator (strip (lower "Colou")) = false
  /\ first_key (Spec.exact_match "Colou")
       [("a", OVStr "Colour"); ("b", OVStr "Colour"); ("c", OVStr "Color");
        ("d", OVStr "Colours")] = None
  /\ first_key (Spec.substring_match "Colou")
       [("a", OVStr "Colour"); ("b", OVStr "Colour"); ("c", OVStr "Color");
        ("d", OVStr "Colours")] = Some "a"
  /\ fix_mcq_missing_correct "multiple_choice" None "Colou" None
       Samples.partial_answer_question
     = Samples.partial_answer_question
  /\ fix_question Samples.partial_answer_question "english"
     = Ok Samples.partial_answer_question.
Proof. repeat split. Qed.

(** C6.  With a non-empty [correct] at the start of [fix_question], the
    three inference passes (Fix 1, Fix 3, Fix 4) return the question they
    are given, whatever its type, [final_answer] and [answer_parts]; what
    [fix_question] then does is the resolution of a missing type, the
    key-correction pass and the markup cleanup. *)
Theorem inference_keeps_correct {U : Unicode} (question : Question)
    (Hc : correct_truthy (q_correct question) = true) :
  (forall qtype final_answer answer_parts question',
     fix_mcq_missing_correct qtype (q_correct question) final_answer answer_parts question'
     = question'
     /\ fix_fill_blank_missing_correct qtype (q_correct question) final_answer answer_parts
          question'
        = question'
     /\ fix_true_false_missing_correct qtype (q_correct question) final_answer question'
        = question')
  /\ (forall subject_lower,
        fix_question question subject_lower
        = (question' <- fix_mcq_text_as_key (snd (fix_type question))
                          (fst (fix_type question)) ;;
           Ok (fix_latex subject_lower question')))
  /\ (forall subject_lower question',
        fix_question question subject_lower = Ok question' ->
        type_is (snd (fix_type question)) "multiple_choice" = false ->
        q_correct question' = q_correct question).
Proof.
  assert (Hpasses : forall qtype final_answer answer_parts question',
            fix_mcq_missing_correct qtype (q_correct question) final_answer answer_parts
              question' = question'
            /\ fix_fill_blank_missing_correct qtype (q_correct question) final_answer
                 answer_parts question' = question'
            /\ fix_true_false_missing_correct qtype (q_correct question) final_answer
                 question' = question').
  { intros qtype final_answer answer_parts question'.
    unfold fix_mcq_missing_correct, fix_fill_blank_missing_correct,
      fix_true_false_missing_correct.
    rewrite Hc. cbn [negb]. rewrite !andb_false_r. now repeat split. }
  assert (Hfix : forall subject_lower,
            fix_question question subject_lower
            = (question' <- fix_mcq_text_as_key (snd (fix_type question))
                              (fst (fix_type question)) ;;
               Ok (fix_latex subject_lower question'))).
  { intros subject_lower. unfold fix_question.
    destruct (fix_type question) as [q1 qtype]. cbn [fst snd].
    destruct (Hpasses qtype (strip (or_empty (q_final_answer question)))
                (q_answer_parts question) q1) as (-> & _ & _).
    destruct (fix_mcq_text_as_key qtype q1) as [q2|e]; [|reflexivity].
    cbn [bind].
    destruct (Hpasses qtype (strip (or_empty (q_final_answer question)))
                (q_answer_parts question) q2) as (_ & -> & ->).
    reflexivity. }
  split; [exact Hpasses|split; [exact Hfix|]].
  intros subject_lower question' Hq Hty. rewrite Hfix in Hq.
  unfold fix_mcq_text_as_key in Hq. rewrite Hty in Hq. cbn [andb bind] in Hq.
  injection Hq as <-. now rewrite q_correct_fix_latex, q_correct_fix_type.
Qed.

(** The inference passes on a true/false question that already has its
    answer, and [fix_question] on it. *)
Lemma inference_keeps_correct_witness :
  fix_true_false_missing_correct "true_false" (Some (CorrectStr "faux")) "Vrai"
    (Samples.question_with (Some "true_false") None (Some (CorrectStr "faux"))
       (Some "Vrai"))
  = Samples.question_with (Some "true_false") None (Some (CorrectStr "faux")) (Some "Vrai")
  /\ q_correct (Samples.question_with (Some "true_false") None (Some (CorrectStr "faux"))
                  (Some "Vrai"))
     = Some (CorrectStr "faux").
Proof.
  pose (question := Samples.question_with (Some "true_false") None
                      (Some (CorrectStr "faux")) (Some "Vrai")).
  destruct (inference_keeps_correct question eq_refl) as (Hpasses & _ & Hwhole).
  split.
  - exact (proj2 (proj2 (Hpasses "true_false" "Vrai" None question))).
  - exact (Hwhole "english" question eq_refl eq_refl).
Defined.

(** C10.  When the type of the question, once a missing type is resolved,
    is none of multiple_choice, fill_blank and true_false, [fix_question]
    returns, and returns a question with the [correct] it was given: only
    the type, if it was missing, and the text members may differ. *)
Theorem other_types_keep_correct {U : Unicode} (question : Question) (subject_lower : string)
    (Hty : mem (snd (fix_type question)) Spec.inferred_types = false) :
  fix_question question subject_lower
  = Ok (fix_latex subject_lower (fst (fix_type question)))
  /\ q_correct (fix_latex subject_lower (fst (fix_type question))) = q_correct question.
Proof.
  split; [|now rewrite q_correct_fix_latex, q_correct_fix_type].
  unfold fix_question. destruct (fix_type question) as [q1 qtype]. cbn [fst snd] in *.
  unfold Spec.inferred_types in Hty. cbn [mem] in Hty.
  apply orb_false_iff in Hty as [Hmc Hty].
  apply orb_false_iff in Hty as [Hfb Hty].
  apply orb_false_iff in Hty as [Htf _].
  unfold fix_mcq_missing_correct, fix_mcq_text_as_key, fix_fill_blank_missing_correct,
    fix_true_false_missing_correct, type_is.
  rewrite Hmc. cbn [andb bind]. rewrite Hfb, Htf. reflexivity.
Qed.

(** [fix_question] on a matching question that has a [final_answer] and
    an answer part. *)
Lemma other_types_keep_correct_witness :
  fix_question Samples.matching_question "français"
  = Ok (fix_latex "français" Samples.matching_question)
  /\ q_correct (fix_latex "français" Samples.matching_question)
     = Some (CorrectMap [("1", "b"); ("2", "a")]).
Proof.
  exact (other_types_keep_correct Samples.matching_question "français" eq_refl).
Defined.

End AnswerInference.

(** ** The classifier and the main loop of fix_exam_structure.py *)

Section ClassifierAndMain.

Import PyStr FixExamStructure Classifier Vocabulary.

Lemma all_questions_survivors (l : list Section) :
  List.concat (map questions_or_empty (filter Spec.has_questions l))
  = List.concat (map questions_or_empty l).
Proof.
  induction l as [|sec l IH]; [reflexivity|].
  cbn [filter map List.concat]. unfold Spec.has_questions at 1.
  destruct (questions_or_empty sec) eqn:Hq; cbn [map List.concat app]; rewrite ?Hq, IH;
    reflexivity.
Qed.

Lemma simple_fix_sections_all_questions (l : list Section) :
  all_questions (simple_fix_sections l) = all_questions l.
Proof.
  unfold all_questions. rewrite !flat_map_concat_map.
  destruct l as [|sec rest]; [reflexivity|].
  cbn [simple_fix_sections]. now rewrite simple_fix_loop_survivors, all_questions_survivors.
Qed.

(** X1.  [simple_fix] keeps every question and their order: the
    questions of the sections it returns, read one section after the other,
    are those of the input. *)
Theorem simple_fix_keeps_all_questions (exam : Exam) :
  all_questions (sections_or_empty (simple_fix exam))
  = all_questions (sections_or_empty exam).
Proof.
  unfold simple_fix. rewrite sections_or_empty_set.
  apply simple_fix_sections_all_questions.
Qed.

Lemma In_add_if (cond : bool) (tag x : issue) (issues : list issue) :
  In x (add_if cond tag issues) <-> In x issues \/ (cond = true /\ x = tag).
Proof.
  unfold add_if. destruct cond.
  - rewrite in_app_iff. cbn [In]. intuition congruence.
  - intuition congruence.
Qed.

(** Which condition of [classify_exam] puts which tag in the set. *)
Lemma classify_exam_In {U : Unicode} (i : nat) (exam : Exam) (x : issue) :
  In x (classify_exam i exam)
  <-> match x with
      | too_many => (10 <? List.length (sections_or_empty exam))%nat = true
      | null_titles => existsb title_is_none (sections_or_empty exam) = true
      | long_titles => existsb title_is_long (sections_or_empty exam) = true
      | duplicate_titles => has_duplicates (titles_of (sections_or_empty exam)) = true
      | bare_labels => filter is_bare (titles_of (sections_or_empty exam)) <> []
      | empty_sections => existsb no_questions (sections_or_empty exam) = true
      end.
Proof.
  unfold classify_exam. cbv zeta. rewrite !In_add_if. cbn [In].
  destruct (filter is_bare (titles_of (sections_or_empty exam))) eqn:Hb;
    destruct x; intuition (try discriminate; try congruence).
Qed.

Lemma repaired_no_simple_issue (l : list Section) :
  Forall Spec.repaired l ->
  existsb title_is_none l = false /\ existsb no_questions l = false.
Proof.
  induction 1 as [|sec l [Hq Ht] _ [IH1 IH2]]; [now split|].
  cbn [existsb]. rewrite IH1, IH2. unfold title_is_none, no_questions.
  unfold Spec.has_questions in Hq.
  destruct (section_title sec); [|congruence].
  destruct (questions_or_empty sec); [discriminate|]. now split.
Qed.

Lemma no_simple_issue_repaired (l : list Section) :
  existsb title_is_none l = false -> existsb no_questions l = false ->
  Forall Spec.repaired l.
Proof.
  induction l as [|sec l IH]; intros H1 H2; [constructor|].
  cbn [existsb] in H1, H2. apply orb_false_iff in H1 as [Ht H1].
  apply orb_false_iff in H2 as [Hq H2].
  constructor; [|now apply IH].
  unfold title_is_none in Ht. unfold no_questions in Hq.
  unfold Spec.repaired, Spec.has_questions.
  destruct (section_title sec); [|discriminate].
  destruct (questions_or_empty sec); [discriminate|]. split; congruence.
Qed.

Lemma simple_fix_sections_repaired (l : list Section) :
  Forall Spec.repaired (simple_fix_sections l).
Proof.
  destruct l as [|sec rest]; [constructor|]. apply simple_fix_loop_repaired.
Qed.

Lemma simple_fix_sections_length (l : list Section) :
  List.length (simple_fix_sections l) <= List.length l.
Proof.
  assert (H : List.length (simple_fix_sections l)
              = List.length (filter Spec.has_questions l)).
  { destruct l as [|sec rest]; [reflexivity|]. cbn [simple_fix_sections].
    rewrite <- (length_map questions_or_empty), simple_fix_loop_survivors.
    now rewrite length_map. }
  rewrite H. apply filter_length_le.
Qed.

Lemma filter_none (A : Type) (p : A -> bool) (l : list A) :
  existsb p l = false -> filter p l = [].
Proof.
  induction l as [|a l IH]; [reflexivity|]. cbn [existsb filter].
  intros H. apply orb_false_iff in H as [-> H]. now apply IH.
Qed.

Lemma route_without_simple_issues (issues : list issue) :
  existsb (issue_eqb null_titles) issues = false ->
  existsb (issue_eqb empty_sections) issues = false ->
  route_of issues = RouteOk \/ route_of issues = RouteGemini.
Proof.
  destruct issues as [|tag issues]; [now left|]. cbn [existsb route_of].
  intros H1 H2. right.
  apply orb_false_iff in H1 as [H1 _]. apply orb_false_iff in H2 as [H2 _].
  now destruct tag.
Qed.

(** X2.  What [classify_exam] finds after [simple_fix]: neither a null
    title nor an empty section, and no more sections than before; phase 3
    of [main] counts no null title and no empty section in such an exam,
    and a second run of [main] has no simple fix left to make on it. *)
Theorem simple_fix_clears_simple_issues {U : Unicode} (i : nat) (exam : Exam) :
  existsb (issue_eqb null_titles) (classify_exam i (simple_fix exam)) = false
  /\ existsb (issue_eqb empty_sections) (classify_exam i (simple_fix exam)) = false
  /\ List.length (sections_or_empty (simple_fix exam))
     <= List.length (sections_or_empty exam)
  /\ null_titles_remaining [simple_fix exam] = 0
  /\ empty_sections_remaining [simple_fix exam] = 0
  /\ (route_of (classify_exam i (simple_fix exam)) = RouteOk
      \/ route_of (classify_exam i (simple_fix exam)) = RouteGemini).
Proof.
  match goal with
  | |- ?A /\ ?B /\ ?C /\ ?D /\ ?E /\ _ =>
      enough (H5 : A /\ B /\ C /\ D /\ E)
  end.
  { destruct H5 as (HA & HB & HC & HD & HE). repeat split; try assumption.
    now apply route_without_simple_issues. }
  unfold simple_fix. rewrite !sections_or_empty_set.
  destruct (repaired_no_simple_issue _ (simple_fix_sections_repaired (sections_or_empty exam)))
    as [Hn He].
  assert (Hnot : forall tag,
            (tag = null_titles \/ tag = empty_sections) ->
            existsb (issue_eqb tag)
              (classify_exam i (set_sections (simple_fix_sections (sections_or_empty exam)) exam))
            = false).
  { intros tag Htag.
    destruct (existsb (issue_eqb tag) _) eqn:E; [|reflexivity].
    apply existsb_exists in E as (x & Hin & Hx).
    apply classify_exam_In in Hin. rewrite sections_or_empty_set in Hin.
    destruct Htag as [-> | ->]; destruct x; try discriminate Hx; congruence. }
  split; [apply Hnot; now left|]. split; [apply Hnot; now right|].
  split; [apply simple_fix_sections_length|].
  unfold null_titles_remaining, empty_sections_remaining. cbn [map list_sum].
  rewrite !sections_or_empty_set, (filter_none _ _ _ Hn), (filter_none _ _ _ He).
  now split.
Qed.

Lemma issue_absent {U : Unicode} (i : nat) (exam : Exam) (tag : issue) :
  existsb (issue_eqb tag) (classify_exam i exam) = false ->
  ~ In tag (classify_exam i exam).
Proof.
  intros H Hin. assert (E : existsb (issue_eqb tag) (classify_exam i exam) = true).
  { apply existsb_exists. exists tag. split; [exact Hin|]. now destruct tag. }
  congruence.
Qed.

(** X3.  An exam on which [classify_exam] finds neither a null title nor
    an empty section comes out of [simple_fix] with its sections as they
    were; so the fallback of phase 2 changes nothing in an exam that has
    only the issues meant for the oracle. *)
Theorem simple_fix_keeps_repaired_exam {U : Unicode} (i : nat) (exam : Exam)
    (Hnull : existsb (issue_eqb null_titles) (classify_exam i exam) = false)
    (Hempty : existsb (issue_eqb empty_sections) (classify_exam i exam) = false) :
  sections_or_empty (simple_fix exam) = sections_or_empty exam
  /\ restructure_exam exam EmptyResponse = set_sections (sections_or_empty exam) exam.
Proof.
  assert (Hfix : simple_fix_sections (sections_or_empty exam) = sections_or_empty exam).
  { apply issue_absent in Hnull. apply issue_absent in Hempty.
    rewrite classify_exam_In in Hnull, Hempty.
    apply not_true_is_false in Hnull. apply not_true_is_false in Hempty.
    pose proof (no_simple_issue_repaired _ Hnull Hempty) as Hrep.
    destruct (sections_or_empty exam) as [|sec rest]; [reflexivity|].
    now apply simple_fix_loop_fixpoint. }
  unfold restructure_exam, simple_fix. rewrite sections_or_empty_set, Hfix. now split.
Qed.

(** An exam whose only issue is a title used three times: the fallback
    of phase 2 stores its sections as they were. *)
Lemma simple_fix_keeps_repaired_exam_witness :
  sections_or_empty (simple_fix Samples.duplicate_titles_exam)
  = sections_or_empty Samples.duplicate_titles_exam
  /\ classify_exam 0 Samples.duplicate_titles_exam = [duplicate_titles].
Proof.
  split; [|reflexivity].
  exact (proj1 (simple_fix_keeps_repaired_exam 0 Samples.duplicate_titles_exam
                  eq_refl eq_refl)).
Defined.

Lemma restructure_exam_count (exam : Exam) (outcome : oracle_outcome) :
  count_questions (restructure_exam exam outcome) = count_questions exam.
Proof.
  destruct outcome as [| |plan|e]; simpl; try apply simple_fix_count.
  destruct (accept_plan exam (count_questions exam) plan) eqn:E.
  - eapply accept_plan_count; eassumption.
  - apply simple_fix_count.
Qed.

Lemma main_exam_count {U : Unicode} (i : nat) (exam : Exam) (outcome : oracle_outcome) :
  count_questions (main_exam i exam outcome) = count_questions exam.
Proof.
  unfold main_exam. destruct (route_of (classify_exam i exam));
    [reflexivity|apply restructure_exam_count|apply simple_fix_count].
Qed.

(** X4.  Phases 1 and 2 of [main] keep the number of exams and the total
    number of questions of the catalog, whatever the oracle answers for
    each exam; an exam without issues is stored as it is. *)
Theorem main_keeps_catalog_size {U : Unicode} (exams : list Exam) (oracle : nat -> oracle_outcome) :
  List.length (main_exams exams oracle) = List.length exams
  /\ total_questions (main_exams exams oracle) = total_questions exams
  /\ map count_questions (main_exams exams oracle) = map count_questions exams.
Proof.
  unfold main_exams, total_questions. generalize 0 as i.
  induction exams as [|exam exams IH]; intros i; [now repeat split|].
  destruct (IH (S i)) as (Hlen & Hsum & Hmap).
  cbn [main_exams_from List.length map list_sum].
  rewrite Hlen, Hmap, main_exam_count. now repeat split.
Qed.





End ClassifierAndMain.

(** ** More on the deterministic repairer and the plan applier *)

Section RepairAndApply.

Import PyStr FixExamStructure Classifier Vocabulary.

Lemma instruction_texts_truthy (l : list Section) :
  Forall (fun s => truthy s = true) (instruction_texts l).
Proof.
  induction l as [|sec l IH]; [constructor|]. cbn [instruction_texts].
  destruct (instructions sec) as [s|]; cbn [otruthy or_empty]; [|exact IH].
  destruct (truthy s) eqn:E; [|exact IH]. constructor; [exact E|exact IH].
Qed.

Lemma truthy_append (a b : string) : truthy a = true -> truthy (a ++ b) = true.
Proof. now destruct a. Qed.

Lemma join_empty_iff (sep : string) (l : list string) :
  Forall (fun s => truthy s = true) l ->
  truthy (join sep l) = false -> l = [].
Proof.
  intros H. destruct H as [|x l Hx Hl]; [reflexivity|].
  cbn [join]. destruct l; [congruence|]. now rewrite (truthy_append _ _ Hx).
Qed.

Lemma join_cons_eq (sep t : string) (l1 l2 : list string) :
  Forall (fun s => truthy s = true) l1 -> Forall (fun s => truthy s = true) l2 ->
  join sep l1 = join sep l2 ->
  join sep (t :: l1) = join sep (t :: l2).
Proof.
  intros H1 H2 E.
  destruct l1 as [|a l1]; destruct l2 as [|b l2]; try reflexivity.
  - assert (Hb : b :: l2 = []) by (apply (join_empty_iff sep _ H2); now rewrite <- E).
    discriminate.
  - assert (Ha : a :: l1 = []) by (apply (join_empty_iff sep _ H1); now rewrite E).
    discriminate.
  - cbn [join] in *. now rewrite E.
Qed.

Lemma join_merged (sep a b : string) (l : list string) :
  join sep ((a ++ sep ++ b)%string :: l) = join sep (a :: b :: l).
Proof.
  destruct l as [|c l]; cbn [join]; [reflexivity|].
  now rewrite !append_assoc.
Qed.

Lemma instructions_titled (sec : Section) (idx : nat) :
  instructions
    match section_title sec with
    | Some _ => sec
    | None => set_section_title (Some (placeholder_title idx)) sec
    end
  = instructions sec.
Proof. now destruct (section_title sec). Qed.

Lemma instructions_merge_into_next (sec next_sec : Section) :
  instructions (merge_into_next sec next_sec)
  = Some (if otruthy (instructions next_sec)
          then (or_empty (instructions sec) ++ blank_line
                ++ or_empty (instructions next_sec))%string
          else or_empty (instructions sec)).
Proof.
  unfold merge_into_next.
  assert (E : truthy (or_empty (instructions next_sec)) = otruthy (instructions next_sec)).
  { destruct (instructions next_sec) as [s|]; [|reflexivity]. cbn.
    now destruct (truthy s) eqn:Es. }
  rewrite E.
  destruct (otruthy (instructions next_sec)); cbn [set_instructions section_title];
    destruct (negb (otruthy (section_title next_sec)) && otruthy (section_title sec));
    reflexivity.
Qed.

Lemma or_empty_truthy (o : option string) :
  otruthy o = true -> truthy (or_empty o) = true.
Proof. destruct o as [s|]; [|discriminate]. cbn. intros H. now rewrite H. Qed.

Lemma simple_fix_loop_instruction_texts (rest : list Section) :
  forall idx sec,
    ends_with_questions (sec :: rest) = true ->
    join blank_line (instruction_texts (simple_fix_loop idx sec rest))
    = join blank_line (instruction_texts (sec :: rest)).
Proof.
  induction rest as [|next_sec rest IH]; intros idx sec Hend.
  - cbn [ends_with_questions] in Hend. unfold Spec.has_questions in Hend.
    cbn [simple_fix_loop]. destruct (questions_or_empty sec); [discriminate|].
    cbn [instruction_texts]. now rewrite instructions_titled.
  - change (ends_with_questions (sec :: next_sec :: rest))
      with (ends_with_questions (next_sec :: rest)) in Hend.
    cbn [simple_fix_loop]. destruct (questions_or_empty sec) eqn:Hq.
    + destruct (otruthy (instructions sec)) eqn:Hi.
      * assert (Hend' : ends_with_questions (merge_into_next sec next_sec :: rest) = true).
        { destruct rest; [|exact Hend]. cbn [ends_with_questions] in *.
          now rewrite has_questions_merge_into_next. }
        rewrite (IH (S idx) _ Hend').
        cbn [instruction_texts]. rewrite Hi, instructions_merge_into_next.
        pose proof (or_empty_truthy _ Hi) as Hp.
        destruct (otruthy (instructions next_sec)) eqn:Hn.
        -- cbn [otruthy or_empty].
           rewrite (truthy_append _ _ Hp). apply join_merged.
        -- cbn [otruthy or_empty]. now rewrite Hp.
      * rewrite (IH (S idx) _ Hend). cbn [instruction_texts]. now rewrite Hi.
    + change (instruction_texts (?a :: ?l))
        with (if otruthy (instructions a)
              then or_empty (instructions a) :: instruction_texts l
              else instruction_texts l).
      rewrite instructions_titled.
      destruct (otruthy (instructions sec)); [|now apply IH].
      apply join_cons_eq; try apply instruction_texts_truthy. now apply IH.
Qed.

(** X5.  [simple_fix] loses no instruction text of an exam whose last
    section holds a question: the non-empty instructions of the sections,
    joined by blank lines in their order, read the same before and after. *)
Theorem simple_fix_keeps_instruction_text (exam : Exam)
    (Hend : ends_with_questions (sections_or_empty exam) = true) :
  join blank_line (instruction_texts (sections_or_empty (simple_fix exam)))
  = join blank_line (instruction_texts (sections_or_empty exam)).
Proof.
  unfold simple_fix. rewrite sections_or_empty_set.
  destruct (sections_or_empty exam) as [|sec rest]; [reflexivity|].
  now apply simple_fix_loop_instruction_texts.
Qed.

(** The instructions of [Samples.consignes_exam] before and after the
    repair. *)
Lemma simple_fix_keeps_instruction_text_witness :
  join blank_line
    (instruction_texts (sections_or_empty (simple_fix Samples.consignes_exam)))
  = ("Consignes générales" ++ blank_line ++ "Lisez le texte.")%string.
Proof.
  rewrite (simple_fix_keeps_instruction_text Samples.consignes_exam eq_refl).
  reflexivity.
Defined.

(** *** What the plan applier puts in its sections *)

Lemma guarded_section_section_at (secs : list Section) (idx : Z) (o : option Section) :
  guarded_section (Some secs) idx = Ok o -> o = section_at secs idx.
Proof.
  unfold guarded_section, index_below_len, section_at. cbn [bind].
  rewrite (Z.leb_antisym idx (Z.of_nat (List.length secs))).
  destruct (idx <? Z.of_nat (List.length secs))%Z; cbn [negb]; [|now intros [= <-]].
  unfold getitem. cbv zeta. rewrite (Z.leb_antisym idx 0).
  destruct (idx <? 0)%Z eqn:Hneg; cbn [negb].
  - destruct (idx + Z.of_nat (List.length secs) <? 0)%Z; [discriminate|].
    destruct (nth_error secs _); cbn [bind]; [now intros [= <-]|discriminate].
  - rewrite Hneg.
    destruct (nth_error secs _); cbn [bind]; [now intros [= <-]|discriminate].
Qed.

Lemma collect_indices_questions (secs : list Section) (indices : list Z) :
  forall acc acc',
    collect_indices (Some secs) indices acc = Ok acc' ->
    fst acc' = fst acc ++ flat_map (questions_of_index secs) indices.
Proof.
  induction indices as [|idx indices IH]; intros acc acc'.
  - intros [= <-]. cbn [flat_map]. now rewrite app_nil_r.
  - cbn [collect_indices flat_map].
    destruct (guarded_section (Some secs) idx) as [o|] eqn:Hg; [|discriminate].
    apply guarded_section_section_at in Hg. unfold questions_of_index at 1.
    rewrite <- Hg. cbn [bind]. destruct o as [orig|]; intros H; apply IH in H;
      rewrite H; cbn [fst]; [now rewrite app_assoc|reflexivity].
Qed.

Lemma merge_indices_questions (secs : list Section) (indices : list Z) :
  forall target target',
    merge_indices (Some secs) indices target = Ok target' ->
    questions_or_empty target'
    = questions_or_empty target ++ flat_map (questions_of_index secs) indices.
Proof.
  induction indices as [|idx indices IH]; intros target target'.
  - intros [= <-]. cbn [flat_map]. now rewrite app_nil_r.
  - cbn [merge_indices flat_map].
    destruct (guarded_section (Some secs) idx) as [o|] eqn:Hg; [|discriminate].
    apply guarded_section_section_at in Hg. unfold questions_of_index at 1.
    rewrite <- Hg. cbn [bind]. destruct o as [orig|]; intros H; apply IH in H;
      rewrite H; [|reflexivity].
    now rewrite questions_or_empty_merge_one, app_assoc.
Qed.

Lemma all_questions_snoc (l : list Section) (sec : Section) :
  all_questions (l ++ [sec]) = all_questions l ++ questions_or_empty sec.
Proof.
  unfold all_questions. rewrite flat_map_app. cbn [flat_map]. now rewrite app_nil_r.
Qed.

Lemma apply_entry_questions (secs : list Section) (entry : plan_entry)
    (new_sections new_sections' : list Section) :
  apply_entry (Some secs) entry new_sections = Ok new_sections' ->
  all_questions new_sections'
  = all_questions new_sections
    ++ flat_map (questions_of_index secs) (Spec.indices_of entry)
  /\ List.length new_sections'
     = match new_sections with
       | [] => 1
       | _ :: _ => List.length new_sections + (if is_merge entry then 0 else 1)
       end.
Proof.
  unfold apply_entry, entry_indices, Spec.indices_of.
  destruct (get_default [] (original_indices entry)) as [indices|]; [|discriminate].
  cbn [bind].
  assert (Hkeep :
    (acc <- collect_indices (Some secs) indices ([], []) ;;
     Ok (new_sections
         ++ [build_section (get_default "Section" (new_title entry))
               (new_instructions entry) (fst acc) (snd acc)]))
    = Ok new_sections' ->
    all_questions new_sections'
    = all_questions new_sections ++ flat_map (questions_of_index secs) indices
    /\ List.length new_sections' = List.length new_sections + 1).
  { destruct (collect_indices (Some secs) indices ([], [])) as [acc|] eqn:Hc;
      [|discriminate].
    cbn [bind]. intros [= <-]. apply collect_indices_questions in Hc.
    rewrite all_questions_snoc, length_app. cbn [List.length].
    change (questions_or_empty (build_section _ _ (fst acc) _)) with (fst acc).
    now rewrite Hc. }
  destruct (is_merge entry).
  - destruct (rev new_sections) as [|target before] eqn:Hrev.
    + assert (new_sections = []) as ->.
      { rewrite <- (rev_involutive new_sections), Hrev. reflexivity. }
      intros H. apply Hkeep in H as [H1 H2]. now split.
    + assert (Hns : new_sections = rev before ++ [target]).
      { rewrite <- (rev_involutive new_sections), Hrev. reflexivity. }
      destruct (merge_indices (Some secs) indices target) as [target'|] eqn:Hm;
        [|discriminate].
      cbn [bind]. intros [= <-]. apply merge_indices_questions in Hm.
      rewrite Hns, !all_questions_snoc, Hm, app_assoc. split; [reflexivity|].
      rewrite !length_app. cbn [List.length].
      destruct (rev before ++ [target]) eqn:E; [|lia].
      apply app_eq_nil in E as [_ E]. discriminate.
  - intros H. apply Hkeep in H as [H1 H2]. split; [exact H1|].
    destruct new_sections; cbn [List.length] in *; lia.
Qed.

Lemma apply_entries_questions (secs : list Section) (entries : list plan_entry) :
  forall new_sections new_sections',
    apply_entries (Some secs) entries new_sections = Ok new_sections' ->
    all_questions new_sections'
    = all_questions new_sections
      ++ flat_map (questions_of_index secs) (flat_map Spec.indices_of entries).
Proof.
  induction entries as [|entry entries IH]; intros ns ns'.
  - intros [= <-]. cbn [flat_map]. now rewrite app_nil_r.
  - cbn [apply_entries flat_map].
    destruct (apply_entry (Some secs) entry ns) as [ns1|] eqn:He; [|discriminate].
    cbn [bind]. intros H. apply IH in H. apply apply_entry_questions in He as [He _].
    now rewrite H, He, flat_map_app, app_assoc.
Qed.

Lemma apply_entries_length (secs : list Section) (entries : list plan_entry) :
  forall sec new_sections new_sections',
    apply_entries (Some secs) entries (sec :: new_sections) = Ok new_sections' ->
    List.length new_sections'
    = S (List.length new_sections)
      + List.length (filter (fun entry => negb (is_merge entry)) entries).
Proof.
  induction entries as [|entry entries IH]; intros sec ns ns'.
  - intros [= <-]. cbn [filter List.length]. lia.
  - cbn [apply_entries filter].
    destruct (apply_entry (Some secs) entry (sec :: ns)) as [ns1|] eqn:He; [|discriminate].
    cbn [bind]. intros H. apply apply_entry_questions in He as [_ He].
    destruct ns1 as [|sec1 ns1]; [cbn [List.length] in He; lia|].
    apply IH in H. rewrite H. cbn [List.length] in He.
    destruct (is_merge entry); cbn [negb List.length]; lia.
Qed.

Lemma questions_of_index_In (secs : list Section) (idx : Z) (q : Question) :
  In q (questions_of_index secs idx) -> In q (all_questions secs).
Proof.
  unfold questions_of_index, section_at, all_questions.
  intros H. apply in_flat_map.
  destruct (Z.of_nat (List.length secs) <=? idx)%Z; [contradiction|].
  destruct (0 <=? idx)%Z;
    match type of H with
    | In _ match nth_error ?l ?n with _ => _ end =>
        destruct (nth_error l n) as [sec|] eqn:E; [|contradiction];
        exists sec; split; [eapply nth_error_In; eassumption|exact H]
    end.
Qed.

(** X6.  When the applier returns on a non-empty plan, the questions of
    its sections, read one section after the other, are the questions of
    the sections the plan lists, index after index in the order of the
    plan (an index from [len] on stands for none, a negative one counts
    from the end); so every question of the output is a question of the
    input.  The output has one section for the first entry and one for
    every later entry that is not merge_into_previous. *)
Theorem apply_gemini_plan_content (exam restructured : Exam) (plan : Plan)
    (secs : list Section) (entry : plan_entry) (entries : list plan_entry)
    (Hsecs : get_default [] (sections exam) = Some secs)
    (Hplan : section_plan plan = Some (entry :: entries))
    (Happ : apply_gemini_plan exam plan = Ok restructured) :
  all_questions (sections_or_empty restructured)
  = flat_map (questions_of_index secs) (Spec.plan_indices plan)
  /\ (forall q, In q (all_questions (sections_or_empty restructured)) ->
                In q (all_questions secs))
  /\ List.length (sections_or_empty restructured)
     = 1 + List.length (filter (fun e => negb (is_merge e)) entries).
Proof.
  unfold apply_gemini_plan in Happ. rewrite Hsecs, Hplan in Happ.
  destruct (apply_entries (Some secs) (entry :: entries) []) as [l|] eqn:He;
    [|discriminate].
  cbn [bind] in Happ. injection Happ as <-. rewrite sections_or_empty_set.
  assert (Hq : all_questions l = flat_map (questions_of_index secs) (Spec.plan_indices plan)).
  { apply apply_entries_questions in He. unfold Spec.plan_indices. now rewrite Hplan. }
  split; [exact Hq|split].
  - intros q Hin. rewrite Hq in Hin. apply in_flat_map in Hin as (idx & _ & Hin).
    eapply questions_of_index_In; eassumption.
  - cbn [apply_entries] in He.
    destruct (apply_entry (Some secs) entry []) as [ns1|] eqn:H1; [|discriminate].
    cbn [bind] in He. apply apply_entry_questions in H1 as [_ H1].
    destruct ns1 as [|sec1 [|sec2 ns1]]; try discriminate H1.
    apply apply_entries_length in He. rewrite He. reflexivity.
Qed.

(** The applier on [Samples.two_section_exam] with the plan that lists
    index 1 twice and index 7. *)
Lemma apply_gemini_plan_content_witness :
  all_questions (sections_or_empty Samples.two_section_exam_restructured)
  = [Samples.colour_question]
  /\ List.length (sections_or_empty Samples.two_section_exam_restructured) = 1.
Proof.
  destruct (apply_gemini_plan_content Samples.two_section_exam
              Samples.two_section_exam_restructured Samples.plan_repeated_index
              [ Samples.section_with (Some "I") None [Samples.colour_question];
                Samples.section_with (Some "II") None [] ]
              (Samples.entry_with [0%Z; 1%Z] "Partie A" "keep")
              [Samples.entry_with [1%Z; 7%Z] "Partie B" "merge_into_previous"]
              eq_refl eq_refl eq_refl) as (Hq & _ & Hlen).
  split; [rewrite Hq; reflexivity|rewrite Hlen; reflexivity].
Defined.

(** *** The titles the plan applier gives *)

Lemma section_title_merge_one (orig target : Section) :
  section_title (merge_one orig target) = section_title target.
Proof.
  unfold merge_one. destruct (otruthy (instructions orig)); [|reflexivity].
  cbn [instructions]. now destruct (truthy (or_empty (instructions target))).
Qed.

Lemma merge_indices_title (original_sections : option (list Section)) (indices : list Z) :
  forall target target',
    merge_indices original_sections indices target = Ok target' ->
    section_title target' = section_title target.
Proof.
  induction indices as [|idx indices IH]; intros target target'; [now intros [= <-]|].
  cbn [merge_indices].
  destruct (guarded_section original_sections idx) as [[orig|]|]; cbn [bind];
    [|apply IH|discriminate].
  intros H. apply IH in H. now rewrite H, section_title_merge_one.
Qed.

Lemma apply_entry_titles (original_sections : option (list Section)) (entry : plan_entry)
    (new_sections new_sections' : list Section) :
  apply_entry original_sections entry new_sections = Ok new_sections' ->
  map section_title new_sections'
  = match new_sections with
    | [] => [get_default "Section" (new_title entry)]
    | _ :: _ =>
        if is_merge entry then map section_title new_sections
        else map section_title new_sections ++ [get_default "Section" (new_title entry)]
    end.
Proof.
  unfold apply_entry.
  destruct (entry_indices entry) as [indices|]; [|discriminate]. cbn [bind].
  assert (Hkeep :
    (acc <- collect_indices original_sections indices ([], []) ;;
     Ok (new_sections
         ++ [build_section (get_default "Section" (new_title entry))
               (new_instructions entry) (fst acc) (snd acc)]))
    = Ok new_sections' ->
    map section_title new_sections'
    = map section_title new_sections ++ [get_default "Section" (new_title entry)]).
  { destruct (collect_indices original_sections indices ([], [])) as [acc|];
      [|discriminate].
    cbn [bind]. intros [= <-]. now rewrite map_app. }
  destruct (is_merge entry).
  - destruct (rev new_sections) as [|target before] eqn:Hrev.
    + assert (new_sections = []) as ->.
      { rewrite <- (rev_involutive new_sections), Hrev. reflexivity. }
      exact Hkeep.
    + assert (Hns : new_sections = rev before ++ [target]).
      { rewrite <- (rev_involutive new_sections), Hrev. reflexivity. }
      destruct (merge_indices original_sections indices target) as [target'|] eqn:Hm;
        [|discriminate].
      cbn [bind]. intros [= <-]. apply merge_indices_title in Hm.
      rewrite Hns, !map_app. cbn [map]. rewrite Hm.
      destruct (rev before ++ [target]) eqn:E; [|reflexivity].
      apply app_eq_nil in E as [_ E]. discriminate.
  - intros H. rewrite (Hkeep H). now destruct new_sections.
Qed.

Lemma apply_entries_titles (original_sections : option (list Section))
    (entries : list plan_entry) :
  forall sec new_sections new_sections',
    apply_entries original_sections entries (sec :: new_sections) = Ok new_sections' ->
    map section_title new_sections'
    = map section_title (sec :: new_sections)
      ++ map (fun entry => get_default "Section" (new_title entry))
           (filter (fun entry => negb (is_merge entry)) entries).
Proof.
  induction entries as [|entry entries IH]; intros sec ns ns'.
  - intros [= <-]. cbn [filter map]. now rewrite app_nil_r.
  - cbn [apply_entries filter].
    destruct (apply_entry original_sections entry (sec :: ns)) as [ns1|] eqn:He;
      [|discriminate].
    cbn [bind]. intros H. apply apply_entry_titles in He.
    destruct ns1 as [|sec1 ns1].
    + destruct (is_merge entry); [discriminate He|].
      cbn [map] in He. symmetry in He. apply app_eq_nil in He as [_ He]. discriminate.
    + apply IH in H. rewrite H, He.
      destruct (is_merge entry); cbn [negb map]; [reflexivity|].
      now rewrite <- app_assoc.
Qed.

(** X14.  When the applier returns on a non-empty plan, no title of the
    original sections is left: the titles of its sections are the
    [new_title] of the first entry and of every later entry that is not
    merge_into_previous, in order, "Section" standing for a missing
    [new_title] and a null title for a null one. *)
Theorem apply_gemini_plan_titles (exam restructured : Exam) (plan : Plan)
    (entry : plan_entry) (entries : list plan_entry)
    (Hplan : section_plan plan = Some (entry :: entries))
    (Happ : apply_gemini_plan exam plan = Ok restructured) :
  map section_title (sections_or_empty restructured)
  = map (fun e => get_default "Section" (new_title e))
      (entry :: filter (fun e => negb (is_merge e)) entries).
Proof.
  unfold apply_gemini_plan in Happ. rewrite Hplan in Happ.
  destruct (apply_entries _ (entry :: entries) []) as [l|] eqn:He; [|discriminate].
  cbn [bind] in Happ. injection Happ as <-. rewrite sections_or_empty_set.
  cbn [apply_entries] in He.
  destruct (apply_entry _ entry []) as [ns1|] eqn:H1; [|discriminate].
  cbn [bind] in He. apply apply_entry_titles in H1.
  destruct ns1 as [|sec1 ns1]; [discriminate H1|].
  apply apply_entries_titles in He. rewrite He, H1. reflexivity.
Qed.

(** The titles after the plan that merges the second entry into the
    first. *)
Lemma apply_gemini_plan_titles_witness :
  map section_title (sections_or_empty Samples.two_section_exam_restructured)
  = [Some "Partie A"].
Proof.
  exact (apply_gemini_plan_titles Samples.two_section_exam
           Samples.two_section_exam_restructured Samples.plan_repeated_index
           (Samples.entry_with [0%Z; 1%Z] "Partie A" "keep")
           [Samples.entry_with [1%Z; 7%Z] "Partie B" "merge_into_previous"]
           eq_refl eq_refl).
Defined.

End RepairAndApply.

(** ** The oracle call *)

Section OracleCall.

Import Oracle.

Lemma requests_cons_posted (trace : list event) :
  requests (Posted :: trace) = S (requests trace).
Proof. reflexivity. Qed.

Lemma requests_cons_slept (n : nat) (trace : list event) :
  requests (Slept n :: trace) = requests trace.
Proof. reflexivity. Qed.

Lemma call_gemini_from_requests (responses : nat -> http_outcome) (max_retries : nat) :
  forall remaining attempt,
    requests (fst (call_gemini_from responses max_retries attempt remaining)) <= remaining.
Proof.
  induction remaining as [|remaining IH]; intros attempt; [apply Nat.le_refl|].
  cbn [call_gemini_from]. specialize (IH (S attempt)).
  destruct (responses attempt).
  - destruct (call_gemini_from responses max_retries (S attempt) remaining).
    cbn [fst] in *. rewrite requests_cons_posted, requests_cons_slept. lia.
  - destruct (attempt <? max_retries - 1)%nat.
    + destruct (call_gemini_from responses max_retries (S attempt) remaining).
      cbn [fst] in *. rewrite requests_cons_posted, requests_cons_slept. lia.
    + cbn. lia.
  - cbn. lia.
Qed.

Lemma call_gemini_from_first_reply (responses : nat -> http_outcome) (max_retries : nat) :
  forall before attempt remaining text,
    attempt + remaining = max_retries ->
    before < remaining ->
    no_reply responses attempt before = true ->
    responses (attempt + before) = Reply text ->
    snd (call_gemini_from responses max_retries attempt remaining) = Returned (Some text)
    /\ requests (fst (call_gemini_from responses max_retries attempt remaining))
       = S before.
Proof.
  induction before as [|before IH]; intros attempt remaining text Hsum Hlt Hno Hrep.
  - destruct remaining as [|remaining]; [lia|]. cbn [call_gemini_from].
    rewrite Nat.add_0_r in Hrep. rewrite Hrep. now split.
  - destruct remaining as [|remaining]; [lia|]. cbn [call_gemini_from].
    cbn [no_reply] in Hno. apply andb_true_iff in Hno as [Hhere Hno].
    replace (attempt + S before) with (S attempt + before) in Hrep by lia.
    assert (Hrec : snd (call_gemini_from responses max_retries (S attempt) remaining)
                   = Returned (Some text)
                   /\ requests
                        (fst (call_gemini_from responses max_retries (S attempt) remaining))
                      = S before)
      by (apply IH; [lia|lia|exact Hno|exact Hrep]).
    destruct (responses attempt) eqn:E; [| |discriminate Hhere].
    + destruct (call_gemini_from responses max_retries (S attempt) remaining).
      cbn [fst snd] in *. rewrite requests_cons_posted, requests_cons_slept.
      destruct Hrec as [-> ->]. now split.
    + replace (attempt <? max_retries - 1)%nat with true
        by (symmetry; apply Nat.ltb_lt; lia).
      destruct (call_gemini_from responses max_retries (S attempt) remaining).
      cbn [fst snd] in *. rewrite requests_cons_posted, requests_cons_slept.
      destruct Hrec as [-> ->]. now split.
Qed.

Lemma call_gemini_from_no_reply (responses : nat -> http_outcome) (max_retries : nat) :
  forall remaining attempt,
    attempt + S remaining = max_retries ->
    no_reply responses attempt (S remaining) = true ->
    snd (call_gemini_from responses max_retries attempt (S remaining))
    = match responses (max_retries - 1) with
      | Failure e => Raised e
      | _ => Returned None
      end.
Proof.
  induction remaining as [|remaining IH]; intros attempt Hsum Hno.
  - assert (max_retries - 1 = attempt) as -> by lia.
    cbn [call_gemini_from]. cbn [no_reply] in Hno.
    destruct (responses attempt) eqn:E; [reflexivity| |discriminate Hno].
    replace (attempt <? max_retries - 1)%nat with false
      by (symmetry; apply Nat.ltb_ge; lia).
    reflexivity.
  - change (no_reply responses attempt (S (S remaining)))
      with (negb (is_reply (responses attempt))
            && no_reply responses (S attempt) (S remaining)) in Hno.
    apply andb_true_iff in Hno as [Hhere Hno].
    assert (Hrec := IH (S attempt) ltac:(lia) Hno).
    remember (S remaining) as rem eqn:Hrem.
    cbn [call_gemini_from].
    destruct (responses attempt) eqn:E; [| |discriminate Hhere].
    + destruct (call_gemini_from responses max_retries (S attempt) rem).
      exact Hrec.
    + replace (attempt <? max_retries - 1)%nat with true
        by (symmetry; apply Nat.ltb_lt; lia).
      destruct (call_gemini_from responses max_retries (S attempt) rem).
      exact Hrec.
Qed.

Lemma call_gemini_from_raised (responses : nat -> http_outcome) (max_retries : nat) :
  forall remaining attempt e,
    attempt + remaining = max_retries ->
    snd (call_gemini_from responses max_retries attempt remaining) = Raised e ->
    responses (max_retries - 1) = Failure e.
Proof.
  induction remaining as [|remaining IH]; intros attempt e Hsum; [discriminate|].
  cbn [call_gemini_from].
  assert (Hrec := IH (S attempt) e ltac:(lia)).
  destruct (responses attempt) eqn:E.
  - destruct (call_gemini_from responses max_retries (S attempt) remaining). exact Hrec.
  - destruct (attempt <? max_retries - 1)%nat eqn:Hlt.
    + destruct (call_gemini_from responses max_retries (S attempt) remaining). exact Hrec.
    + apply Nat.ltb_ge in Hlt. assert (max_retries - 1 = attempt) as -> by lia.
      cbn [snd]. intros [= <-]. exact E.
  - discriminate.
Qed.

(** X7.  [call_gemini] posts at most [max_retries] times.  It returns the
    text of the first reply that comes within that budget, after as many
    requests as it took.  When no reply comes, it raises the last
    attempt's exception if that attempt failed and returns None if that
    attempt was rate limited; it never raises otherwise.  With the default
    budget of three it sleeps 28 seconds at most. *)
Theorem call_gemini_retries (responses : nat -> http_outcome) (max_retries : nat) :
  requests (fst (call_gemini responses max_retries)) <= max_retries
  /\ (forall before text,
        before < max_retries ->
        no_reply responses 0 before = true ->
        responses before = Reply text ->
        snd (call_gemini responses max_retries) = Returned (Some text)
        /\ requests (fst (call_gemini responses max_retries)) = S before)
  /\ (no_reply responses 0 max_retries = true ->
      snd (call_gemini responses max_retries)
      = match max_retries with
        | O => Returned None
        | S last =>
            match responses last with
            | Failure e => Raised e
            | _ => Returned None
            end
        end)
  /\ (forall e,
        snd (call_gemini responses max_retries) = Raised e ->
        responses (max_retries - 1) = Failure e)
  /\ seconds_slept (fst (call_gemini responses 3)) <= 28.
Proof.
  unfold call_gemini. split; [apply call_gemini_from_requests|].
  split; [|split; [|split]].
  - intros before text Hlt Hno Hrep.
    now apply (call_gemini_from_first_reply responses max_retries before 0 max_retries text).
  - intros Hno. destruct max_retries as [|last]; [reflexivity|].
    rewrite (call_gemini_from_no_reply responses (S last) last 0 eq_refl Hno).
    now replace (S last - 1) with last by lia.
  - intros e. now apply call_gemini_from_raised.
  - cbn [call_gemini_from].
    destruct (responses 0); destruct (responses 1); destruct (responses 2);
      cbn; lia.
Qed.

(** A rate limit, a server error, then a reply: three requests, waits of
    4 and 4 seconds, and the reply is returned. *)
Lemma call_gemini_retries_witness :
  snd (call_gemini third_time_lucky 3) = Returned (Some "{}")
  /\ requests (fst (call_gemini third_time_lucky 3)) = 3.
Proof.
  exact (proj1 (proj2 (call_gemini_retries third_time_lucky 3))
           2 "{}" (Nat.lt_succ_diag_r 2) eq_refl eq_refl).
Defined.

End OracleCall.

(** ** More on fix_question *)

Section FixQuestion.

Import PyStr FixAllExams Vocabulary.

Lemma same_except_correct_refl (q : Question) : same_except_correct q q.
Proof. now repeat split. Qed.

Lemma same_except_correct_trans (q1 q2 q3 : Question) :
  same_except_correct q1 q2 -> same_except_correct q2 q3 -> same_except_correct q1 q3.
Proof.
  unfold same_except_correct. intros H1 H2.
  repeat match goal with H : _ /\ _ |- _ => destruct H end.
  repeat split; congruence.
Qed.

Lemma same_except_correct_set (s : string) (q : Question) :
  same_except_correct q (set_correct s q).
Proof. now repeat split. Qed.

Lemma writes_correct_refl (allowed : list string) (q : Question) :
  writes_correct allowed q q.
Proof. split; [apply same_except_correct_refl|now left]. Qed.

Lemma writes_correct_set (allowed : list string) (s : string) (q : Question) :
  In s allowed -> writes_correct allowed q (set_correct s q).
Proof.
  intros H. split; [apply same_except_correct_set|]. right. exists s. now split.
Qed.

Lemma writes_correct_trans (allowed : list string) (q1 q2 q3 : Question) :
  writes_correct allowed q1 q2 -> writes_correct allowed q2 q3 ->
  writes_correct allowed q1 q3.
Proof.
  intros [Hs1 Hc1] [Hs2 Hc2].
  split; [eapply same_except_correct_trans; eassumption|].
  destruct Hc2 as [Hc2|Hc2]; [|now right].
  rewrite Hc2. exact Hc1.
Qed.

Lemma writes_correct_weaken (l1 l2 : list string) (q q' : Question) :
  incl l1 l2 -> writes_correct l1 q q' -> writes_correct l2 q q'.
Proof.
  intros Hincl [Hs [Hc|(s & Hc & Hin)]]; split; try exact Hs; [now left|].
  right. exists s. split; [exact Hc|now apply Hincl].
Qed.

Lemma first_key_In (p : string -> bool) (items : list (string * option_value)) (key : string) :
  first_key p items = Some key -> In key (map fst items).
Proof.
  induction items as [|[k [v|j]] items IH]; cbn [first_key map fst]; [discriminate| |].
  - destruct (p v); [intros [= <-]; now left|]. intros H. right. now apply IH.
  - intros H. right. now apply IH.
Qed.

Lemma options_dict_keys (q : Question) (items : list (string * option_value)) :
  options_dict (q_options q) = Some items -> keys_of (q_options q) = map fst items.
Proof.
  unfold options_dict, keys_of.
  destruct (q_options q) as [[[|kv d]|l]|]; try discriminate. now intros [= <-].
Qed.

Lemma mem_In (s : string) (l : list string) : mem s l = true -> In s l.
Proof.
  induction l as [|x l IH]; [discriminate|]. cbn [mem In].
  destruct (String.eqb s x) eqn:E; [apply String.eqb_eq in E; now left|].
  intros H. right. now apply IH.
Qed.

Lemma first_char_key (s : string) :
  starts_with_key s = true -> In (first_char s) option_keys.
Proof.
  destruct s as [|c0 rest]; [discriminate|]. unfold starts_with_key, first_char.
  intros H. apply andb_true_iff in H as [H _]. apply mem_In.
  cbn [char_in] in H. cbn [mem option_keys String.eqb].
  repeat match type of H with
         | (Ascii.eqb c0 ?x || _)%bool = true =>
             destruct (Ascii.eqb c0 x); [reflexivity|cbn [orb] in H |- *]
         end.
  discriminate.
Qed.

(** The strings Fix 1 and Fix 2 may write on an MCQ. *)
Lemma first_key_writes (p : string -> bool) (q q0 : Question) :
  q_options q0 = q_options q ->
  writes_correct (option_keys ++ keys_of (q_options q)) q0
    match options_dict (q_options q0) with
    | Some items =>
        match first_key p items with
        | Some key => set_correct key q0
        | None => q0
        end
    | None => q0
    end.
Proof.
  intros Ho. destruct (options_dict (q_options q0)) as [items|] eqn:E;
    [|apply writes_correct_refl].
  destruct (first_key p items) as [key|] eqn:Ek; [|apply writes_correct_refl].
  apply writes_correct_set, in_or_app. right.
  rewrite <- Ho, (options_dict_keys _ _ E). eapply first_key_In; eassumption.
Qed.

Lemma mcq_from_final_answer_writes {U : Unicode} (final_answer : string) (q : Question) :
  writes_correct (option_keys ++ keys_of (q_options q)) q
    (mcq_from_final_answer final_answer q).
Proof.
  unfold mcq_from_final_answer.
  destruct (truthy final_answer); [|apply writes_correct_refl].
  destruct (mem (strip (lower final_answer)) option_keys) eqn:Em.
  - apply writes_correct_set, in_or_app. left. now apply mem_In.
  - destruct (starts_with_key (strip (lower final_answer))) eqn:Es.
    + apply writes_correct_set, in_or_app. left. now apply first_char_key.
    + now apply first_key_writes.
Qed.

Lemma mcq_from_answer_parts_writes {U : Unicode} (answer_parts : option (list answer_part))
    (q q0 : Question) :
  q_options q0 = q_options q ->
  writes_correct (option_keys ++ keys_of (q_options q)) q0
    (mcq_from_answer_parts answer_parts q0).
Proof.
  intros Ho. unfold mcq_from_answer_parts.
  destruct (negb (correct_truthy (q_correct q0))); [|apply writes_correct_refl].
  destruct (extract_correct_from_answer_parts answer_parts) as [extracted|];
    [|apply writes_correct_refl].
  destruct (truthy extracted); [|apply writes_correct_refl].
  destruct (mem (strip (lower extracted)) option_keys) eqn:Em.
  - apply writes_correct_set, in_or_app. left. now apply mem_In.
  - now apply first_key_writes.
Qed.

Lemma fix_mcq_missing_correct_writes {U : Unicode} (qtype : string) (correct : option correct_val)
    (final_answer : string) (answer_parts : option (list answer_part)) (q : Question) :
  writes_correct (option_keys ++ keys_of (q_options q)) q
    (fix_mcq_missing_correct qtype correct final_answer answer_parts q).
Proof.
  unfold fix_mcq_missing_correct.
  destruct (type_is qtype "multiple_choice" && negb (correct_truthy correct));
    [|apply writes_correct_refl].
  eapply writes_correct_trans; [apply mcq_from_final_answer_writes|].
  apply mcq_from_answer_parts_writes.
  now destruct (mcq_from_final_answer_writes final_answer q) as [(_ & _ & H & _) _].
Qed.

Lemma fix_mcq_correct_key_writes {U : Unicode} (q : Question) (r : bool * Question) :
  fix_mcq_correct_key q = Ok r ->
  writes_correct (keys_of (q_options q)) q (snd r).
Proof.
  unfold fix_mcq_correct_key.
  destruct (q_correct q) as [correct|]; [|intros [= <-]; apply writes_correct_refl].
  destruct (options_dict (q_options q)) as [items|] eqn:Eo;
    [|intros [= <-]; apply writes_correct_refl].
  destruct (negb (correct_truthy (Some correct))); [intros [= <-]; apply writes_correct_refl|].
  destruct (correct_lower correct) as [c_lower|]; [|discriminate]. cbn [bind].
  destruct (mem c_lower _); [intros [= <-]; apply writes_correct_refl|].
  rewrite (options_dict_keys _ _ Eo).
  destruct (first_key (value_equals c_lower) items) as [key|] eqn:E1.
  - intros [= <-]. apply writes_correct_set. eapply first_key_In; eassumption.
  - destruct (first_key (value_contains c_lower) items) as [key|] eqn:E2;
      intros [= <-]; [|apply writes_correct_refl].
    apply writes_correct_set. eapply first_key_In; eassumption.
Qed.

Lemma fix_mcq_text_as_key_writes {U : Unicode} (qtype : string) (q q' : Question) :
  fix_mcq_text_as_key qtype q = Ok q' ->
  writes_correct (keys_of (q_options q)) q q'.
Proof.
  unfold fix_mcq_text_as_key.
  destruct (type_is qtype "multiple_choice" && correct_truthy (q_correct q));
    [|intros [= <-]; apply writes_correct_refl].
  destruct (fix_mcq_correct_key q) as [r|] eqn:E; [|discriminate].
  cbn [bind]. intros [= <-]. now apply fix_mcq_correct_key_writes.
Qed.


(** [fix_question] as the sequence of its passes. *)
Lemma fix_question_passes {U : Unicode} (q : Question) (subject_lower : string) :
  fix_question q subject_lower
  = (let qtype := snd (fix_type q) in
     let correct := q_correct q in
     let final_answer := strip (or_empty (q_final_answer q)) in
     let answer_parts := q_answer_parts q in
     question <- fix_mcq_text_as_key qtype
                   (fix_mcq_missing_correct qtype correct final_answer answer_parts
                      (fst (fix_type q))) ;;
     Ok (fix_latex subject_lower
           (fix_true_false_missing_correct qtype correct final_answer
              (fix_fill_blank_missing_correct qtype correct final_answer answer_parts
                 question)))).
Proof. unfold fix_question. now destruct (fix_type q). Qed.

Lemma fix_type_frame {U : Unicode} (q : Question) :
  q_type (fst (fix_type q)) = Some (snd (fix_type q))
  /\ q_question (fst (fix_type q)) = q_question q
  /\ q_options (fst (fix_type q)) = q_options q
  /\ q_correct (fst (fix_type q)) = q_correct q
  /\ q_final_answer (fst (fix_type q)) = q_final_answer q
  /\ q_answer_parts (fst (fix_type q)) = q_answer_parts q
  /\ q_model_answer (fst (fix_type q)) = q_model_answer q
  /\ q_scaffold_text (fst (fix_type q)) = q_scaffold_text q
  /\ q_explanation (fst (fix_type q)) = q_explanation q
  /\ q_hints (fst (fix_type q)) = q_hints q.
Proof. unfold fix_type. destruct (q_type q) eqn:E; cbn; now repeat split. Qed.

Lemma fix_fill_blank_frame {U : Unicode} (qtype : string) (correct : option correct_val)
    (final_answer : string) (answer_parts : option (list answer_part)) (q : Question) :
  same_except_correct q
    (fix_fill_blank_missing_correct qtype correct final_answer answer_parts q).
Proof.
  unfold fix_fill_blank_missing_correct.
  destruct (type_is qtype "fill_blank" && negb (correct_truthy correct));
    [|apply same_except_correct_refl].
  destruct (truthy final_answer && negb (mem (strip (lower final_answer)) skip_values));
    [apply same_except_correct_set|].
  destruct answer_parts as [l|]; [|apply same_except_correct_refl].
  destruct (first_answer l); [apply same_except_correct_set|apply same_except_correct_refl].
Qed.

Lemma fix_true_false_frame {U : Unicode} (qtype : string) (correct : option correct_val)
    (final_answer : string) (q : Question) :
  same_except_correct q (fix_true_false_missing_correct qtype correct final_answer q).
Proof.
  unfold fix_true_false_missing_correct.
  destruct (type_is qtype "true_false" && negb (correct_truthy correct));
    [|apply same_except_correct_refl].
  destruct (truthy final_answer); [|apply same_except_correct_refl].
  destruct (mem _ _); [apply same_except_correct_set|].
  destruct (contains "vrai" _); [apply same_except_correct_set|].
  destruct (contains "faux" _); [apply same_except_correct_set|apply same_except_correct_refl].
Qed.

Lemma fix_latex_frame {U : Unicode} (subject_lower : string) (q : Question) :
  q_type (fix_latex subject_lower q) = q_type q
  /\ q_options (fix_latex subject_lower q) = q_options q
  /\ q_correct (fix_latex subject_lower q) = q_correct q
  /\ q_final_answer (fix_latex subject_lower q) = q_final_answer q
  /\ q_answer_parts (fix_latex subject_lower q) = q_answer_parts q
  /\ option_map (@List.length hint) (q_hints (fix_latex subject_lower q))
     = option_map (@List.length hint) (q_hints q)
  /\ (mem subject_lower LANGUAGE_SUBJECTS = false -> fix_latex subject_lower q = q).
Proof.
  unfold fix_latex. destruct (mem subject_lower LANGUAGE_SUBJECTS);
    cbn; repeat split; try discriminate.
  unfold clean_hints. destruct (q_hints q) as [[|h l]|]; try reflexivity.
  cbn [option_map]. now rewrite length_map.
Qed.

(** The question between the four passes on [correct] and the cleanup. *)
Lemma fix_question_before_cleanup {U : Unicode} (q q' : Question) (subject_lower : string) :
  fix_question q subject_lower = Ok q' ->
  exists q3,
    q' = fix_latex subject_lower q3
    /\ same_except_correct (fst (fix_type q)) q3.
Proof.
  rewrite fix_question_passes. cbv zeta.
  destruct (fix_mcq_text_as_key _ _) as [q2|] eqn:E2; [|discriminate].
  cbn [bind]. intros [= <-]. eexists. split; [reflexivity|].
  eapply same_except_correct_trans; [apply fix_mcq_missing_correct_writes|].
  eapply same_except_correct_trans; [apply (fix_mcq_text_as_key_writes _ _ _ E2)|].
  eapply same_except_correct_trans; [apply fix_fill_blank_frame|].
  apply fix_true_false_frame.
Qed.

(** X8.  What [fix_question] never touches: [options], [final_answer]
    and [answer_parts] come back as they were, the number of hints is the
    same, and the question has a type afterwards, its own if it had one.
    For a subject outside [LANGUAGE_SUBJECTS] the text members and the
    hints come back as they were too. *)
Theorem fix_question_frame {U : Unicode} (q q' : Question) (subject_lower : string)
    (Hfix : fix_question q subject_lower = Ok q') :
  q_options q' = q_options q
  /\ q_final_answer q' = q_final_answer q
  /\ q_answer_parts q' = q_answer_parts q
  /\ q_type q' = Some (snd (fix_type q))
  /\ (forall t, q_type q = Some t -> q_type q' = Some t)
  /\ option_map (@List.length hint) (q_hints q')
     = option_map (@List.length hint) (q_hints q)
  /\ (mem subject_lower LANGUAGE_SUBJECTS = false ->
      q_question q' = q_question q
      /\ q_model_answer q' = q_model_answer q
      /\ q_scaffold_text q' = q_scaffold_text q
      /\ q_explanation q' = q_explanation q
      /\ q_hints q' = q_hints q).
Proof.
  destruct (fix_question_before_cleanup q q' subject_lower Hfix) as (q3 & -> & Hs).
  destruct (fix_latex_frame subject_lower q3) as (L1 & L2 & _ & L4 & L5 & L6 & L7).
  destruct (fix_type_frame q) as (T1 & T2 & T3 & _ & T5 & T6 & T7 & T8 & T9 & T10).
  destruct Hs as (S1 & S2 & S3 & S4 & S5 & S6 & S7 & S8 & S9).
  repeat match goal with |- _ /\ _ => split end; try congruence.
  - intros t Ht. rewrite L1, S1, T1. unfold fix_type. now rewrite Ht.
  - intros Hm. rewrite (L7 Hm). repeat split; congruence.
Qed.

(** [fix_question] on the MCQ of the scenario, for a subject of neither
    set. *)
Lemma fix_question_frame_witness :
  q_options (set_correct "c" Samples.colour_question) = Some Samples.colour_options
  /\ q_type (set_correct "c" Samples.colour_question) = Some "multiple_choice".
Proof.
  destruct (fix_question_frame (U := ascii_unicode) Samples.colour_question
              (set_correct "c" Samples.colour_question) "latin" eq_refl)
    as (Ho & _ & _ & Ht & _).
  split; [exact Ho|exact Ht].
Defined.


(** *** The passes by type *)

Lemma fix_type_given {U : Unicode} (q : Question) (t : string) :
  q_type q = Some t -> fix_type q = (q, t).
Proof. unfold fix_type. now intros ->. Qed.




(** X11.  On a true_false question without [correct], [fix_question]
    returns and leaves [correct] as it was or sets it to one of vrai,
    faux, true, false, v, f.  Without a [final_answer] nothing is set,
    whatever the [answer_parts]; an answer that is one of the six words is
    taken as it is, in lower case; any other answer gives vrai if it
    contains vrai, even when it contains faux as well, else faux if it
    contains faux, else nothing. *)
Theorem true_false_inference {U : Unicode} (q : Question) (subject_lower : string)
    (Hty : q_type q = Some "true_false")
    (Hc : correct_truthy (q_correct q) = false) :
  let fa_lower := strip (lower (strip (or_empty (q_final_answer q)))) in
  exists q',
    fix_question q subject_lower = Ok q'
    /\ (q_correct q' = q_correct q \/ correct_among true_false_tokens (q_correct q'))
    /\ (truthy (strip (or_empty (q_final_answer q))) = false ->
        q_correct q' = q_correct q)
    /\ (mem fa_lower true_false_tokens = true ->
        q_correct q' = Some (CorrectStr fa_lower))
    /\ (mem fa_lower true_false_tokens = false -> contains "vrai" fa_lower = true ->
        q_correct q' = Some (CorrectStr "vrai"))
    /\ (mem fa_lower true_false_tokens = false -> contains "vrai" fa_lower = false ->
        contains "faux" fa_lower = true ->
        q_correct q' = Some (CorrectStr "faux"))
    /\ (mem fa_lower true_false_tokens = false -> contains "vrai" fa_lower = false ->
        contains "faux" fa_lower = false ->
        q_correct q' = q_correct q).
Proof.
  intros fa_lower.
  rewrite fix_question_passes, (fix_type_given q _ Hty). cbv zeta. cbn [fst snd].
  unfold fix_mcq_missing_correct, fix_mcq_text_as_key, fix_fill_blank_missing_correct.
  cbn [type_is String.eqb Ascii.eqb Bool.eqb andb bind].
  eexists. split; [reflexivity|]. rewrite q_correct_fix_latex.
  unfold fix_true_false_missing_correct. rewrite Hc.
  cbn [type_is String.eqb Ascii.eqb Bool.eqb andb negb].
  fold fa_lower. change ["vrai"; "faux"; "true"; "false"; "v"; "f"] with true_false_tokens.
  destruct (truthy (strip (or_empty (q_final_answer q)))) eqn:Et.
  - destruct (mem fa_lower true_false_tokens) eqn:Em.
    + repeat split; try discriminate; try reflexivity.
      right. exists fa_lower. split; [reflexivity|now apply mem_In].
    + destruct (contains "vrai" fa_lower) eqn:Ev.
      * repeat split; try discriminate; try reflexivity.
        right. exists "vrai". split; [reflexivity|now left].
      * destruct (contains "faux" fa_lower) eqn:Ef.
        -- repeat split; try discriminate; try reflexivity.
           right. exists "faux". split; [reflexivity|right; now left].
        -- repeat split; try discriminate; try reflexivity. now left.
  - assert (Hempty : fa_lower = EmptyString).
    { unfold fa_lower.
      destruct (strip (or_empty (q_final_answer q))); [|discriminate].
      ascii_tables. reflexivity. }
    rewrite Hempty. repeat split; try discriminate; try reflexivity. now left.
Qed.

(** A true_false whose answer denies in a sentence that names both
    words. *)
Lemma true_false_inference_witness :
  exists q',
    fix_question
      (Samples.question_with (Some "true_false") None None (Some "Faux, ce n'est pas vrai."))
      "french" = Ok q'
    /\ q_correct q' = Some (CorrectStr "vrai").
Proof.
  destruct (true_false_inference
              (Samples.question_with (Some "true_false") None None
                 (Some "Faux, ce n'est pas vrai.")) "french" eq_refl eq_refl)
    as (q' & Hfix & _ & _ & _ & Hvrai & _).
  exists q'. split; [exact Hfix|]. exact (Hvrai eq_refl eq_refl).
Defined.

(** X12.  Whenever [fix_question] returns on a question whose type, once
    resolved, is multiple_choice, [correct] is as it was, or one of the
    letters a to f, or a key of [options]: the answer text of an option is
    never what the function writes. *)
Theorem mcq_correct_is_key_or_letter {U : Unicode} (q q' : Question) (subject_lower : string)
    (Hty : snd (fix_type q) = "multiple_choice")
    (Hfix : fix_question q subject_lower = Ok q') :
  q_correct q' = q_correct q
  \/ correct_among (option_keys ++ keys_of (q_options q)) (q_correct q').
Proof.
  rewrite fix_question_passes in Hfix. cbv zeta in Hfix. rewrite Hty in Hfix.
  destruct (fix_type_frame q) as (_ & _ & To & Tc & _).
  set (q1 := fst (fix_type q)) in *.
  set (q2 := fix_mcq_missing_correct _ _ _ _ q1) in Hfix.
  assert (H12 : writes_correct (option_keys ++ keys_of (q_options q1)) q1 q2)
    by apply fix_mcq_missing_correct_writes.
  destruct (fix_mcq_text_as_key "multiple_choice" q2) as [q3|] eqn:E3; [|discriminate].
  cbn [bind] in Hfix. injection Hfix as <-.
  assert (H23 : writes_correct (option_keys ++ keys_of (q_options q1)) q2 q3).
  { apply (writes_correct_weaken (keys_of (q_options q2))).
    - destruct H12 as [(_ & _ & -> & _) _]. apply incl_appr, incl_refl.
    - now apply fix_mcq_text_as_key_writes in E3. }
  destruct (writes_correct_trans _ _ _ _ H12 H23) as [_ H13].
  rewrite q_correct_fix_latex.
  unfold fix_true_false_missing_correct, fix_fill_blank_missing_correct.
  cbn [type_is String.eqb Ascii.eqb Bool.eqb andb].
  rewrite <- To, <- Tc. exact H13.
Qed.

(** [fix_question] on an MCQ whose [correct] is the text of an option. *)
Lemma mcq_correct_is_key_or_letter_witness :
  q_correct (set_correct "b" Samples.text_as_key_question)
  = q_correct Samples.text_as_key_question
  \/ correct_among (option_keys ++ keys_of (q_options Samples.text_as_key_question))
       (q_correct (set_correct "b" Samples.text_as_key_question)).
Proof.
  exact (mcq_correct_is_key_or_letter Samples.text_as_key_question
           (set_correct "b" Samples.text_as_key_question) "english" eq_refl eq_refl).
Defined.

End FixQuestion.

(** ** More on the text normaliser *)

Section CleanupLength.

Import PyStr FixAllExams.

Lemma re_sub_from_length (m : string -> option (string * nat)) :
  (forall s r n, m s = Some (r, n) ->
                 String.length r <= n /\ 1 <= n /\ n <= String.length s) ->
  forall s k,
    String.length (re_sub_from m k s) + Nat.min k (String.length s) <= String.length s.
Proof.
  intros Hm. induction s as [|c s IH]; intros k; [cbn; lia|].
  cbn [re_sub_from]. destruct k as [|k].
  - destruct (m (String c s)) as [[r n]|] eqn:E.
    + destruct (Hm _ _ _ E) as (H1 & H2 & H3). cbn [String.length] in *.
      rewrite length_append. specialize (IH (n - 1)). lia.
    + cbn [String.length]. specialize (IH 0). lia.
  - cbn [String.length]. specialize (IH k). lia.
Qed.

Lemma re_sub_length (m : string -> option (string * nat)) :
  (forall s r n, m s = Some (r, n) ->
                 String.length r <= n /\ 1 <= n /\ n <= String.length s) ->
  forall s, String.length (re_sub m s) <= String.length s.
Proof.
  intros Hm s. unfold re_sub. pose proof (re_sub_from_length m Hm s 0). lia.
Qed.

Lemma startswith_length (p s : string) :
  startswith p s = true -> String.length p <= String.length s.
Proof.
  revert s. induction p as [|a p IH]; intros s; [cbn; lia|].
  destruct s as [|b s]; [discriminate|]. cbn [startswith String.length].
  intros H. apply andb_true_iff in H as [_ H]. specialize (IH s H). lia.
Qed.

Lemma replace_from_length (old new : string) :
  1 <= String.length old -> String.length new <= String.length old ->
  forall s k,
    String.length (replace_from old new k s) + Nat.min k (String.length s)
    <= String.length s.
Proof.
  intros Hold Hnew. induction s as [|c s IH]; intros k; [cbn; lia|].
  cbn [replace_from]. destruct k as [|k].
  - destruct (startswith old (String c s)) eqn:E.
    + apply startswith_length in E. cbn [String.length] in *.
      rewrite length_append. specialize (IH (String.length old - 1)). lia.
    + cbn [String.length]. specialize (IH 0). lia.
  - cbn [String.length]. specialize (IH k). lia.
Qed.

Lemma replace_length (old new s : string) :
  1 <= String.length old -> String.length new <= String.length old ->
  String.length (replace old new s) <= String.length s.
Proof.
  intros Hold Hnew. unfold replace.
  pose proof (replace_from_length old new Hold Hnew s 0). lia.
Qed.

Lemma after_prefix_length (p s t : string) :
  after_prefix p s = Some t -> String.length s = String.length p + String.length t.
Proof.
  revert s. induction p as [|a p IH]; intros s; [now intros [= ->]|].
  destruct s as [|b s]; [discriminate|]. cbn [after_prefix String.length].
  destruct (Ascii.eqb a b); [|discriminate]. intros H. now rewrite (IH s H).
Qed.

Lemma span_length (p : ascii -> bool) (s a b : string) :
  span p s = (a, b) -> String.length s = String.length a + String.length b.
Proof.
  revert a b. induction s as [|c s IH]; intros a b; [now intros [= <- <-]|].
  cbn [span]. destruct (p c); [|now intros [= <- <-]].
  destruct (span p s) as [a' b']. intros [= <- <-]. cbn [String.length].
  now rewrite (IH a' b' eq_refl).
Qed.

Lemma match_ordinal_length {U : Unicode} (s r : string) (n : nat) :
  match_ordinal s = Some (r, n) ->
  String.length r <= n /\ 1 <= n /\ n <= String.length s.
Proof.
  unfold match_ordinal.
  destruct (after_prefix "$" s) as [s1|] eqn:E1; [|discriminate].
  pose proof (f_equal String.length (span_decimal_split s1)) as E2.
  destruct (span_decimal s1) as [digits s2]. cbn [fst snd] in E2.
  destruct (truthy digits); [|discriminate].
  destruct (after_prefix "^{" s2) as [[|a [|b s3]]|] eqn:E3; try discriminate.
  destruct (mem _ _); [|discriminate].
  destruct (after_prefix "}$" s3) as [s4|] eqn:E4; [|discriminate].
  intros [= <- <-].
  apply after_prefix_length in E1, E3, E4.
  rewrite length_append in *. cbn [String.length] in *. lia.
Qed.

Lemma match_command_length (s r : string) (n : nat) :
  match_command s = Some (r, n) ->
  String.length r <= n /\ 1 <= n /\ n <= String.length s.
Proof.
  unfold match_command.
  destruct (after_prefix "\" s) as [s1|] eqn:E1; [|discriminate].
  destruct (span is_alpha s1) as [letters rest] eqn:E2.
  destruct (truthy letters); [|discriminate].
  intros [= <- <-].
  apply after_prefix_length in E1. apply span_length in E2.
  cbn [String.length] in *. lia.
Qed.

Lemma replace_underline_length {U : Unicode} (inner : string) :
  String.length (replace_underline inner) <= String.length inner.
Proof.
  unfold replace_underline.
  eapply Nat.le_trans; [apply strip_shorter|].
  eapply Nat.le_trans; [apply (re_sub_length _ match_command_length)|].
  repeat (eapply Nat.le_trans; [apply replace_length; cbn; lia|]).
  apply Nat.le_refl.
Qed.

Lemma match_underline_length {U : Unicode} (s r : string) (n : nat) :
  match_underline s = Some (r, n) ->
  String.length r <= n /\ 1 <= n /\ n <= String.length s.
Proof.
  unfold match_underline.
  destruct (after_prefix "$\underline{" s) as [s1|] eqn:E1; [|discriminate].
  destruct (span _ s1) as [inner s2] eqn:E2.
  destruct (truthy inner); [|discriminate].
  destruct (after_prefix "}$" s2) as [s3|] eqn:E3; [|discriminate].
  intros [= <- <-].
  apply after_prefix_length in E1, E3. apply span_length in E2.
  pose proof (replace_underline_length inner).
  cbn [String.length] in *. lia.
Qed.

(** X13.  The cleanup only takes markup away: for every subject its
    result is no longer than the text it is given, and text without a
    dollar sign and without a backslash comes back as it is. *)
Theorem clean_latex_for_language_shrinks {U : Unicode} (text subject_lower : string) :
  String.length (clean_latex_for_language text subject_lower) <= String.length text
  /\ (Spec.plain text = true -> clean_latex_for_language text subject_lower = text).
Proof.
  unfold clean_latex_for_language.
  destruct (negb (truthy text) || negb (mem subject_lower LANGUAGE_SUBJECTS));
    [now split|].
  split.
  - eapply Nat.le_trans; [apply replace_length; cbn; lia|].
    eapply Nat.le_trans; [apply replace_length; cbn; lia|].
    eapply Nat.le_trans; [apply (re_sub_length _ match_underline_length)|].
    apply (re_sub_length _ match_ordinal_length).
  - intros Hp.
    rewrite (re_sub_plain _ match_ordinal_plain _ Hp).
    rewrite (re_sub_plain _ match_underline_plain _ Hp).
    rewrite (replace_plain "$\ldots$" "..." "$" "\ldots$" eq_refl eq_refl _ Hp).
    apply (replace_plain "\ldots" "..." "\" "ldots" eq_refl eq_refl _ Hp).
Qed.

(** Text of a language exam without markup. *)
Lemma clean_latex_for_language_shrinks_witness :
  clean_latex_for_language "Lisez le texte (40%)." "français" = "Lisez le texte (40%).".
Proof.
  exact (proj2 (clean_latex_for_language_shrinks "Lisez le texte (40%)." "français")
           eq_refl).
Defined.

End CleanupLength.
